(** * vless-proxy: the VLESS handshake decoder and the relay session

    A shallow embedding of the two runtime variants found in the repository:

    - the Node.js variant: [vless-parser.js] (per-field bounds checks) and
      [websocket-proxy.js] ([handleWebSocketUpgrade], [safeClose]);
    - the Cloudflare Worker variant: the compact [processVlessHeader] /
      [bytesToUUID] pair and [websocket-handler.js]
      ([handleVlessWebSocket], [safeCloseWebSocket]).

    Both sessions import [processVlessHeader] from a [./vless-parser.js] of
    their own directory; the two decoders are attributed to them by runtime
    idiom ([length] and documented checks against [byteLength] and none).

    JavaScript values are modelled explicitly (numbers, [undefined], [NaN]),
    because an out-of-range typed-array read yields [undefined] instead of
    failing, and the decoders differ precisely in how they guard against it. *)

From Stdlib Require Import ZArith List String Ascii Bool Lia.
From Stdlib Require Import Strings.Byte.
Import ListNotations.
Open Scope string_scope.
Open Scope list_scope.
Open Scope Z_scope.

(* ================================================================== *)
(** ** JavaScript values and the primitive operations the code uses    *)
(* ================================================================== *)

Module JS.

(** The numbers met in the decoders are small integers, so an unbounded [Z]
    is exact; [NaN] and [undefined] are kept apart as in the language. *)
Inductive value : Type :=
| Undefined
| Num (z : Z)
| NaN.

Definition ToNumber (v : value) : value :=
  match v with
  | Undefined => NaN
  | _ => v
  end.

(** [a + b] on numbers-or-undefined. *)
Definition add (a b : value) : value :=
  match ToNumber a, ToNumber b with
  | Num x, Num y => Num (x + y)
  | _, _ => NaN
  end.

(** [a < b]: any comparison that involves [NaN] is false. *)
Definition lt (a b : value) : bool :=
  match ToNumber a, ToNumber b with
  | Num x, Num y => x <? y
  | _, _ => false
  end.

(** [a === b]; [NaN] is not equal to itself. *)
Definition strict_eq (a b : value) : bool :=
  match a, b with
  | Undefined, Undefined => true
  | Num x, Num y => x =? y
  | _, _ => false
  end.

Definition strict_neq (a b : value) : bool := negb (strict_eq a b).

(** Wrap-around to a signed 32-bit integer. *)
Definition wrap32 (z : Z) : Z := (z + 2 ^ 31) mod 2 ^ 32 - 2 ^ 31.

Definition ToInt32 (v : value) : Z :=
  match v with
  | Num z => wrap32 z
  | _ => 0
  end.

(** [a << k] for a literal shift count. *)
Definition shl (a : value) (k : Z) : value :=
  Num (wrap32 (Z.shiftl (ToInt32 a) (k mod 32))).

(** [a | b]. *)
Definition bor (a b : value) : value :=
  Num (Z.lor (ToInt32 a) (ToInt32 b)).

(** *** Number formatting *)

Definition digit (d : Z) : ascii :=
  match String.get (Z.to_nat d) "0123456789abcdefghijklmnopqrstuvwxyz" with
  | Some c => c
  | None => "?"%char
  end.

Fixpoint digits (fuel : nat) (radix n : Z) (acc : string) : string :=
  match fuel with
  | O => acc
  | S fuel' =>
      let acc' := String (digit (n mod radix)) acc in
      if n / radix =? 0 then acc' else digits fuel' radix (n / radix) acc'
  end.

(** [Number.prototype.toString(radix)] on an integer. *)
Definition Number_toString (radix n : Z) : string :=
  if n <? 0
  then String "-"%char (digits (S (Z.to_nat (Z.log2 (- n)))) radix (- n) "")
  else digits (S (Z.to_nat (Z.log2 n))) radix n "".

(** [v.toString(radix)] and the conversion done by a template literal. *)
Definition toString (radix : Z) (v : value) : string :=
  match v with
  | Undefined => "undefined"
  | NaN => "NaN"
  | Num z => Number_toString radix z
  end.

Definition ToString (v : value) : string := toString 10 v.

(** [s.padStart(n, c)] for a one-character filler. *)
Definition padStart (n : nat) (c : ascii) (s : string) : string :=
  (string_of_list_ascii (repeat c (n - String.length s)) ++ s)%string.

(** [s.substring(a, b)] and [s.slice(a, b)] for [0 <= a <= b]. *)
Definition substring (a b : nat) (s : string) : string :=
  String.substring a (b - a) s.

(** [s.slice(a)]: from index [a] to the end. *)
Definition slice_from (a : nat) (s : string) : string :=
  String.substring a (String.length s - a) s.

(** *** Typed arrays *)

Definition Uint8Array : Type := list byte.

Definition of_byte (b : byte) : value := Num (Z.of_N (Byte.to_N b)).

Definition length (buf : Uint8Array) : value :=
  Num (Z.of_nat (List.length buf)).

(** [buf[i]]: [undefined] outside the array. *)
Definition index (buf : Uint8Array) (i : value) : value :=
  match i with
  | Num z =>
      if z <? 0 then Undefined
      else match nth_error buf (Z.to_nat z) with
           | Some b => of_byte b
           | None => Undefined
           end
  | _ => Undefined
  end.

(** Relative index of [slice]: negative counts from the end, everything is
    clamped to the array, [NaN] and [undefined] count as 0. *)
Definition relative (len : Z) (v : value) : Z :=
  match v with
  | Num k => if k <? 0 then Z.max (len + k) 0 else Z.min k len
  | _ => 0
  end.

(** [buf.slice(s, e)]; an [undefined] end means the end of the array. *)
Definition slice (buf : Uint8Array) (s e : value) : Uint8Array :=
  let len := Z.of_nat (List.length buf) in
  let from := relative len s in
  let to := match e with Undefined => len | _ => relative len e end in
  firstn (Z.to_nat (to - from)) (skipn (Z.to_nat from) buf).

End JS.

Import JS (Undefined, Num, NaN, Uint8Array).

(* ================================================================== *)
(** ** Decoder effects: buffer accesses, early return, exceptions      *)
(* ================================================================== *)

(** Every access to the input buffer is recorded, so that "never reads past
    the end" is a property of the run and not of the model's types. *)
Inductive access : Type :=
| ReadIndex (i : JS.value)
| ReadSlice (s e : JS.value).

Definition in_bounds (len : Z) (a : access) : Prop :=
  match a with
  | ReadIndex (Num i) => 0 <= i < len
  | ReadSlice (Num s) (Num e) => 0 <= s <= e /\ e <= len
  | _ => False
  end.

Definition in_boundsb (len : Z) (a : access) : bool :=
  match a with
  | ReadIndex (Num i) => (0 <=? i) && (i <? len)
  | ReadSlice (Num s) (Num e) => (0 <=? s) && (s <=? e) && (e <=? len)
  | _ => false
  end.

Inductive completion (R A : Type) : Type :=
| Normal (a : A)
| Return (r : R)
| Throw (e : string).
Arguments Normal {R A} a.
Arguments Return {R A} r.
Arguments Throw {R A} e.

Definition Eff (R A : Type) : Type := (list access * completion R A)%type.

Definition ret {R A} (a : A) : Eff R A := ([], Normal a).

Definition bind {R A B} (m : Eff R A) (k : A -> Eff R B) : Eff R B :=
  match m with
  | (t, Normal a) => let '(t', c) := k a in (t ++ t', c)
  | (t, Return r) => (t, Return r)
  | (t, Throw e) => (t, Throw e)
  end.

Definition return_ {R A} (r : R) : Eff R A := ([], Return r).
Definition throw {R A} (e : string) : Eff R A := ([], Throw e).

(** [if (c) { return ... }] followed by the rest of the function. *)
Definition when {R} (c : bool) (m : Eff R unit) : Eff R unit :=
  if c then m else ret tt.

Definition read {R} (buf : Uint8Array) (i : JS.value) : Eff R JS.value :=
  ([ReadIndex i], Normal (JS.index buf i)).

Definition read_slice {R} (buf : Uint8Array) (s e : JS.value)
  : Eff R Uint8Array :=
  ([ReadSlice s e], Normal (JS.slice buf s e)).

Fixpoint mapM {R A B} (f : A -> Eff R B) (l : list A) : Eff R (list B) :=
  match l with
  | [] => ret []
  | x :: l' => bind (f x) (fun y => bind (mapM f l') (fun ys => ret (y :: ys)))
  end.

Declare Scope eff_scope.
Delimit Scope eff_scope with eff.
Notation "x <- m ;; k" := (bind m (fun x => k))
  (at level 61, m at next level, right associativity) : eff_scope.
Notation "m ;; k" := (bind m (fun _ => k))
  (at level 61, right associativity) : eff_scope.

(** What a caller observes of one call. *)
Inductive outcome (R : Type) : Type :=
| Returned (r : R)
| Threw (e : string).
Arguments Returned {R} r.
Arguments Threw {R} e.

Definition call {R} (m : Eff R R) : list access * outcome R :=
  match m with
  | (t, Normal r) => (t, Returned r)
  | (t, Return r) => (t, Returned r)
  | (t, Throw e) => (t, Threw e)
  end.

(* ================================================================== *)
(** ** The Node.js variant: [vless-parser.js]                          *)
(* ================================================================== *)

Module Node.

(** The object returned on success. *)
Record Header : Type := {
  addressRemote : string;
  portRemote : JS.value;
  rawDataIndex : JS.value;
  vlessVersion : JS.value;
  command : JS.value;
  addressType : JS.value;
  message : string
}.

(** [{ hasError: true, message }] or [{ hasError: false, ... }]. *)
Inductive ParseResult : Type :=
| Failure (message : string)
| Success (h : Header).

Definition hasError (r : ParseResult) : bool :=
  match r with
  | Failure _ => true
  | Success _ => false
  end.

Definition hex2 (b : byte) : string :=
  JS.padStart 2 "0" (JS.toString 16 (JS.of_byte b)).

(** The formatting part of [bytesToUUID]: hex-encode, then insert dashes at
    positions 8, 12, 16 and 20. *)
Definition dashed_hex (bytes : Uint8Array) : string :=
  let hex := String.concat "" (map hex2 bytes) in
  (JS.substring 0 8 hex ++ "-" ++ JS.substring 8 12 hex ++ "-"
   ++ JS.substring 12 16 hex ++ "-" ++ JS.substring 16 20 hex ++ "-"
   ++ JS.substring 20 32 hex)%string.

Definition bytesToUUID {R} (bytes : Uint8Array) : Eff R string :=
  (when (JS.strict_neq (JS.length bytes) (Num 16))
     (throw "UUID must be exactly 16 bytes") ;;
   ret (dashed_hex bytes))%eff.

Definition validateCommand (command : JS.value) : bool :=
  JS.strict_eq command (Num 1).

Section Decoder.

(** [new TextDecoder().decode]: the platform's UTF-8 decoder. *)
Variable TextDecoder_decode : Uint8Array -> string.

Definition fail {A} (msg : string) : Eff ParseResult A :=
  return_ (Failure msg).

(** The [case] bodies of the address switch; each yields the address string
    and the advanced offset, or returns a failure. *)
Definition parseIPv4 (buffer : Uint8Array) (offset : JS.value)
  : Eff ParseResult (string * JS.value) :=
  (when (JS.lt (JS.length buffer) (JS.add offset (Num 4)))
     (fail "Invalid VLESS header: incomplete IPv4 address") ;;
   a <- read buffer offset ;;
   b <- read buffer (JS.add offset (Num 1)) ;;
   c <- read buffer (JS.add offset (Num 2)) ;;
   d <- read buffer (JS.add offset (Num 3)) ;;
   ret ((JS.ToString a ++ "." ++ JS.ToString b ++ "." ++ JS.ToString c
         ++ "." ++ JS.ToString d)%string,
        JS.add offset (Num 4)))%eff.

Definition parseDomain (buffer : Uint8Array) (offset : JS.value)
  : Eff ParseResult (string * JS.value) :=
  (when (JS.lt (JS.length buffer) (JS.add offset (Num 1)))
     (fail "Invalid VLESS header: missing domain length") ;;
   domainLength <- read buffer offset ;;
   let offset := JS.add offset (Num 1) in
   when (JS.lt (JS.length buffer) (JS.add offset domainLength))
     (fail "Invalid VLESS header: incomplete domain name") ;;
   bytes <- read_slice buffer offset (JS.add offset domainLength) ;;
   ret (TextDecoder_decode bytes, JS.add offset domainLength))%eff.

(** The iterations of [for (let i = 0; i < 16; i += 2)]. *)
Definition ipv6_steps : list Z := [0; 2; 4; 6; 8; 10; 12; 14].

Definition parseIPv6 (buffer : Uint8Array) (offset : JS.value)
  : Eff ParseResult (string * JS.value) :=
  (when (JS.lt (JS.length buffer) (JS.add offset (Num 16)))
     (fail "Invalid VLESS header: incomplete IPv6 address") ;;
   ipv6Parts <- mapM (fun i =>
       hi <- read buffer (JS.add offset (Num i)) ;;
       lo <- read buffer (JS.add (JS.add offset (Num i)) (Num 1)) ;;
       ret (JS.toString 16 (JS.bor (JS.shl hi 8) lo))) ipv6_steps ;;
   ret (String.concat ":" ipv6Parts, JS.add offset (Num 16)))%eff.

Definition processVlessHeader (buffer : Uint8Array) (expectedUUID : string)
  : Eff ParseResult ParseResult :=
  (when (JS.lt (JS.length buffer) (Num 23))
     (fail "Invalid VLESS header: buffer too short") ;;
   let offset := Num 0 in
   (* version *)
   version <- read buffer offset ;;
   let offset := JS.add offset (Num 1) in
   when (JS.strict_neq version (Num 0))
     (fail ("Unsupported VLESS version: " ++ JS.ToString version
            ++ ". Only version 0 is supported.")%string) ;;
   (* UUID *)
   uuidBytes <- read_slice buffer offset (JS.add offset (Num 16)) ;;
   let offset := JS.add offset (Num 16) in
   clientUUID <- bytesToUUID uuidBytes ;;
   when (negb (String.eqb clientUUID expectedUUID))
     (fail "Authentication failed: Invalid UUID") ;;
   (* options *)
   optLen <- read buffer offset ;;
   let offset := JS.add offset (Num 1) in
   when (JS.lt (JS.length buffer) (JS.add offset optLen))
     (fail "Invalid VLESS header: incomplete options data") ;;
   let offset := JS.add offset optLen in
   (* command *)
   when (JS.lt (JS.length buffer) (JS.add offset (Num 1)))
     (fail "Invalid VLESS header: missing command") ;;
   command <- read buffer offset ;;
   let offset := JS.add offset (Num 1) in
   when (negb (validateCommand command))
     (fail ("Unsupported command: " ++ JS.ToString command
            ++ ". Only TCP (0x01) is supported.")%string) ;;
   (* port, big-endian *)
   when (JS.lt (JS.length buffer) (JS.add offset (Num 2)))
     (fail "Invalid VLESS header: missing port") ;;
   hi <- read buffer offset ;;
   lo <- read buffer (JS.add offset (Num 1)) ;;
   let portRemote := JS.bor (JS.shl hi 8) lo in
   let offset := JS.add offset (Num 2) in
   (* address type *)
   when (JS.lt (JS.length buffer) (JS.add offset (Num 1)))
     (fail "Invalid VLESS header: missing address type") ;;
   addressType <- read buffer offset ;;
   let offset := JS.add offset (Num 1) in
   (* address, by type *)
   parsed <- (if JS.strict_eq addressType (Num 1) then parseIPv4 buffer offset
              else if JS.strict_eq addressType (Num 2)
                   then parseDomain buffer offset
              else if JS.strict_eq addressType (Num 3)
                   then parseIPv6 buffer offset
              else fail ("Unsupported address type: "
                         ++ JS.ToString addressType)%string) ;;
   let '(addressRemote, offset) := parsed in
   return_ (Success {|
     addressRemote := addressRemote;
     portRemote := portRemote;
     rawDataIndex := offset;
     vlessVersion := version;
     command := command;
     addressType := addressType;
     message := "VLESS header parsed successfully" |}))%eff.

End Decoder.

End Node.

(* ================================================================== *)
(** ** The Cloudflare Worker variant of the decoder                    *)
(* ================================================================== *)

Module Worker.

(** The object returned on success (this variant returns fewer fields). *)
Record Header : Type := {
  addressRemote : string;
  portRemote : JS.value;
  rawDataIndex : JS.value;
  command : JS.value
}.

Inductive ParseResult : Type :=
| Failure (message : string)
| Success (h : Header).

Definition hasError (r : ParseResult) : bool :=
  match r with
  | Failure _ => true
  | Success _ => false
  end.

Definition hex2 (b : byte) : string :=
  JS.padStart 2 "0" (JS.toString 16 (JS.of_byte b)).

(** No length check in this variant. *)
Definition bytesToUUID (bytes : Uint8Array) : string :=
  let hex := String.concat "" (map hex2 bytes) in
  (JS.substring 0 8 hex ++ "-" ++ JS.substring 8 12 hex ++ "-"
   ++ JS.substring 12 16 hex ++ "-" ++ JS.substring 16 20 hex ++ "-"
   ++ JS.slice_from 20 hex)%string.

Section Decoder.

Variable TextDecoder_decode : Uint8Array -> string.

Definition fail {A} (msg : string) : Eff ParseResult A :=
  return_ (Failure msg).

Definition ipv6_steps : list Z := [0; 2; 4; 6; 8; 10; 12; 14].

(** The address switch: yields [addressLength] and [addressRemote] as they
    stand at the [break]. *)
Definition parseAddress (vlessBuffer : Uint8Array)
    (addressIndex addressType : JS.value)
  : Eff ParseResult (JS.value * string) :=
  (if JS.strict_eq addressType (Num 1) then
     let addressLength := Num 4 in
     bytes <- read_slice vlessBuffer (JS.add addressIndex (Num 1))
                (JS.add (JS.add addressIndex (Num 1)) addressLength) ;;
     ret (addressLength,
          String.concat "." (map (fun b => JS.ToString (JS.of_byte b)) bytes))
   else if JS.strict_eq addressType (Num 2) then
     addressLength <- read vlessBuffer (JS.add addressIndex (Num 1)) ;;
     bytes <- read_slice vlessBuffer (JS.add addressIndex (Num 2))
                (JS.add (JS.add addressIndex (Num 2)) addressLength) ;;
     ret (JS.add addressLength (Num 1), TextDecoder_decode bytes)
   else if JS.strict_eq addressType (Num 3) then
     let addressLength := Num 16 in
     ipv6Parts <- mapM (fun i =>
         hi <- read vlessBuffer (JS.add (JS.add addressIndex (Num 1)) (Num i)) ;;
         lo <- read vlessBuffer (JS.add (JS.add addressIndex (Num 2)) (Num i)) ;;
         ret (JS.toString 16 (JS.bor (JS.shl hi 8) lo))) ipv6_steps ;;
     ret (addressLength, String.concat ":" ipv6Parts)
   else fail "Unknown address type")%eff.

Definition processVlessHeader (vlessBuffer : Uint8Array) (userID : string)
  : Eff ParseResult ParseResult :=
  (when (JS.lt (JS.length vlessBuffer) (Num 24)) (fail "Buffer too short") ;;
   version <- read vlessBuffer (Num 0) ;;
   when (JS.strict_neq version (Num 0)) (fail "Invalid version") ;;
   uuidBytes <- read_slice vlessBuffer (Num 1) (Num 17) ;;
   let uuid := bytesToUUID uuidBytes in
   when (negb (String.eqb uuid userID)) (fail "Invalid UUID") ;;
   optLength <- read vlessBuffer (Num 17) ;;
   command <- read vlessBuffer (JS.add (Num 18) optLength) ;;
   when (JS.strict_neq command (Num 1)) (fail "Only TCP supported") ;;
   let portIndex := JS.add (JS.add (Num 18) optLength) (Num 1) in
   hi <- read vlessBuffer portIndex ;;
   lo <- read vlessBuffer (JS.add portIndex (Num 1)) ;;
   let portRemote := JS.bor (JS.shl hi 8) lo in
   let addressIndex := JS.add portIndex (Num 2) in
   addressType <- read vlessBuffer addressIndex ;;
   parsed <- parseAddress vlessBuffer addressIndex addressType ;;
   let '(addressLength, addressRemote) := parsed in
   let rawDataIndex := JS.add (JS.add addressIndex (Num 1)) addressLength in
   return_ (Success {|
     addressRemote := addressRemote;
     portRemote := portRemote;
     rawDataIndex := rawDataIndex;
     command := command |}))%eff.

End Decoder.

End Worker.


(* ================================================================== *)
(** ** Specification vocabulary for the decoders                       *)
(* ================================================================== *)

(** A run of decoder code satisfies [sat ok m Q P] when every buffer access
    it makes is accepted by [ok], it does not throw, a normal completion
    satisfies [Q] and an early [return] satisfies [P]. *)
Definition sat {R A} (ok : access -> Prop) (m : Eff R A)
    (Q : A -> Prop) (P : R -> Prop) : Prop :=
  Forall ok (fst m) /\
  match snd m with
  | Normal a => Q a
  | Return r => P r
  | Throw _ => False
  end.

(** [safe len]: all accesses lie inside a buffer of [len] bytes. *)
Abbreviation safe len := (sat (in_bounds len)).

(** No constraint on the accesses. *)
Definition any_access (a : access) : Prop := True.

(** The byte of [buf] at index [i], if there is one. *)
Definition byte_at (buf : Uint8Array) (i : Z) : option Z :=
  if i <? 0 then None
  else option_map (fun b => Z.of_N (Byte.to_N b)) (nth_error buf (Z.to_nat i)).

(** Width of the address field that starts at offset [22 + optionsLength]:
    4 for IPv4, one length byte plus the domain for a domain name, 16 for
    IPv6. *)
Definition addressFieldWidth (buf : Uint8Array) (optionsLength addressType : Z)
  : option Z :=
  if addressType =? 1 then Some 4
  else if addressType =? 2
       then option_map (fun domainLength => 1 + domainLength)
                       (byte_at buf (22 + optionsLength))
  else if addressType =? 3 then Some 16
  else None.

(** Shape of a canonical token: 36 characters, dashes at 8, 13, 18 and 23,
    lowercase hexadecimal digits elsewhere. *)
Definition is_lower_hex (c : ascii) : bool :=
  let n := nat_of_ascii c in
  ((48 <=? n) && (n <=? 57) || (97 <=? n) && (n <=? 102))%nat.

Definition is_dash (c : ascii) : bool := Ascii.eqb c "-".

Fixpoint shape_from (i : nat) (cs : list ascii) : bool :=
  match cs with
  | [] => true
  | c :: cs' =>
      (if (i =? 8)%nat || (i =? 13)%nat || (i =? 18)%nat || (i =? 23)%nat
       then is_dash c else is_lower_hex c) && shape_from (S i) cs'
  end.

Definition canonical_uuid (s : string) : bool :=
  (String.length s =? 36)%nat && shape_from 0 (list_ascii_of_string s).


(* ================================================================== *)
(** ** Configuration values and sample messages                        *)
(* ================================================================== *)

Module Config.

(** [CONFIG.UUID] of [config.js]. *)
Definition UUID : string :=
  "8cd43dab-a5ae-4634-b9b1-726a262f-25f6-4280-8c7b-97d67b3e1298".

(** [CONFIG.UUID] of the second configuration file. *)
Definition UUID_alt : string := "8cd43dab-a5ae-4634-b9b1-3efa38615e0d".

(** [CONFIG.TIMEOUT]. *)
Definition TIMEOUT : Z := 300000.

End Config.

Definition bytes_of (l : list Z) : Uint8Array :=
  map (fun z => match Byte.of_N (Z.to_N z) with Some b => b | None => x00 end) l.

(** A stand-in for the platform decoder, used only to run examples. *)
Definition ascii_decode (bs : Uint8Array) : string := string_of_list_byte bs.

(** The sixteen bytes whose canonical form is [Config.UUID_alt]. *)
Definition token : list Z :=
  [0x8c; 0xd4; 0x3d; 0xab; 0xa5; 0xae; 0x46; 0x34;
   0xb9; 0xb1; 0x3e; 0xfa; 0x38; 0x61; 0x5e; 0x0d].

(** IPv4 192.168.0.1, port 443, followed by the payload [AA BB]. *)
Definition msg_ipv4 : Uint8Array :=
  bytes_of ([0] ++ token ++ [0; 1; 1; 187; 1; 192; 168; 0; 1; 0xAA; 0xBB]).

(** The same header with version byte 1. *)
Definition msg_version1 : Uint8Array :=
  bytes_of ([1] ++ token ++ [0; 1; 1; 187; 1; 192; 168; 0; 1; 0xAA; 0xBB]).

(** 23 bytes: a domain-name address of length 0 and no payload. *)
Definition msg_empty_domain : Uint8Array :=
  bytes_of ([0] ++ token ++ [0; 1; 1; 187; 2; 0]).

(** 24 bytes: address type IPv6 with only two of the sixteen address bytes. *)
Definition msg_truncated_ipv6 : Uint8Array :=
  bytes_of ([0] ++ token ++ [0; 1; 1; 187; 3; 32; 1]).

(** 24 bytes: a domain-name address announcing 200 bytes, one present. *)
Definition msg_truncated_domain : Uint8Array :=
  bytes_of ([0] ++ token ++ [0; 1; 1; 187; 2; 200; 97]).

(** 24 bytes: two option bytes, then the address type is the last byte, so
    the domain length byte is missing. *)
Definition msg_missing_domain_length : Uint8Array :=
  bytes_of ([0] ++ token ++ [2; 0; 0; 1; 1; 187; 2]).

(* ================================================================== *)
(** ** Session effects: platform calls, exceptions, event handlers     *)
(* ================================================================== *)

Inductive console_level : Type := LOG | WARN | ERROR.

(** Calls the session code makes on the platform.  A call is recorded when
    it is made, whether or not it then raises. *)
Inductive action : Type :=
| WsClose (code : option Z) (reason : string)  (* [ws.close(code, reason)] *)
| WsSend (data : Uint8Array)                   (* [ws.send(data)] *)
| NetConnect (host : string) (port : JS.value) (* [net.connect] / [connect] *)
| SocketWrite (data : Uint8Array)              (* [write(data)] *)
| SocketDestroy                                (* [socket.destroy()] *)
| SocketClose                                  (* [remoteSocket.close()] *)
| SocketSetTimeout (ms : JS.value)             (* [socket.setTimeout(ms, f)] *)
| GetWriter                                    (* [writable.getWriter()] *)
| GetReader                                    (* [readable.getReader()] *)
| WsAccept                                     (* [server.accept()] *)
| ReleaseLock                                  (* [writer.releaseLock()] *)
| Console (level : console_level) (msg : string).

Definition is_connect (a : action) : bool :=
  match a with NetConnect _ _ => true | _ => false end.

Definition is_close (a : action) : bool :=
  match a with
  | WsClose _ _ | SocketDestroy | SocketClose => true
  | _ => false
  end.

Definition is_set_timeout (a : action) : bool :=
  match a with SocketSetTimeout _ => true | _ => false end.

(** The data of the [write] calls of a trace, in order. *)
Fixpoint socket_writes (t : list action) : list Uint8Array :=
  match t with
  | [] => []
  | SocketWrite d :: t' => d :: socket_writes t'
  | _ :: t' => socket_writes t'
  end.

Inductive result (A : Type) : Type :=
| Ok (a : A)
| Raise (e : string).   (* a thrown [Error]; [e] is its [message] *)
Arguments Ok {A} a.
Arguments Raise {A} e.

Section IO.

(** [S]: the closure variables of a session together with the state of the
    platform objects it holds. *)
Context {S : Type}.

(** [faults n] tells whether the [n]-th platform call of the run raises,
    and with which message; it is chosen by the environment. *)
Record World : Type := {
  st : S;
  trace : list action;
  calls : nat;
  faults : nat -> option string
}.

Definition IO (A : Type) : Type := World -> result A * World.

Definition io_ret {A} (a : A) : IO A := fun w => (Ok a, w).

Definition io_bind {A B} (m : IO A) (k : A -> IO B) : IO B :=
  fun w => match m w with
           | (Ok a, w') => k a w'
           | (Raise e, w') => (Raise e, w')
           end.

Definition raise {A} (e : string) : IO A := fun w => (Raise e, w).

(** [try { body } catch (error) { handler(error.message) }]. *)
Definition try_catch (body : IO unit) (handler : string -> IO unit) : IO unit :=
  fun w => match body w with
           | (Ok a, w') => (Ok a, w')
           | (Raise e, w') => handler e w'
           end.

(** [try { body } finally { final }]. *)
Definition try_finally (body final : IO unit) : IO unit :=
  fun w => match body w with
           | (Ok a, w') => final w'
           | (Raise e, w') =>
               match final w' with
               | (Ok _, w'') => (Raise e, w'')
               | (Raise e', w'') => (Raise e', w'')
               end
           end.

Definition get : IO S := fun w => (Ok (st w), w).

Definition modify (f : S -> S) : IO unit :=
  fun w => (Ok tt, {| st := f (st w); trace := trace w;
                      calls := calls w; faults := faults w |}).

(** [console.log] and friends: recorded, never raise. *)
Definition console (level : console_level) (msg : string) : IO unit :=
  fun w => (Ok tt, {| st := st w; trace := trace w ++ [Console level msg];
                      calls := calls w; faults := faults w |}).

(** A platform call: recorded, then it either raises or takes [effect]. *)
Definition platform (a : action) (effect : S -> S) : IO unit :=
  fun w =>
    match faults w (calls w) with
    | Some e =>
        (Raise e, {| st := st w; trace := trace w ++ [a];
                     calls := Datatypes.S (calls w); faults := faults w |})
    | None =>
        (Ok tt, {| st := effect (st w); trace := trace w ++ [a];
                   calls := Datatypes.S (calls w); faults := faults w |})
    end.

Definition io_when (c : bool) (m : IO unit) : IO unit :=
  if c then m else io_ret tt.

End IO.

Arguments World S : clear implicits.
Arguments IO S A : clear implicits.

Declare Scope io_scope.
Delimit Scope io_scope with io.
Notation "x <- m ;; k" := (io_bind m (fun x => k))
  (at level 61, m at next level, right associativity) : io_scope.
Notation "m ;; k" := (io_bind m (fun _ => k))
  (at level 61, right associativity) : io_scope.

(** [readyState] values of a WebSocket. *)
Definition CONNECTING : Z := 0.
Definition OPEN : Z := 1.
Definition CLOSING : Z := 2.
Definition CLOSED : Z := 3.

(* ================================================================== *)
(** ** The Node.js relay session: [websocket-proxy.js]                 *)
(* ================================================================== *)

Module NodeSession.

(** The [config] object handed to [handleWebSocketUpgrade]. *)
Record Config : Type := {
  UUID : string;
  LOG_CONNECTIONS : bool;
  TIMEOUT : JS.value
}.

Record Vars : Type := {
  (* closure variables of [handleWebSocketUpgrade]; [false] is [null] *)
  remoteSocket : bool;
  addressRemote : string;
  portRemote : JS.value;
  isFirstMessage : bool;
  isHeaderProcessed : bool;
  (* listeners on the socket; the connect callback has captured [buffer]
     and [payloadStartIndex] *)
  onConnect : option (Uint8Array * JS.value);
  onError : bool;
  onTimeout : bool;
  piping : bool;
  (* state of the platform objects *)
  ws_readyState : Z;
  connected : bool;
  destroyed : bool;
  crashed : bool
}.

Definition set_remoteSocket (v : bool) (s : Vars) : Vars :=
  {| remoteSocket := v; addressRemote := addressRemote s;
     portRemote := portRemote s; isFirstMessage := isFirstMessage s;
     isHeaderProcessed := isHeaderProcessed s; onConnect := onConnect s;
     onError := onError s; onTimeout := onTimeout s; piping := piping s;
     ws_readyState := ws_readyState s; connected := connected s;
     destroyed := destroyed s; crashed := crashed s |}.
Definition set_addressRemote (v : string) (s : Vars) : Vars :=
  {| remoteSocket := remoteSocket s; addressRemote := v;
     portRemote := portRemote s; isFirstMessage := isFirstMessage s;
     isHeaderProcessed := isHeaderProcessed s; onConnect := onConnect s;
     onError := onError s; onTimeout := onTimeout s; piping := piping s;
     ws_readyState := ws_readyState s; connected := connected s;
     destroyed := destroyed s; crashed := crashed s |}.
Definition set_portRemote (v : JS.value) (s : Vars) : Vars :=
  {| remoteSocket := remoteSocket s; addressRemote := addressRemote s;
     portRemote := v; isFirstMessage := isFirstMessage s;
     isHeaderProcessed := isHeaderProcessed s; onConnect := onConnect s;
     onError := onError s; onTimeout := onTimeout s; piping := piping s;
     ws_readyState := ws_readyState s; connected := connected s;
     destroyed := destroyed s; crashed := crashed s |}.
Definition set_isFirstMessage (v : bool) (s : Vars) : Vars :=
  {| remoteSocket := remoteSocket s; addressRemote := addressRemote s;
     portRemote := portRemote s; isFirstMessage := v;
     isHeaderProcessed := isHeaderProcessed s; onConnect := onConnect s;
     onError := onError s; onTimeout := onTimeout s; piping := piping s;
     ws_readyState := ws_readyState s; connected := connected s;
     destroyed := destroyed s; crashed := crashed s |}.
Definition set_isHeaderProcessed (v : bool) (s : Vars) : Vars :=
  {| remoteSocket := remoteSocket s; addressRemote := addressRemote s;
     portRemote := portRemote s; isFirstMessage := isFirstMessage s;
     isHeaderProcessed := v; onConnect := onConnect s; onError := onError s;
     onTimeout := onTimeout s; piping := piping s;
     ws_readyState := ws_readyState s; connected := connected s;
     destroyed := destroyed s; crashed := crashed s |}.
Definition set_onConnect (v : option (Uint8Array * JS.value)) (s : Vars) : Vars :=
  {| remoteSocket := remoteSocket s; addressRemote := addressRemote s;
     portRemote := portRemote s; isFirstMessage := isFirstMessage s;
     isHeaderProcessed := isHeaderProcessed s; onConnect := v;
     onError := onError s; onTimeout := onTimeout s; piping := piping s;
     ws_readyState := ws_readyState s; connected := connected s;
     destroyed := destroyed s; crashed := crashed s |}.
Definition set_onError (v : bool) (s : Vars) : Vars :=
  {| remoteSocket := remoteSocket s; addressRemote := addressRemote s;
     portRemote := portRemote s; isFirstMessage := isFirstMessage s;
     isHeaderProcessed := isHeaderProcessed s; onConnect := onConnect s;
     onError := v; onTimeout := onTimeout s; piping := piping s;
     ws_readyState := ws_readyState s; connected := connected s;
     destroyed := destroyed s; crashed := crashed s |}.
Definition set_onTimeout (v : bool) (s : Vars) : Vars :=
  {| remoteSocket := remoteSocket s; addressRemote := addressRemote s;
     portRemote := portRemote s; isFirstMessage := isFirstMessage s;
     isHeaderProcessed := isHeaderProcessed s; onConnect := onConnect s;
     onError := onError s; onTimeout := v; piping := piping s;
     ws_readyState := ws_readyState s; connected := connected s;
     destroyed := destroyed s; crashed := crashed s |}.
Definition set_piping (v : bool) (s : Vars) : Vars :=
  {| remoteSocket := remoteSocket s; addressRemote := addressRemote s;
     portRemote := portRemote s; isFirstMessage := isFirstMessage s;
     isHeaderProcessed := isHeaderProcessed s; onConnect := onConnect s;
     onError := onError s; onTimeout := onTimeout s; piping := v;
     ws_readyState := ws_readyState s; connected := connected s;
     destroyed := destroyed s; crashed := crashed s |}.
Definition set_ws_readyState (v : Z) (s : Vars) : Vars :=
  {| remoteSocket := remoteSocket s; addressRemote := addressRemote s;
     portRemote := portRemote s; isFirstMessage := isFirstMessage s;
     isHeaderProcessed := isHeaderProcessed s; onConnect := onConnect s;
     onError := onError s; onTimeout := onTimeout s; piping := piping s;
     ws_readyState := v; connected := connected s; destroyed := destroyed s;
     crashed := crashed s |}.
Definition set_connected (v : bool) (s : Vars) : Vars :=
  {| remoteSocket := remoteSocket s; addressRemote := addressRemote s;
     portRemote := portRemote s; isFirstMessage := isFirstMessage s;
     isHeaderProcessed := isHeaderProcessed s; onConnect := onConnect s;
     onError := onError s; onTimeout := onTimeout s; piping := piping s;
     ws_readyState := ws_readyState s; connected := v;
     destroyed := destroyed s; crashed := crashed s |}.
Definition set_destroyed (v : bool) (s : Vars) : Vars :=
  {| remoteSocket := remoteSocket s; addressRemote := addressRemote s;
     portRemote := portRemote s; isFirstMessage := isFirstMessage s;
     isHeaderProcessed := isHeaderProcessed s; onConnect := onConnect s;
     onError := onError s; onTimeout := onTimeout s; piping := piping s;
     ws_readyState := ws_readyState s; connected := connected s;
     destroyed := v; crashed := crashed s |}.
Definition set_crashed (v : bool) (s : Vars) : Vars :=
  {| remoteSocket := remoteSocket s; addressRemote := addressRemote s;
     portRemote := portRemote s; isFirstMessage := isFirstMessage s;
     isHeaderProcessed := isHeaderProcessed s; onConnect := onConnect s;
     onError := onError s; onTimeout := onTimeout s; piping := piping s;
     ws_readyState := ws_readyState s; connected := connected s;
     destroyed := destroyed s; crashed := v |}.

Definition initial : Vars :=
  {| remoteSocket := false; addressRemote := ""; portRemote := Num 0;
     isFirstMessage := true; isHeaderProcessed := false;
     onConnect := None; onError := false; onTimeout := false; piping := false;
     ws_readyState := OPEN; connected := false; destroyed := false;
     crashed := false |}.

(** The objects [safeClose] is called on. *)
Inductive connection : Type :=
| Null
| TheWebSocket
| TheSocket.

(** Property values, as far as [safeClose] inspects them. *)
Inductive prop : Type :=
| PUndefined
| PNumber (z : Z)
| PString (s : string)
| PBoolean (b : bool).

(** [connection.readyState]: a number on a WebSocket, a string on a
    [net.Socket]. *)
Definition readyState (c : connection) (s : Vars) : prop :=
  match c with
  | Null => PUndefined
  | TheWebSocket => PNumber (ws_readyState s)
  | TheSocket =>
      PString (if destroyed s then "closed"
               else if connected s then "open" else "opening")
  end.

(** [connection.destroyed]: absent on a WebSocket. *)
Definition destroyed_prop (c : connection) (s : Vars) : prop :=
  match c with
  | TheSocket => PBoolean (destroyed s)
  | _ => PUndefined
  end.

Definition is_number (p : prop) (n : Z) : bool :=
  match p with PNumber z => z =? n | _ => false end.

Definition is_false (p : prop) : bool :=
  match p with PBoolean b => negb b | _ => false end.

(** [ws.close(...)] moves an open or connecting WebSocket to CLOSING. *)
Definition ws_close_effect (s : Vars) : Vars :=
  if ws_readyState s =? CLOSED then s else set_ws_readyState CLOSING s.

(** [connection.close()]. *)
Definition close (c : connection) : IO Vars unit :=
  match c with
  | TheWebSocket => platform (WsClose None "") ws_close_effect
  | _ => raise "connection.close is not a function"
  end.

(** [connection.destroy()]. *)
Definition destroy (c : connection) : IO Vars unit :=
  match c with
  | TheSocket => platform SocketDestroy (set_destroyed true)
  | _ => raise "connection.destroy is not a function"
  end.

Definition safeClose (c : connection) : IO Vars unit :=
  try_catch
    (match c with
     | Null => io_ret tt
     | _ =>
         s <- get ;;
         if is_number (readyState c s) 1 || is_number (readyState c s) 0
         then close c
         else if is_false (destroyed_prop c s) then destroy c
         else io_ret tt
     end)%io
    (fun _ => io_ret tt).

(** The value of the variable [remoteSocket] as a connection. *)
Definition remote (s : Vars) : connection :=
  if remoteSocket s then TheSocket else Null.

(** The prefix [[${addressRemote}:${portRemote}]] of the log lines. *)
Definition tag (s : Vars) : string :=
  ("[" ++ addressRemote s ++ ":" ++ JS.ToString (portRemote s) ++ "]")%string.

Definition sp (a b : string) : string := (a ++ " " ++ b)%string.

(** The listeners installed by [pipeRemoteToWebSocket]. *)
Definition onData (chunk : Uint8Array) : IO Vars unit :=
  try_catch
    (s <- get ;;
     io_when (ws_readyState s =? OPEN) (platform (WsSend chunk) id))%io
    (fun e =>
       s <- get ;;
       console ERROR (sp (tag s ++ " Error sending to WebSocket:") e) ;;
       safeClose TheSocket)%io.

Definition onEnd : IO Vars unit :=
  (s <- get ;;
   console LOG (tag s ++ " Remote connection ended") ;;
   safeClose TheWebSocket)%io.

Definition onPipeError (e : string) : IO Vars unit :=
  (s <- get ;;
   console ERROR (sp (tag s ++ " Remote socket error:") e) ;;
   safeClose TheWebSocket)%io.

Definition pipeRemoteToWebSocket : IO Vars unit :=
  modify (set_piping true).

Section Session.

Variable TextDecoder_decode : Uint8Array -> string.
Variable config : Config.

(** [config.TIMEOUT || 300000]. *)
Definition timeout_ms : JS.value :=
  match TIMEOUT config with
  | Num z => if z =? 0 then Num 300000 else Num z
  | _ => Num 300000
  end.

Definition handleWebSocketUpgrade : IO Vars unit :=
  io_when (LOG_CONNECTIONS config)
          (console LOG "[WebSocket] New connection established").

(** The callback passed to [net.connect]; it refers to the [buffer] and the
    [payloadStartIndex] of the message handler that created it. *)
Definition connectCallback (buffer : Uint8Array) (payloadStartIndex : JS.value)
  : IO Vars unit :=
  (modify (set_isHeaderProcessed true) ;;
   s <- get ;;
   io_when (LOG_CONNECTIONS config)
     (console LOG (tag s ++ " ✓ Connected to remote server")) ;;
   io_when (JS.lt payloadStartIndex (JS.length buffer))
     (let initialPayload := JS.slice buffer payloadStartIndex Undefined in
      platform (SocketWrite initialPayload) id ;;
      io_when (LOG_CONNECTIONS config)
        (console LOG (tag s ++ " Forwarded "
                      ++ JS.ToString (JS.length initialPayload)
                      ++ " bytes initial payload"))) ;;
   pipeRemoteToWebSocket)%io.

(** The ['error'] listener the message handler puts on the socket. *)
Definition onSocketError (e : string) : IO Vars unit :=
  (s <- get ;;
   console ERROR (sp (tag s ++ " Connection error:") e) ;;
   platform (WsClose (Some 1011) "Remote connection failed") ws_close_effect ;;
   safeClose (remote s))%io.

(** The callback passed to [setTimeout]. *)
Definition onSocketTimeout : IO Vars unit :=
  (s <- get ;;
   console LOG (tag s ++ " Connection timeout") ;;
   safeClose (remote s) ;;
   safeClose TheWebSocket)%io.

Definition firstMessage (buffer : Uint8Array) : IO Vars unit :=
  (modify (set_isFirstMessage false) ;;
   match snd (call (Node.processVlessHeader TextDecoder_decode buffer
                      (UUID config))) with
   | Threw e => raise e
   | Returned (Node.Failure message) =>
       console ERROR ("[VLESS] Header parsing failed: " ++ message) ;;
       platform (WsClose (Some 1008) message) ws_close_effect
   | Returned (Node.Success vlessInfo) =>
       modify (set_addressRemote (Node.addressRemote vlessInfo)) ;;
       modify (set_portRemote (Node.portRemote vlessInfo)) ;;
       let payloadStartIndex := Node.rawDataIndex vlessInfo in
       s <- get ;;
       io_when (LOG_CONNECTIONS config)
         (console LOG (tag s ++ " VLESS header parsed successfully") ;;
          console LOG (tag s ++ " Connecting to target...")) ;;
       platform (NetConnect (addressRemote s) (portRemote s))
         (fun s => set_onConnect (Some (buffer, payloadStartIndex))
                     (set_remoteSocket true s)) ;;
       modify (set_onError true) ;;
       platform (SocketSetTimeout timeout_ms) (set_onTimeout true)
   end)%io.

Definition laterMessage (buffer : Uint8Array) : IO Vars unit :=
  (s <- get ;;
   if remoteSocket s && isHeaderProcessed s && negb (destroyed s)
   then platform (SocketWrite buffer) id
   else io_when (negb (isHeaderProcessed s))
          (console WARN (tag s ++ " Received data before connection ready")))%io.

(** [ws.on('message', async (data) => { try { ... } catch (error) { ... } })]. *)
Definition onMessage (buffer : Uint8Array) : IO Vars unit :=
  try_catch
    (s <- get ;;
     if isFirstMessage s then firstMessage buffer else laterMessage buffer)%io
    (fun e =>
       console ERROR (sp "[WebSocket] Message handling error:" e) ;;
       s <- get ;;
       safeClose (remote s) ;;
       platform (WsClose (Some 1011) "Internal server error") ws_close_effect)%io.

Definition onClose (code : Z) (reason : string) : IO Vars unit :=
  (s <- get ;;
   io_when (LOG_CONNECTIONS config)
     (let reasonText := if (reason =? "")%string then "No reason" else reason in
      let a := if (addressRemote s =? "")%string then "unknown"
               else addressRemote s in
      let p := match portRemote s with
               | Num z => if z =? 0 then Num 0 else Num z
               | _ => Num 0
               end in
      console LOG ("[" ++ a ++ ":" ++ JS.ToString p ++ "] WebSocket closed (code: "
                   ++ JS.ToString (Num code) ++ ", reason: " ++ reasonText ++ ")")) ;;
   safeClose (remote s))%io.

Definition onError_ws (e : string) : IO Vars unit :=
  (s <- get ;;
   console ERROR
     (sp ("[" ++ (if (addressRemote s =? "")%string then "unknown"
                  else addressRemote s)
          ++ ":" ++ JS.ToString (match portRemote s with
                                 | Num z => if z =? 0 then Num 0 else Num z
                                 | _ => Num 0
                                 end)
          ++ "] WebSocket error:") e) ;;
   safeClose (remote s) ;;
   safeClose TheWebSocket)%io.

Definition onUnexpectedResponse (statusCode : Z) : IO Vars unit :=
  console ERROR ("[WebSocket] Unexpected response: "
                 ++ JS.ToString (Num statusCode)).

(** What the environment can deliver to the session. *)
Inductive event : Type :=
| WsMessage (data : Uint8Array)
| WsClosed (code : Z) (reason : string)
| WsError (e : string)
| WsUnexpectedResponse (statusCode : Z)
| SockConnect
| SockData (chunk : Uint8Array)
| SockEnd
| SockError (e : string)
| SockTimeout.

(** An exception that escapes a listener reaches the process-level
    handlers of [server.js]: an escaped rejection of the async message
    handler is logged, an exception of a synchronous listener ends the
    process. *)
Definition async_listener (m : IO Vars unit) : IO Vars unit :=
  try_catch m
    (fun e => console ERROR (sp "[Process] Unhandled Rejection" e)).

Definition sync_listener (m : IO Vars unit) : IO Vars unit :=
  try_catch m
    (fun e => console ERROR (sp "[Process] Uncaught Exception:" e) ;;
              modify (set_crashed true))%io.

(** Delivery of one event: the platform updates its objects and runs the
    listeners registered for the event.  A socket emits events only once it
    exists and until it is destroyed. *)
Definition dispatch (ev : event) : IO Vars unit :=
  (s <- get ;;
   if crashed s then io_ret tt else
   let live := remoteSocket s && negb (destroyed s) in
   match ev with
   | WsMessage data => async_listener (onMessage data)
   | WsClosed code reason =>
       modify (set_ws_readyState CLOSED) ;; sync_listener (onClose code reason)
   | WsError e => sync_listener (onError_ws e)
   | WsUnexpectedResponse c => sync_listener (onUnexpectedResponse c)
   | SockConnect =>
       match onConnect s with
       | Some (buffer, payloadStartIndex) =>
           io_when live
             (modify (set_connected true) ;;
              modify (set_onConnect None) ;;
              sync_listener (connectCallback buffer payloadStartIndex))
       | None => io_ret tt
       end
   | SockData chunk =>
       io_when (live && connected s && piping s) (sync_listener (onData chunk))
   | SockEnd =>
       io_when (live && connected s && piping s) (sync_listener onEnd)
   | SockError e =>
       io_when (live && onError s)
         (modify (set_destroyed true) ;;
          sync_listener (onSocketError e ;;
                         io_when (piping s) (onPipeError e)))
   | SockTimeout =>
       io_when (live && onTimeout s)
         (modify (set_onTimeout false) ;; sync_listener onSocketTimeout)
   end)%io.

Fixpoint deliver (evs : list event) (w : World Vars) : World Vars :=
  match evs with
  | [] => w
  | ev :: evs' => deliver evs' (snd (dispatch ev w))
  end.

(** A session: the upgrade handler runs, then events arrive. *)
Definition start (oracle : nat -> option string) : World Vars :=
  snd (handleWebSocketUpgrade
         {| st := initial; trace := []; calls := 0; faults := oracle |}).

Definition run (oracle : nat -> option string) (evs : list event)
  : World Vars :=
  deliver evs (start oracle).

End Session.

End NodeSession.

(* ================================================================== *)
(** ** The Worker relay session: [websocket-handler.js]                *)
(* ================================================================== *)

Module WorkerSession.

Record Vars : Type := {
  (* closure variables of [handleVlessWebSocket]; [false] is [null] *)
  remoteSocket : bool;
  addressRemote : string;
  portRemote : JS.value;
  (* suspended async code: a message handler waiting for its
     [writer.write], the pipe loop waiting for [reader.read] *)
  awaiting : bool;
  piping : bool;
  (* state of the platform objects *)
  ws_readyState : Z;
  locked : bool
}.

Definition set_remoteSocket (v : bool) (s : Vars) : Vars :=
  {| remoteSocket := v; addressRemote := addressRemote s;
     portRemote := portRemote s; awaiting := awaiting s; piping := piping s;
     ws_readyState := ws_readyState s; locked := locked s |}.
Definition set_addressRemote (v : string) (s : Vars) : Vars :=
  {| remoteSocket := remoteSocket s; addressRemote := v;
     portRemote := portRemote s; awaiting := awaiting s; piping := piping s;
     ws_readyState := ws_readyState s; locked := locked s |}.
Definition set_portRemote (v : JS.value) (s : Vars) : Vars :=
  {| remoteSocket := remoteSocket s; addressRemote := addressRemote s;
     portRemote := v; awaiting := awaiting s; piping := piping s;
     ws_readyState := ws_readyState s; locked := locked s |}.
Definition set_awaiting (v : bool) (s : Vars) : Vars :=
  {| remoteSocket := remoteSocket s; addressRemote := addressRemote s;
     portRemote := portRemote s; awaiting := v; piping := piping s;
     ws_readyState := ws_readyState s; locked := locked s |}.
Definition set_piping (v : bool) (s : Vars) : Vars :=
  {| remoteSocket := remoteSocket s; addressRemote := addressRemote s;
     portRemote := portRemote s; awaiting := awaiting s; piping := v;
     ws_readyState := ws_readyState s; locked := locked s |}.
Definition set_ws_readyState (v : Z) (s : Vars) : Vars :=
  {| remoteSocket := remoteSocket s; addressRemote := addressRemote s;
     portRemote := portRemote s; awaiting := awaiting s; piping := piping s;
     ws_readyState := v; locked := locked s |}.
Definition set_locked (v : bool) (s : Vars) : Vars :=
  {| remoteSocket := remoteSocket s; addressRemote := addressRemote s;
     portRemote := portRemote s; awaiting := awaiting s; piping := piping s;
     ws_readyState := ws_readyState s; locked := v |}.

Definition initial : Vars :=
  {| remoteSocket := false; addressRemote := ""; portRemote := Num 0;
     awaiting := false; piping := false;
     ws_readyState := OPEN; locked := false |}.

(** [WebSocket.READY_STATE_OPEN] and [WebSocket.READY_STATE_CONNECTING]. *)
Definition READY_STATE_CONNECTING : Z := CONNECTING.
Definition READY_STATE_OPEN : Z := OPEN.

(** The argument of [safeCloseWebSocket]. *)
Inductive websocket : Type :=
| NullSocket
| Server.

(** [ws.readyState]; reading a property of [null] raises a [TypeError]. *)
Definition readyState (ws : websocket) : IO Vars Z :=
  match ws with
  | NullSocket => raise "Cannot read properties of null (reading 'readyState')"
  | Server => (s <- get ;; io_ret (ws_readyState s))%io
  end.

Definition ws_close_effect (s : Vars) : Vars :=
  if ws_readyState s =? CLOSED then s else set_ws_readyState CLOSING s.

Definition safeCloseWebSocket (ws : websocket) : IO Vars unit :=
  try_catch
    (r <- readyState ws ;;
     io_when ((r =? READY_STATE_OPEN) || (r =? READY_STATE_CONNECTING))
       (platform (WsClose None "") ws_close_effect))%io
    (fun e => console LOG ("Error closing WebSocket: " ++ e)).

(** [log(msg, data)]. *)
Definition log (msg data : string) : IO Vars unit :=
  (s <- get ;;
   console LOG ("[" ++ addressRemote s ++ ":" ++ JS.ToString (portRemote s)
                ++ "] " ++ msg ++ " " ++ data))%io.

(** What [reader.read()] resolves or rejects with. *)
Inductive read_result : Type :=
| Chunk (value : Uint8Array)
| Done
| ReadFailed (e : string).

(** [pipeRemoteToWebSocket] up to its first [await]: [try] is entered, the
    reader is taken, the loop suspends at [reader.read()]. *)
Definition pipe_leave : IO Vars unit :=
  (modify (set_piping false) ;; safeCloseWebSocket Server)%io.

Definition pipeRemoteToWebSocket : IO Vars unit :=
  try_catch
    (platform GetReader id ;; modify (set_piping true))%io
    (fun e => log "Pipe error:" e ;; pipe_leave)%io.

(** One turn of the loop, when [reader.read()] settles. *)
Definition pipe_resume (r : read_result) : IO Vars unit :=
  match r with
  | ReadFailed e => (log "Pipe error:" e ;; pipe_leave)%io
  | Done => (log "Remote connection closed" "" ;; pipe_leave)%io
  | Chunk value =>
      try_catch
        (s <- get ;;
         if ws_readyState s =? READY_STATE_OPEN
         then platform (WsSend value) id
         else log "WebSocket not open, stopping pipe" "" ;; pipe_leave)%io
        (fun e => log "Pipe error:" e ;; pipe_leave)%io
  end.

(** [writable.getWriter()] raises on a stream that is already locked. *)
Definition getWriter : IO Vars unit :=
  (s <- get ;;
   if locked s then raise "This WritableStream is currently locked to a writer."
   else platform GetWriter (set_locked true))%io.

(** [await writer.write(data)]: the write is issued and the handler
    suspends until it settles. *)
Definition write_and_await (data : Uint8Array) : IO Vars unit :=
  platform (SocketWrite data) (set_awaiting true).

(** [if (remoteSocket) { try { remoteSocket.close(); } catch {} }]. *)
Definition closeRemote : IO Vars unit :=
  (s <- get ;;
   io_when (remoteSocket s)
     (try_catch (platform SocketClose id) (fun _ => io_ret tt)))%io.

(** The [catch] block of the message handler. *)
Definition onMessageError (e : string) : IO Vars unit :=
  (log "Message error:" e ;;
   safeCloseWebSocket Server ;;
   closeRemote)%io.

(** [connect({ hostname, port })].  The module imports [processVlessHeader]
    and [CONFIG] and declares nothing named [connect]: the identifier is
    unbound, and evaluating the call raises a [ReferenceError] before any
    call is made. *)
Definition connect (hostname : string) (port : JS.value) : IO Vars unit :=
  raise "connect is not defined".

Section Session.

Variable TextDecoder_decode : Uint8Array -> string.

(** [CONFIG.UUID]. *)
Variable UUID : string.

Definition handleVlessWebSocket : IO Vars unit :=
  platform WsAccept id.

(** The message handler up to the point where it returns or suspends. *)
Definition onMessage (vlessBuffer : Uint8Array) : IO Vars unit :=
  try_catch
    (s <- get ;;
     if negb (remoteSocket s) then
       match snd (call (Worker.processVlessHeader TextDecoder_decode
                          vlessBuffer UUID)) with
       | Threw e => raise e
       | Returned (Worker.Failure message) =>
           log "Header parse error:" message ;;
           platform (WsClose (Some 1002) "Protocol error") ws_close_effect
       | Returned (Worker.Success result) =>
           modify (set_addressRemote (Worker.addressRemote result)) ;;
           modify (set_portRemote (Worker.portRemote result)) ;;
           s <- get ;;
           log ("Connecting to " ++ addressRemote s ++ ":"
                ++ JS.ToString (portRemote s)) "" ;;
           connect (addressRemote s) (portRemote s) ;;
           modify (set_remoteSocket true) ;;
           pipeRemoteToWebSocket ;;
           let payload :=
             JS.slice vlessBuffer (Worker.rawDataIndex result) Undefined in
           io_when (JS.lt (Num 0) (JS.length payload))
             (getWriter ;; write_and_await payload)
       end
     else getWriter ;; write_and_await vlessBuffer)%io
    onMessageError.

(** The rest of the message handler, when its [writer.write] settles. *)
Definition onWriteSettled (failure : option string) : IO Vars unit :=
  (modify (set_awaiting false) ;;
   try_catch
     (match failure with
      | Some e => raise e
      | None => platform ReleaseLock (set_locked false)
      end)
     onMessageError)%io.

Definition onClose : IO Vars unit :=
  (log "WebSocket closed by client" "" ;; closeRemote)%io.

Definition onError (e : string) : IO Vars unit :=
  log "WebSocket error:" e.

Inductive event : Type :=
| WsMessage (data : Uint8Array)
| WsClosed
| WsError (e : string)
| WriteSettled (failure : option string)
| RemoteRead (r : read_result).

(** An exception that escapes a listener is reported by the runtime. *)
Definition listener (m : IO Vars unit) : IO Vars unit :=
  try_catch m (fun e => console ERROR ("Uncaught " ++ e)).

(** Delivery of one event.  The runtime hands every [message] event to the
    listener, also after the handler has called [close] on the socket; it
    resumes suspended code only if some code is suspended. *)
Definition dispatch (ev : event) : IO Vars unit :=
  (s <- get ;;
   match ev with
   | WsMessage data => listener (onMessage data)
   | WsClosed =>
       modify (set_ws_readyState CLOSED) ;; listener onClose
   | WsError e => listener (onError e)
   | WriteSettled failure =>
       io_when (awaiting s) (listener (onWriteSettled failure))
   | RemoteRead r =>
       io_when (piping s) (listener (pipe_resume r))
   end)%io.

Fixpoint deliver (evs : list event) (w : World Vars) : World Vars :=
  match evs with
  | [] => w
  | ev :: evs' => deliver evs' (snd (dispatch ev w))
  end.

Definition start (oracle : nat -> option string) : World Vars :=
  snd (handleVlessWebSocket
         {| st := initial; trace := []; calls := 0; faults := oracle |}).

Definition run (oracle : nat -> option string) (evs : list event)
  : World Vars :=
  deliver evs (start oracle).

End Session.

End WorkerSession.

(* ================================================================== *)
(** ** The outbound side of a Node.js session, abstractly              *)
(* ================================================================== *)

(** The calls that concern the outbound connection. *)
Definition outbound (a : action) : bool :=
  match a with
  | NetConnect _ _ | SocketWrite _ | SocketSetTimeout _ => true
  | _ => false
  end.

(** What decides them: the two flags of the session, the pending connect
    callback, and the outbound calls made so far. *)
Record Key : Type := {
  k_first : bool;
  k_ready : bool;
  k_pending : option (Uint8Array * JS.value);
  k_io : list action
}.

Definition key (w : World NodeSession.Vars) : Key :=
  {| k_first := NodeSession.isFirstMessage (st w);
     k_ready := NodeSession.isHeaderProcessed (st w);
     k_pending := NodeSession.onConnect (st w);
     k_io := filter outbound (trace w) |}.

(** The initial payload the connect callback forwards. *)
Definition is_message (ev : NodeSession.event) : bool :=
  match ev with NodeSession.WsMessage _ => true | _ => false end.

(** The messages among a list of events, in order. *)
Fixpoint messages (evs : list NodeSession.event) : list Uint8Array :=
  match evs with
  | [] => []
  | NodeSession.WsMessage d :: evs' => d :: messages evs'
  | _ :: evs' => messages evs'
  end.

(** [subseq l1 l2]: [l1] is [l2] with some elements left out. *)
Inductive subseq {A : Type} : list A -> list A -> Prop :=
| subseq_nil : subseq [] []
| subseq_skip x l1 l2 : subseq l1 l2 -> subseq l1 (x :: l2)
| subseq_take x l1 l2 : subseq l1 l2 -> subseq (x :: l1) (x :: l2).

Definition initial_payload (buffer : Uint8Array) (payloadStartIndex : JS.value)
  : list action :=
  if JS.lt payloadStartIndex (JS.length buffer)
  then [SocketWrite (JS.slice buffer payloadStartIndex Undefined)]
  else [].

Section Abstract.

Variable TextDecoder_decode : Uint8Array -> string.
Variable config : NodeSession.Config.

Definition decode_result (data : Uint8Array) : outcome Node.ParseResult :=
  snd (call (Node.processVlessHeader TextDecoder_decode data
               (NodeSession.UUID config))).

(** While the process is alive, one event changes the key in one of these
    ways only; a message leaves it unchanged only after the first one. *)
Inductive astep : NodeSession.event -> Key -> Key -> Prop :=
| a_quiet ev k :
    (forall data, ev = NodeSession.WsMessage data -> k_first k = false) ->
    astep ev k k
| a_rejected data k :
    k_first k = true ->
    (forall h, decode_result data <> Returned (Node.Success h)) ->
    astep (NodeSession.WsMessage data) k
      {| k_first := false; k_ready := k_ready k;
         k_pending := k_pending k; k_io := k_io k |}
| a_connect_failed data k h :
    k_first k = true ->
    decode_result data = Returned (Node.Success h) ->
    astep (NodeSession.WsMessage data) k
      {| k_first := false; k_ready := k_ready k;
         k_pending := k_pending k;
         k_io := k_io k ++ [NetConnect (Node.addressRemote h)
                                       (Node.portRemote h)] |}
| a_connecting data k h :
    k_first k = true ->
    decode_result data = Returned (Node.Success h) ->
    astep (NodeSession.WsMessage data) k
      {| k_first := false; k_ready := k_ready k;
         k_pending := Some (data, Node.rawDataIndex h);
         k_io := k_io k ++ [NetConnect (Node.addressRemote h)
                                       (Node.portRemote h);
                            SocketSetTimeout
                              (NodeSession.timeout_ms config)] |}
| a_forward data k :
    k_first k = false ->
    k_ready k = true ->
    astep (NodeSession.WsMessage data) k
      {| k_first := false; k_ready := true;
         k_pending := k_pending k;
         k_io := k_io k ++ [SocketWrite data] |}
| a_connected k buffer payloadStartIndex :
    k_pending k = Some (buffer, payloadStartIndex) ->
    astep NodeSession.SockConnect k
      {| k_first := k_first k; k_ready := true;
         k_pending := None;
         k_io := k_io k ++ initial_payload buffer payloadStartIndex |}.

End Abstract.

(** An action that leaves the key alone. *)
Definition quiet {A} (m : IO NodeSession.Vars A) : Prop :=
  forall w, key (snd (m w)) = key w.

(** A state update that leaves the flags and the pending callback alone. *)
Definition frame (f : NodeSession.Vars -> NodeSession.Vars) : Prop :=
  forall s,
    NodeSession.isFirstMessage (f s) = NodeSession.isFirstMessage s /\
    NodeSession.isHeaderProcessed (f s) = NodeSession.isHeaderProcessed s /\
    NodeSession.onConnect (f s) = NodeSession.onConnect s.

(* ================================================================== *)
(** ** Specification vocabulary for the results                        *)
(* ================================================================== *)

(** What the Node.js decoder guarantees about a result. *)
Definition Node_post (buffer : Uint8Array) (expectedUUID : string)
    (r : Node.ParseResult) : Prop :=
  match r with
  | Node.Failure _ => True
  | Node.Success h =>
      exists optLen atype width,
        byte_at buffer 0 = Some 0 /\
        Node.dashed_hex (JS.slice buffer (Num 1) (Num 17)) = expectedUUID /\
        byte_at buffer 17 = Some optLen /\
        byte_at buffer (18 + optLen) = Some 1 /\
        byte_at buffer (21 + optLen) = Some atype /\
        Node.addressType h = Num atype /\
        addressFieldWidth buffer optLen atype = Some width /\
        Node.rawDataIndex h = Num (22 + optLen + width) /\
        22 + optLen + width <= Z.of_nat (List.length buffer)
  end.

(** In this variant only the first eighteen bytes are known to exist; the
    payload offset is a number exactly when the address field width is
    defined, and [NaN] otherwise. *)
Definition Worker_post (buffer : Uint8Array) (userID : string)
    (r : Worker.ParseResult) : Prop :=
  match r with
  | Worker.Failure _ => True
  | Worker.Success h =>
      24 <= Z.of_nat (List.length buffer) /\
      byte_at buffer 0 = Some 0 /\
      Worker.bytesToUUID (JS.slice buffer (Num 1) (Num 17)) = userID /\
      exists optLen atype,
        byte_at buffer 17 = Some optLen /\
        byte_at buffer (18 + optLen) = Some 1 /\
        byte_at buffer (21 + optLen) = Some atype /\
        Worker.rawDataIndex h =
          match addressFieldWidth buffer optLen atype with
          | Some w => Num (22 + optLen + w)
          | None => NaN
          end
  end.

(** A connection on which [safeClose] has nothing left to do. *)
Definition Node_closed (c : NodeSession.connection) (s : NodeSession.Vars)
  : Prop :=
  match c with
  | NodeSession.Null => True
  | NodeSession.TheWebSocket =>
      NodeSession.ws_readyState s <> OPEN /\
      NodeSession.ws_readyState s <> CONNECTING
  | NodeSession.TheSocket => NodeSession.destroyed s = true
  end.

Definition Worker_closed (ws : WorkerSession.websocket)
    (s : WorkerSession.Vars) : Prop :=
  match ws with
  | WorkerSession.NullSocket => True
  | WorkerSession.Server =>
      WorkerSession.ws_readyState s <> OPEN /\
      WorkerSession.ws_readyState s <> CONNECTING
  end.

(** The calls on an outbound socket and its streams, and the data sent to
    the client. *)
Definition relays (a : action) : bool :=
  match a with
  | NetConnect _ _ | SocketWrite _ | SocketClose | GetWriter | GetReader
  | ReleaseLock | WsSend _ => true
  | _ => false
  end.

(** A Worker session without an outbound socket: none is held, no code is
    suspended on one, and no call has been made on one. *)
Definition Worker_idle (w : World WorkerSession.Vars) : Prop :=
  WorkerSession.remoteSocket (st w) = false /\
  WorkerSession.awaiting (st w) = false /\
  WorkerSession.piping (st w) = false /\
  filter relays (trace w) = [].

Section RunInvariants.

Variable decode : Uint8Array -> string.
Variable config : NodeSession.Config.

(** The first message of the run, if any, is rejected by the decoder. *)
Definition first_rejected (evs : list NodeSession.event) : Prop :=
  match messages evs with
  | [] => True
  | d :: _ => forall h, decode_result decode config d <> Returned (Node.Success h)
  end.

Definition Inv_rejected (seen : list NodeSession.event)
    (w : World NodeSession.Vars) : Prop :=
  first_rejected seen ->
  k_pending (key w) = None /\
  filter is_connect (k_io (key w)) = [] /\
  (messages seen <> [] ->
   NodeSession.crashed (st w) = true \/ k_first (key w) = false).

(** The invariant behind the ordering of writes: nothing is written until
    the connect callback has run; it writes the initial payload of the first
    message; after it, only later messages are written. *)
Definition Inv_order (seen : list NodeSession.event)
    (w : World NodeSession.Vars) : Prop :=
  match messages seen with
  | [] =>
      k_pending (key w) = None /\ k_ready (key w) = false /\
      socket_writes (k_io (key w)) = []
  | d :: later =>
      forall h, decode_result decode config d = Returned (Node.Success h) ->
        (NodeSession.crashed (st w) = true \/ k_first (key w) = false) /\
        (k_pending (key w) = None \/
         k_pending (key w) = Some (d, Node.rawDataIndex h)) /\
        (if k_ready (key w)
         then k_pending (key w) = None /\
              exists rest,
                socket_writes (k_io (key w))
                = socket_writes (initial_payload d (Node.rawDataIndex h)) ++ rest
                /\ subseq rest later
         else socket_writes (k_io (key w)) = [])
  end.

End RunInvariants.

(** A platform on which no call raises. *)
Definition no_faults : nat -> option string := fun _ => None.

Definition sample_config : NodeSession.Config :=
  {| NodeSession.UUID := Config.UUID_alt;
     NodeSession.LOG_CONNECTIONS := true;
     NodeSession.TIMEOUT := Num Config.TIMEOUT |}.

(* ================================================================== *)
(** ** The request header as a table of fields                         *)
(* ================================================================== *)

(** The layout documented at the head of [vless-parser.js], written without
    a cursor: once the options length [o] (byte 17) is known every field
    sits at a fixed offset.

      0          version
      1 .. 16    token
      17         options length [o]
      18 + o     command
      19 + o     port, high byte
      20 + o     port, low byte
      21 + o     address type
      22 + o ..  address *)

Definition value_of (b : byte) : Z := Z.of_N (Byte.to_N b).

(** The [n] bytes of the buffer that start at index [i]. *)
Definition field (buf : Uint8Array) (i n : Z) : Uint8Array :=
  JS.slice buf (Num i) (Num (i + n)).

(** Four bytes as a dotted quad. *)
Definition dotted_decimal (bytes : list byte) : string :=
  String.concat "." (map (fun b => JS.Number_toString 10 (value_of b)) bytes).

(** Consecutive byte pairs as big-endian 16-bit words. *)
Fixpoint words16 (bytes : list byte) : list Z :=
  match bytes with
  | hi :: lo :: rest => 256 * value_of hi + value_of lo :: words16 rest
  | _ => []
  end.

(** Sixteen bytes as eight colon-separated hexadecimal groups, without
    zero padding or compression. *)
Definition colon_hex (bytes : list byte) : string :=
  String.concat ":" (map (JS.Number_toString 16) (words16 bytes)).

Section WireFormat.

Variable TextDecoder_decode : Uint8Array -> string.

(** The text of the address field of type [addressType]. *)
Definition address_text (buf : Uint8Array) (o addressType : Z) : string :=
  if addressType =? 1 then dotted_decimal (field buf (22 + o) 4)
  else if addressType =? 2 then
    match byte_at buf (22 + o) with
    | Some domainLength => TextDecoder_decode (field buf (23 + o) domainLength)
    | None => ""
    end
  else colon_hex (field buf (22 + o) 16).

(** The header a well-formed buffer denotes: all fields are present, the
    buffer has at least 23 bytes, the version is 0, the token is the expected
    one, the command is 1 (TCP), the address type is 1, 2 or 3 and the
    address field fits in the buffer. *)
Definition wire_header (buf : Uint8Array) (expected : string)
  : option Node.Header :=
  let len := Z.of_nat (List.length buf) in
  match byte_at buf 0, byte_at buf 17 with
  | Some version, Some o =>
      match byte_at buf (18 + o), byte_at buf (19 + o),
            byte_at buf (20 + o), byte_at buf (21 + o) with
      | Some cmd, Some hi, Some lo, Some addressType =>
          match addressFieldWidth buf o addressType with
          | Some width =>
              if (23 <=? len) && (version =? 0)
                 && String.eqb (Node.dashed_hex (field buf 1 16)) expected
                 && (cmd =? 1) && (22 + o + width <=? len)
              then Some {|
                Node.addressRemote := address_text buf o addressType;
                Node.portRemote := Num (256 * hi + lo);
                Node.rawDataIndex := Num (22 + o + width);
                Node.vlessVersion := Num 0;
                Node.command := Num 1;
                Node.addressType := Num addressType;
                Node.message := "VLESS header parsed successfully" |}
              else None
          | None => None
          end
      | _, _, _, _ => None
      end
  | _, _ => None
  end.

End WireFormat.

(** The fields the Worker decoder returns, out of a full header. *)
Definition Worker_view (h : Node.Header) : Worker.Header :=
  {| Worker.addressRemote := Node.addressRemote h;
     Worker.portRemote := Node.portRemote h;
     Worker.rawDataIndex := Node.rawDataIndex h;
     Worker.command := Node.command h |}.

(** A result agrees with the table: a success carries the header the buffer
    denotes, a failure means the buffer denotes none. *)
Definition wire_post (decode : Uint8Array -> string) (buffer : Uint8Array)
    (expected : string) (r : Node.ParseResult) : Prop :=
  match r with
  | Node.Failure _ => wire_header decode buffer expected = None
  | Node.Success h => wire_header decode buffer expected = Some h
  end.

(** Reading two lowercase hexadecimal digits back as a byte. *)
Definition hex_value (c : ascii) : option N :=
  let n := N_of_ascii c in
  if ((48 <=? n) && (n <=? 57))%N then Some (n - 48)%N
  else if ((97 <=? n) && (n <=? 102))%N then Some (n - 87)%N
  else None.

Definition unhex2 (s : string) : option byte :=
  match s with
  | String c1 (String c2 EmptyString) =>
      match hex_value c1, hex_value c2 with
      | Some h, Some l => Byte.of_N (16 * h + l)
      | _, _ => None
      end
  | _ => None
  end.

(* ================================================================== *)
(** ** Vocabulary for the sessions                                     *)
(* ================================================================== *)

(** [CONFIG] of [config.js], which [server.js] hands to
    [handleWebSocketUpgrade]. *)
Definition CONFIG : NodeSession.Config :=
  {| NodeSession.UUID := Config.UUID;
     NodeSession.LOG_CONNECTIONS := true;
     NodeSession.TIMEOUT := Num Config.TIMEOUT |}.

(** The data of the [ws.send] calls of a trace, in order. *)
Fixpoint sends (t : list action) : list Uint8Array :=
  match t with
  | [] => []
  | WsSend d :: t' => d :: sends t'
  | _ :: t' => sends t'
  end.

(** The chunks the outbound socket delivers, in order. *)
Fixpoint chunks (evs : list NodeSession.event) : list Uint8Array :=
  match evs with
  | [] => []
  | NodeSession.SockData c :: evs' => c :: chunks evs'
  | _ :: evs' => chunks evs'
  end.

(** An action whose effect on the world stays within the relation [R],
    whether it completes or raises. *)
Definition respects {S A : Type} (R : World S -> World S -> Prop)
    (m : IO S A) : Prop :=
  forall w, R w (snd (m w)).

(** An action that completes whatever the platform does. *)
Definition never_raises {S A : Type} (m : IO S A) : Prop :=
  forall w, exists a, fst (m w) = Ok a.

Definition same_sends {S : Type} (w w' : World S) : Prop :=
  sends (trace w') = sends (trace w).

Definition same_crashed (w w' : World NodeSession.Vars) : Prop :=
  NodeSession.crashed (st w') = NodeSession.crashed (st w).

(** Whether the platform has a listener to run for the event: a socket
    emits events once it exists and until it is destroyed, to the listeners
    installed so far. *)
Definition listening (ev : NodeSession.event) (s : NodeSession.Vars) : bool :=
  let live := NodeSession.remoteSocket s && negb (NodeSession.destroyed s) in
  match ev with
  | NodeSession.SockEnd =>
      live && NodeSession.connected s && NodeSession.piping s
  | NodeSession.SockError _ => live && NodeSession.onError s
  | NodeSession.SockTimeout => live && NodeSession.onTimeout s
  | _ => true
  end.

(** Both ends of the relay are closed or closing. *)
Definition torn_down (s : NodeSession.Vars) : Prop :=
  Node_closed (NodeSession.remote s) s /\
  Node_closed NodeSession.TheWebSocket s.


(** Once the outbound socket is destroyed it stays so, and nothing more is
    written to it. *)
Definition after_destroy (w w' : World NodeSession.Vars) : Prop :=
  NodeSession.destroyed (st w) = true ->
  NodeSession.destroyed (st w') = true /\
  socket_writes (trace w') = socket_writes (trace w).

(** An established Node.js relay: the handshake is done, the connect
    callback has run, both ends are open, and no platform call fails. *)
Definition established (w : World NodeSession.Vars) : Prop :=
  NodeSession.remoteSocket (st w) = true /\
  NodeSession.isFirstMessage (st w) = false /\
  NodeSession.isHeaderProcessed (st w) = true /\
  NodeSession.connected (st w) = true /\
  NodeSession.piping (st w) = true /\
  NodeSession.destroyed (st w) = false /\
  NodeSession.crashed (st w) = false /\
  NodeSession.ws_readyState (st w) = OPEN /\
  forall n, faults w n = None.

(** The traffic of a relay: messages of the client and chunks of the
    socket. *)
Definition is_traffic (ev : NodeSession.event) : bool :=
  match ev with
  | NodeSession.WsMessage _ | NodeSession.SockData _ => true
  | _ => false
  end.

(* ================================================================== *)
(** ** Reasoning rules for decoder code                                *)
(* ================================================================== *)

Section SatRules.

Context {R : Type} (ok : access -> Prop).

Lemma bind_ret_l {A B} (a : A) (k : A -> Eff R B) : bind (ret a) k = k a.
Proof. unfold bind, ret. destruct (k a) as [t c]. reflexivity. Qed.

Lemma sat_ret {A} (a : A) (Q : A -> Prop) (P : R -> Prop) :
  Q a -> sat ok (ret a) Q P.
Proof. intros H. split; [constructor | exact H]. Qed.

Lemma sat_return {A} (r : R) (Q : A -> Prop) (P : R -> Prop) :
  P r -> sat ok (return_ r) Q P.
Proof. intros H. split; [constructor | exact H]. Qed.

Lemma sat_bind {A B} (m : Eff R A) (k : A -> Eff R B)
      (Q' : A -> Prop) (Q : B -> Prop) (P : R -> Prop) :
  sat ok m Q' P ->
  (forall a, Q' a -> sat ok (k a) Q P) ->
  sat ok (bind m k) Q P.
Proof.
  destruct m as [t [a | r | e]]; intros [Ht Hc] Hk; cbn in *.
  - destruct (Hk a Hc) as [Ht' Hc']. destruct (k a) as [t' c]. cbn in *.
    split; [apply Forall_app; split; assumption | exact Hc'].
  - split; assumption.
  - contradiction.
Qed.

Lemma sat_weaken {A} (m : Eff R A) (Q Q' : A -> Prop) (P P' : R -> Prop) :
  sat ok m Q P ->
  (forall a, Q a -> Q' a) -> (forall r, P r -> P' r) ->
  sat ok m Q' P'.
Proof.
  destruct m as [t [a | r | e]]; intros [Ht Hc] HQ HP; split; cbn in *; auto.
Qed.

(** [if (c) return r;] and then the rest. *)
Lemma sat_guard {B} (c : bool) (r : R) (k : unit -> Eff R B)
      (Q : B -> Prop) (P : R -> Prop) :
  (c = true -> P r) ->
  (c = false -> sat ok (k tt) Q P) ->
  sat ok (bind (when c (return_ r)) k) Q P.
Proof.
  intros Hr Hk. destruct c; cbn.
  - split; [constructor | exact (Hr eq_refl)].
  - specialize (Hk eq_refl). destruct (k tt) as [t c]. exact Hk.
Qed.

(** A read whose index is known to lie inside the buffer yields a byte. *)
Lemma sat_read (buf : Uint8Array) (i : Z) {B} (k : JS.value -> Eff R B)
      (Q : B -> Prop) (P : R -> Prop) :
  ok (ReadIndex (Num i)) ->
  0 <= i < Z.of_nat (List.length buf) ->
  (forall z, byte_at buf i = Some z -> 0 <= z <= 255 ->
             sat ok (k (Num z)) Q P) ->
  sat ok (bind (read buf (Num i)) k) Q P.
Proof.
  intros Hok Hi Hk. unfold read, JS.index, byte_at in *.
  destruct (Z.ltb_spec i 0) as [? | _]; [lia |].
  destruct (nth_error buf (Z.to_nat i)) as [b |] eqn:Hb.
  - specialize (Hk _ eq_refl).
    assert (Hr : 0 <= Z.of_N (Byte.to_N b) <= 255).
    { pose proof (Byte.to_N_bounded b). lia. }
    specialize (Hk Hr). unfold JS.of_byte. cbn.
    destruct (k _) as [t c]. destruct Hk as [Ht Hc]. cbn in *.
    split; [constructor; assumption | exact Hc].
  - apply nth_error_None in Hb. lia.
Qed.

(** A read at an arbitrary index yields whatever [buf[i]] is. *)
Lemma sat_read_any (buf : Uint8Array) (i : JS.value) {B}
      (k : JS.value -> Eff R B) (Q : B -> Prop) (P : R -> Prop) :
  ok (ReadIndex i) ->
  sat ok (k (JS.index buf i)) Q P ->
  sat ok (bind (read buf i) k) Q P.
Proof.
  intros Hok Hk. unfold read. cbn.
  destruct (k _) as [t c]. destruct Hk as [Ht Hc]. cbn in *.
  split; [constructor; assumption | exact Hc].
Qed.

Lemma sat_read_slice (buf : Uint8Array) (s e : JS.value) {B}
      (k : Uint8Array -> Eff R B) (Q : B -> Prop) (P : R -> Prop) :
  ok (ReadSlice s e) ->
  sat ok (k (JS.slice buf s e)) Q P ->
  sat ok (bind (read_slice buf s e) k) Q P.
Proof.
  intros Hok Hk. unfold read_slice. cbn.
  destruct (k _) as [t c]. destruct Hk as [Ht Hc]. cbn in *.
  split; [constructor; assumption | exact Hc].
Qed.

Lemma sat_mapM {A B} (f : A -> Eff R B) (l : list A) (P : R -> Prop) :
  (forall x, In x l -> sat ok (f x) (fun _ => True) P) ->
  sat ok (mapM f l) (fun _ => True) P.
Proof.
  induction l as [| x l IH]; intros H; cbn [mapM].
  - apply sat_ret. exact I.
  - eapply sat_bind; [apply H; left; reflexivity |].
    intros y _. eapply sat_bind; [apply IH; intros; apply H; right; assumption |].
    intros ys _. apply sat_ret. exact I.
Qed.

End SatRules.

Lemma slice_length (buf : Uint8Array) (s e : Z) :
  0 <= s <= e -> e <= Z.of_nat (List.length buf) ->
  Z.of_nat (List.length (JS.slice buf (Num s) (Num e))) = e - s.
Proof.
  intros Hs He. unfold JS.slice, JS.relative.
  destruct (Z.ltb_spec s 0); [lia |]. destruct (Z.ltb_spec e 0); [lia |].
  rewrite length_firstn, length_skipn. lia.
Qed.

Lemma index_Num (buf : Uint8Array) (i : JS.value) (z : Z) :
  JS.index buf i = Num z ->
  exists j, i = Num j /\ byte_at buf j = Some z /\
            0 <= j < Z.of_nat (List.length buf).
Proof.
  unfold JS.index. destruct i as [| j |]; try discriminate.
  destruct (Z.ltb_spec j 0) as [| Hj]; [discriminate |].
  destruct (nth_error buf (Z.to_nat j)) as [b |] eqn:Hb; [| discriminate].
  intros [= <-]. exists j. split; [reflexivity |]. split.
  - unfold byte_at. destruct (Z.ltb_spec j 0); [lia |]. rewrite Hb. reflexivity.
  - assert (Z.to_nat j < List.length buf)%nat
      by (apply nth_error_Some; congruence).
    lia.
Qed.

Lemma byte_at_range (buf : Uint8Array) (i z : Z) :
  byte_at buf i = Some z ->
  0 <= z <= 255 /\ 0 <= i < Z.of_nat (List.length buf).
Proof.
  unfold byte_at. destruct (Z.ltb_spec i 0); [discriminate |].
  destruct (nth_error buf (Z.to_nat i)) as [b |] eqn:Hb; [| discriminate].
  cbn [option_map]. intros [= <-]. pose proof (Byte.to_N_bounded b).
  assert (Z.to_nat i < List.length buf)%nat
    by (apply nth_error_Some; congruence).
  lia.
Qed.

Lemma addressFieldWidth_range (buf : Uint8Array) (o a w : Z) :
  addressFieldWidth buf o a = Some w -> 1 <= w <= 256.
Proof.
  unfold addressFieldWidth.
  destruct (a =? 1); [intros [= <-]; lia |].
  destruct (a =? 2).
  { destruct (byte_at buf (22 + o)) as [d |] eqn:Hd; [| discriminate].
    unfold option_map. intros E. assert (w = 1 + d) by congruence.
    apply byte_at_range in Hd. lia. }
  destruct (a =? 3); [intros [= <-]; lia | discriminate].
Qed.

Lemma lt_false (a b : Z) : JS.lt (Num a) (Num b) = false -> b <= a.
Proof. cbn. intros H. apply Z.ltb_ge in H. exact H. Qed.

Lemma strict_neq_false (v : JS.value) (k : Z) :
  JS.strict_neq v (Num k) = false -> v = Num k.
Proof.
  unfold JS.strict_neq. destruct v as [| z |]; cbn; try discriminate.
  intros H. apply negb_false_iff, Z.eqb_eq in H. congruence.
Qed.

Lemma strict_eq_true (v : JS.value) (k : Z) :
  JS.strict_eq v (Num k) = true -> v = Num k.
Proof.
  destruct v as [| z |]; cbn; try discriminate.
  intros H. apply Z.eqb_eq in H. congruence.
Qed.

Lemma strict_eq_false (z k : Z) :
  JS.strict_eq (Num z) (Num k) = false -> z <> k.
Proof. cbn. apply Z.eqb_neq. Qed.

(** Step over [if (c) return failure;]. *)
Ltac chk :=
  apply sat_guard;
  [ intros _; try exact I
  | let H := fresh "G" in intros H; cbn [JS.add JS.ToNumber JS.length] in H;
    first [ apply lt_false in H
          | apply strict_neq_false in H; try (injection H as H)
          | idtac ] ].

(** Step over an in-bounds read, naming the byte that was read. *)
Tactic Notation "rd" ident(z) :=
  eapply sat_read; [ first [exact I | unfold in_bounds; lia] | lia | ];
  let Hz := fresh "H" z in let Rz := fresh "R" z in
  intros z Hz Rz; cbn [JS.add JS.ToNumber].

(** Step over an in-bounds slice. *)
Ltac sl :=
  eapply sat_read_slice; [ first [exact I | unfold in_bounds; lia] | ].

(* ================================================================== *)
(** ** The Node.js decoder: safety and the payload offset              *)
(* ================================================================== *)

Section NodeDecoder.

Variable decode : Uint8Array -> string.

Lemma Node_parseIPv4_safe (buffer : Uint8Array) (off : Z) (P : _ -> Prop) :
  0 <= off ->
  (forall msg, P (Node.Failure msg)) ->
  safe (Z.of_nat (List.length buffer)) (Node.parseIPv4 buffer (Num off))
    (fun '(_, o) => o = Num (off + 4) /\ off + 4 <= Z.of_nat (List.length buffer))
    P.
Proof.
  intros Hoff HP. unfold Node.parseIPv4, Node.fail.
  apply sat_guard; [intros _; apply HP | intros G; apply lt_false in G].
  cbn [JS.add JS.ToNumber].
  rd a. rd b. rd c. rd d. apply sat_ret. split; [reflexivity | lia].
Qed.

Lemma Node_parseDomain_safe (buffer : Uint8Array) (off : Z) (P : _ -> Prop) :
  0 <= off ->
  (forall msg, P (Node.Failure msg)) ->
  safe (Z.of_nat (List.length buffer)) (Node.parseDomain decode buffer (Num off))
    (fun '(_, o) => exists d, byte_at buffer off = Some d /\
                     o = Num (off + (1 + d)) /\
                     off + (1 + d) <= Z.of_nat (List.length buffer))
    P.
Proof.
  intros Hoff HP. unfold Node.parseDomain, Node.fail.
  apply sat_guard; [intros _; apply HP | intros G; apply lt_false in G].
  cbn [JS.add JS.ToNumber].
  rd z.
  apply sat_guard; [intros _; apply HP | intros G'; apply lt_false in G'].
  sl. apply sat_ret. exists z. split; [exact Hz |].
  split; [f_equal; lia | lia].
Qed.

Lemma Node_parseIPv6_safe (buffer : Uint8Array) (off : Z) (P : _ -> Prop) :
  0 <= off ->
  (forall msg, P (Node.Failure msg)) ->
  safe (Z.of_nat (List.length buffer)) (Node.parseIPv6 buffer (Num off))
    (fun '(_, o) => o = Num (off + 16) /\ off + 16 <= Z.of_nat (List.length buffer))
    P.
Proof.
  intros Hoff HP. unfold Node.parseIPv6, Node.fail.
  apply sat_guard; [intros _; apply HP | intros G; apply lt_false in G].
  cbn [JS.add JS.ToNumber].
  eapply sat_bind.
  - apply sat_mapM. intros i Hi.
    assert (0 <= i <= 14) by (cbn in Hi; intuition lia).
    cbn [JS.add JS.ToNumber]. rd hi. rd lo. apply sat_ret. exact I.
  - intros parts _. apply sat_ret. split; [reflexivity | lia].
Qed.

Lemma Node_bytesToUUID_16 (bytes : Uint8Array) :
  Z.of_nat (List.length bytes) = 16 ->
  @Node.bytesToUUID Node.ParseResult bytes = ret (Node.dashed_hex bytes).
Proof.
  intros H. unfold Node.bytesToUUID, JS.length. rewrite H. reflexivity.
Qed.

Lemma Node_processVlessHeader_safe (buffer : Uint8Array) (expectedUUID : string) :
  safe (Z.of_nat (List.length buffer))
       (Node.processVlessHeader decode buffer expectedUUID)
       (Node_post buffer expectedUUID) (Node_post buffer expectedUUID).
Proof.
  unfold Node.processVlessHeader, Node.fail.
  chk. rd version. chk. subst version.
  sl. rewrite Node_bytesToUUID_16 by (rewrite slice_length; lia).
  rewrite bind_ret_l.
  apply sat_guard; [intros _; exact I | intros Huuid].
  apply negb_false_iff, String.eqb_eq in Huuid.
  rd optLen. chk. chk. rd cmd.
  apply sat_guard; [intros _; exact I | intros Vcmd].
  apply negb_false_iff in Vcmd. unfold Node.validateCommand in Vcmd.
  apply strict_eq_true in Vcmd. injection Vcmd as ->.
  chk. rd hi. rd lo. chk. rd atype.
  eapply sat_bind with
    (Q' := fun '(_, o) => exists w, addressFieldWidth buffer optLen atype = Some w
                            /\ o = Num (22 + optLen + w)
                            /\ 22 + optLen + w <= Z.of_nat (List.length buffer)).
  - unfold addressFieldWidth.
    destruct (JS.strict_eq (Num atype) (Num 1)) eqn:E1.
    { apply strict_eq_true in E1. injection E1 as ->.
      eapply sat_weaken;
        [apply (Node_parseIPv4_safe _ _ (Node_post buffer expectedUUID));
         [lia | intros; exact I] | | auto].
      intros [a o] [-> Ho]. exists 4. split; [reflexivity |].
      split; [f_equal; lia | lia]. }
    apply strict_eq_false in E1.
    destruct (JS.strict_eq (Num atype) (Num 2)) eqn:E2.
    { apply strict_eq_true in E2. injection E2 as ->.
      eapply sat_weaken;
        [apply (Node_parseDomain_safe _ _ (Node_post buffer expectedUUID));
         [lia | intros; exact I] | | auto].
      intros [a o] [d [Hd [-> Ho]]]. exists (1 + d).
      replace (22 + optLen) with (0 + 1 + 16 + 1 + optLen + 1 + 2 + 1) by lia.
      rewrite Hd. split; [reflexivity |].
      split; [f_equal; lia | lia]. }
    apply strict_eq_false in E2.
    destruct (JS.strict_eq (Num atype) (Num 3)) eqn:E3.
    { apply strict_eq_true in E3. injection E3 as ->.
      eapply sat_weaken;
        [apply (Node_parseIPv6_safe _ _ (Node_post buffer expectedUUID));
         [lia | intros; exact I] | | auto].
      intros [a o] [-> Ho]. exists 16. split; [reflexivity |].
      split; [f_equal; lia | lia]. }
    apply sat_return. exact I.
  - intros [addr o] [w [Hw [-> Ho]]]. apply sat_return.
    exists optLen, atype, w.
    replace (18 + optLen) with (0 + 1 + 16 + 1 + optLen) by lia.
    replace (21 + optLen) with (0 + 1 + 16 + 1 + optLen + 1 + 2) by lia.
    repeat split; try assumption; try reflexivity.
Qed.

End NodeDecoder.

(* ================================================================== *)
(** ** The canonical form produced by [bytesToUUID]                    *)
(* ================================================================== *)

Lemma hex2_form (b : byte) :
  exists c1 c2, Node.hex2 b = String c1 (String c2 EmptyString) /\
                is_lower_hex c1 = true /\ is_lower_hex c2 = true.
Proof.
  destruct b; eexists; eexists; (split; [reflexivity | split; reflexivity]).
Qed.

Lemma length_16 {A} (l : list A) :
  List.length l = 16%nat ->
  exists a0 a1 a2 a3 a4 a5 a6 a7 a8 a9 a10 a11 a12 a13 a14 a15,
    l = [a0; a1; a2; a3; a4; a5; a6; a7; a8; a9; a10; a11; a12; a13; a14; a15].
Proof.
  intros H.
  do 16 (destruct l as [| ? l]; [discriminate H |]).
  destruct l; [| discriminate H].
  repeat eexists.
Qed.

Lemma dashed_hex_16 (bytes : Uint8Array) :
  List.length bytes = 16%nat ->
  canonical_uuid (Node.dashed_hex bytes) = true /\
  Worker.bytesToUUID bytes = Node.dashed_hex bytes.
Proof.
  intros H. apply length_16 in H.
  destruct H as (a0 & a1 & a2 & a3 & a4 & a5 & a6 & a7 & a8 & a9 & a10 & a11
                 & a12 & a13 & a14 & a15 & ->).
  unfold Worker.bytesToUUID, Node.dashed_hex. cbn [map].
  change Worker.hex2 with Node.hex2.
  repeat match goal with
  | |- context [Node.hex2 ?b] =>
      let c := fresh "c" in let d := fresh "d" in
      let E := fresh "E" in let Hc := fresh "Hc" in let Hd := fresh "Hd" in
      destruct (hex2_form b) as (c & d & E & Hc & Hd); rewrite E; clear E
  end.
  split; [| reflexivity].
  unfold canonical_uuid. cbn.
  repeat match goal with H : is_lower_hex _ = true |- _ => rewrite H; clear H end.
  reflexivity.
Qed.

(* ================================================================== *)
(** ** The Worker decoder: what a success implies                      *)
(* ================================================================== *)

(** Step over a read that may fall outside the buffer. *)
Ltac rd_any := eapply sat_read_any; [exact I |]; cbn [JS.add JS.ToNumber].

Section WorkerDecoder.

Variable decode : Uint8Array -> string.

Lemma Worker_parseAddress_sat (buffer : Uint8Array) (optLen : Z)
      (atv : JS.value) (P : _ -> Prop) :
  atv = JS.index buffer (Num (21 + optLen)) ->
  (forall msg, P (Worker.Failure msg)) ->
  sat any_access (Worker.parseAddress decode buffer (Num (21 + optLen)) atv)
    (fun '(al, _) => exists atype,
         byte_at buffer (21 + optLen) = Some atype /\
         JS.add (Num (21 + optLen + 1)) al =
           match addressFieldWidth buffer optLen atype with
           | Some w => Num (22 + optLen + w)
           | None => NaN
           end)
    P.
Proof.
  intros Hat HP. unfold Worker.parseAddress, Worker.fail, addressFieldWidth.
  destruct (JS.strict_eq atv (Num 1)) eqn:E1.
  { apply strict_eq_true in E1. rewrite E1 in Hat. symmetry in Hat.
    apply index_Num in Hat. destruct Hat as (j & [= <-] & Hb & _).
    sl. apply sat_ret. exists 1. split; [exact Hb |].
    cbn [JS.add JS.ToNumber Z.eqb Pos.eqb]. f_equal. lia. }
  destruct (JS.strict_eq atv (Num 2)) eqn:E2.
  { apply strict_eq_true in E2. rewrite E2 in Hat. symmetry in Hat.
    apply index_Num in Hat. destruct Hat as (j & [= <-] & Hb & _).
    rd_any. sl. apply sat_ret. exists 2. split; [exact Hb |].
    cbn [Z.eqb Pos.eqb].
    replace (21 + optLen + 1) with (22 + optLen) by lia.
    unfold JS.index, byte_at.
    destruct (22 + optLen <? 0); [reflexivity |].
    destruct (nth_error buffer (Z.to_nat (22 + optLen))) as [b |];
      [| reflexivity].
    cbn [option_map JS.of_byte JS.add JS.ToNumber]. f_equal. lia. }
  destruct (JS.strict_eq atv (Num 3)) eqn:E3.
  { apply strict_eq_true in E3. rewrite E3 in Hat. symmetry in Hat.
    apply index_Num in Hat. destruct Hat as (j & [= <-] & Hb & _).
    eapply sat_bind.
    - apply sat_mapM. intros i _. rd_any. rd_any. apply sat_ret. exact I.
    - intros parts _. apply sat_ret. exists 3. split; [exact Hb |].
      cbn [JS.add JS.ToNumber Z.eqb Pos.eqb]. f_equal. lia. }
  apply sat_return. apply HP.
Qed.

Lemma Worker_processVlessHeader_sat (buffer : Uint8Array) (userID : string) :
  sat any_access (Worker.processVlessHeader decode buffer userID)
      (Worker_post buffer userID) (Worker_post buffer userID).
Proof.
  unfold Worker.processVlessHeader, Worker.fail.
  chk. rd version. chk. subst version. sl.
  apply sat_guard; [intros _; exact I | intros Huuid].
  apply negb_false_iff, String.eqb_eq in Huuid.
  rd optLen. rd_any.
  apply sat_guard; [intros _; exact I | intros Hcmd].
  apply strict_neq_false, index_Num in Hcmd.
  destruct Hcmd as (j & [= <-] & Hcmd & _).
  rd_any. rd_any. rd_any.
  replace (18 + optLen + 1 + 2) with (21 + optLen) by lia.
  eapply sat_bind;
    [apply (Worker_parseAddress_sat _ _ _ (Worker_post buffer userID));
     [reflexivity | intros; exact I] |].
  intros [al addr] (atype & Hat & Hraw). apply sat_return.
  split; [exact G |]. split; [exact Hversion |]. split; [exact Huuid |].
  exists optLen, atype. repeat split; assumption.
Qed.

End WorkerDecoder.

(* ================================================================== *)
(** ** Results on the decoders                                         *)
(* ================================================================== *)

Lemma sat_call {R} (ok : access -> Prop) (m : Eff R R) (P : R -> Prop) :
  sat ok m P P ->
  exists t r, call m = (t, Returned r) /\ Forall ok t /\ P r.
Proof.
  destruct m as [t [r | r | e]]; intros [Ht Hc]; cbn in *;
    [exists t, r | exists t, r | contradiction]; auto.
Qed.

(** X5.  The Node.js decoder always returns a result object, and every
    index it reads and every slice it takes lies inside the buffer. *)
Theorem Node_decoder_total_in_bounds
    (decode : Uint8Array -> string) (buffer : Uint8Array) (expected : string) :
  exists t r,
    call (Node.processVlessHeader decode buffer expected) = (t, Returned r) /\
    Forall (in_bounds (Z.of_nat (List.length buffer))) t.
Proof.
  destruct (sat_call _ _ _ (Node_processVlessHeader_safe decode buffer expected))
    as (t & r & E & Ht & _).
  exists t, r. split; assumption.
Qed.

(** On success the Node.js decoder's payload offset is
    [22 + optionsLength + addressFieldWidth] and does not exceed the buffer
    length. *)
Theorem Node_payload_offset
    (decode : Uint8Array -> string) (buffer : Uint8Array) (expected : string)
    (t : list access) (h : Node.Header) :
  call (Node.processVlessHeader decode buffer expected)
    = (t, Returned (Node.Success h)) ->
  exists optLen atype width,
    byte_at buffer 17 = Some optLen /\
    byte_at buffer (21 + optLen) = Some atype /\
    Node.addressType h = Num atype /\
    addressFieldWidth buffer optLen atype = Some width /\
    Node.rawDataIndex h = Num (22 + optLen + width) /\
    0 <= 22 + optLen + width <= Z.of_nat (List.length buffer).
Proof.
  intros E.
  destruct (sat_call _ _ _ (Node_processVlessHeader_safe decode buffer expected))
    as (t' & r & E' & _ & Hpost).
  rewrite E in E'. injection E' as <- <-.
  destruct Hpost as (optLen & atype & width & _ & _ & Ho & _ & Ha & Ht & Hw & Hr & Hle).
  exists optLen, atype, width. repeat split; try assumption.
  apply byte_at_range in Ho. apply addressFieldWidth_range in Hw. lia.
Qed.

Lemma lt_true (a b : Z) : JS.lt (Num a) (Num b) = true -> a < b.
Proof. cbn. apply Z.ltb_lt. Qed.

Lemma Node_success_token
    (decode : Uint8Array -> string) (buffer : Uint8Array) (expected : string)
    (t : list access) (h : Node.Header) :
  call (Node.processVlessHeader decode buffer expected)
    = (t, Returned (Node.Success h)) ->
  Node.dashed_hex (JS.slice buffer (Num 1) (Num 17)) = expected /\
  22 < Z.of_nat (List.length buffer).
Proof.
  intros E.
  destruct (sat_call _ _ _ (Node_processVlessHeader_safe decode buffer expected))
    as (t' & r & E' & _ & Hpost).
  rewrite E in E'. injection E' as <- <-.
  destruct Hpost as (o & a & w & _ & Hu & Ho & _ & _ & _ & Hw & _ & Hle).
  split; [exact Hu |].
  apply byte_at_range in Ho. apply addressFieldWidth_range in Hw. lia.
Qed.

Lemma Worker_success_token
    (decode : Uint8Array -> string) (buffer : Uint8Array) (expected : string)
    (t : list access) (h : Worker.Header) :
  call (Worker.processVlessHeader decode buffer expected)
    = (t, Returned (Worker.Success h)) ->
  Worker.bytesToUUID (JS.slice buffer (Num 1) (Num 17)) = expected /\
  24 <= Z.of_nat (List.length buffer).
Proof.
  intros E.
  destruct (sat_call _ _ _ (Worker_processVlessHeader_sat decode buffer expected))
    as (t' & r & E' & _ & Hpost).
  rewrite E in E'. injection E' as <- <-.
  destruct Hpost as (Hlen & _ & Hu & _). split; assumption.
Qed.

Lemma Node_result_is_returned
    (decode : Uint8Array -> string) (buffer : Uint8Array) (expected : string) :
  exists t r,
    call (Node.processVlessHeader decode buffer expected) = (t, Returned r).
Proof.
  destruct (sat_call _ _ _ (Node_processVlessHeader_safe decode buffer expected))
    as (t & r & E & _). exists t, r. exact E.
Qed.

Lemma Worker_result_is_returned
    (decode : Uint8Array -> string) (buffer : Uint8Array) (expected : string) :
  exists t r,
    call (Worker.processVlessHeader decode buffer expected) = (t, Returned r).
Proof.
  destruct (sat_call _ _ _ (Worker_processVlessHeader_sat decode buffer expected))
    as (t & r & E & _). exists t, r. exact E.
Qed.

Lemma slice_1_17_length (buffer : Uint8Array) :
  17 <= Z.of_nat (List.length buffer) ->
  List.length (JS.slice buffer (Num 1) (Num 17)) = 16%nat.
Proof.
  intros H. pose proof (slice_length buffer 1 17). lia.
Qed.

Lemma Node_auth_failure
    (decode : Uint8Array -> string) (buffer : Uint8Array) (expected : string) :
  23 <= Z.of_nat (List.length buffer) ->
  byte_at buffer 0 = Some 0 ->
  Node.dashed_hex (JS.slice buffer (Num 1) (Num 17)) <> expected ->
  exists t,
    call (Node.processVlessHeader decode buffer expected)
      = (t, Returned (Node.Failure "Authentication failed: Invalid UUID")).
Proof.
  intros Hlen Hv Hne.
  assert (S : sat any_access (Node.processVlessHeader decode buffer expected)
                (fun r => r = Node.Failure "Authentication failed: Invalid UUID")
                (fun r => r = Node.Failure "Authentication failed: Invalid UUID")).
  { unfold Node.processVlessHeader, Node.fail.
    apply sat_guard; [intros G; apply lt_true in G; lia | intros _].
    rd version. rewrite Hv in Hversion. injection Hversion as <-.
    apply sat_guard; [discriminate | intros _].
    sl. rewrite Node_bytesToUUID_16
      by (rewrite slice_length; lia).
    rewrite bind_ret_l.
    apply sat_guard; [reflexivity | intros G].
    apply negb_false_iff, String.eqb_eq in G. contradiction. }
  apply sat_call in S. destruct S as (t & r & E & _ & ->). exists t. exact E.
Qed.

Lemma Worker_auth_failure
    (decode : Uint8Array -> string) (buffer : Uint8Array) (expected : string) :
  24 <= Z.of_nat (List.length buffer) ->
  byte_at buffer 0 = Some 0 ->
  Worker.bytesToUUID (JS.slice buffer (Num 1) (Num 17)) <> expected ->
  exists t,
    call (Worker.processVlessHeader decode buffer expected)
      = (t, Returned (Worker.Failure "Invalid UUID")).
Proof.
  intros Hlen Hv Hne.
  assert (S : sat any_access (Worker.processVlessHeader decode buffer expected)
                (fun r => r = Worker.Failure "Invalid UUID")
                (fun r => r = Worker.Failure "Invalid UUID")).
  { unfold Worker.processVlessHeader, Worker.fail.
    apply sat_guard; [intros G; apply lt_true in G; lia | intros _].
    rd version. rewrite Hv in Hversion. injection Hversion as <-.
    apply sat_guard; [discriminate | intros _].
    sl. apply sat_guard; [reflexivity | intros G].
    apply negb_false_iff, String.eqb_eq in G. contradiction. }
  apply sat_call in S. destruct S as (t & r & E & _ & ->). exists t. exact E.
Qed.

Lemma call_fst {R} (m : Eff R R) : fst (call m) = fst m.
Proof. destruct m as [t [r | r | e]]; reflexivity. Qed.

Lemma bind_read_fst {R B} (buf : Uint8Array) (i : JS.value)
      (k : JS.value -> Eff R B) :
  fst (bind (read buf i) k) = ReadIndex i :: fst (k (JS.index buf i)).
Proof. unfold read. cbn. destruct (k _) as [t c]. reflexivity. Qed.

(* ================================================================== *)
(** ** Claims about the decoders                                       *)
(* ================================================================== *)

(** C1, evaluated on the Worker decoder.  On the 24-byte message
    [msg_truncated_ipv6] the buffer is too short for the IPv6 address field:
    only two of its sixteen bytes are present.  The Worker decoder returns a
    success all the same, after reading the indices 24 to 37, which lie past
    the end of the buffer.  (The Node.js decoder satisfies the claim, see
    [Node_decoder_total_in_bounds].) *)
Theorem Worker_reads_past_the_end (decode : Uint8Array -> string) :
  exists t h,
    List.length msg_truncated_ipv6 = 24%nat /\
    call (Worker.processVlessHeader decode msg_truncated_ipv6 Config.UUID_alt)
      = (t, Returned (Worker.Success h)) /\
    In (ReadIndex (Num 24)) t /\ In (ReadIndex (Num 37)) t /\
    forallb (in_boundsb 24) t = false.
Proof.
  eexists. eexists. split; [reflexivity |].
  split; [vm_compute; reflexivity |].
  split; [cbn; tauto |]. split; [cbn; tauto | reflexivity].
Qed.

(** C2, as stated, fails: a message whose token differs from the expected
    one, but whose version byte is 1, is answered with the version error and
    not with the authentication error. *)
Lemma version_check_precedes_token_check :
  Node.dashed_hex (JS.slice msg_version1 (Num 1) (Num 17)) <> Config.UUID /\
  snd (call (Node.processVlessHeader ascii_decode msg_version1 Config.UUID))
    = Returned (Node.Failure
        "Unsupported VLESS version: 1. Only version 0 is supported.") /\
  snd (call (Node.processVlessHeader ascii_decode msg_version1 Config.UUID))
    <> Returned (Node.Failure "Authentication failed: Invalid UUID").
Proof.
  split; [vm_compute; discriminate |].
  split; [vm_compute; reflexivity | vm_compute; discriminate].
Qed.

(** C2 (amended).  If the canonical dashed-hex form of bytes 1..16 differs
    from the expected token, neither decoder returns a success; and once the
    length check passes (23 bytes for Node.js, 24 for the Worker) and the
    version byte is 0, the result is the authentication error. *)
Theorem token_mismatch_is_rejected
    (decode : Uint8Array -> string) (buffer : Uint8Array) (expected : string) :
  Node.dashed_hex (JS.slice buffer (Num 1) (Num 17)) <> expected ->
  (exists t msg,
     call (Node.processVlessHeader decode buffer expected)
       = (t, Returned (Node.Failure msg))) /\
  (exists t msg,
     call (Worker.processVlessHeader decode buffer expected)
       = (t, Returned (Worker.Failure msg))) /\
  (byte_at buffer 0 = Some 0 ->
   (23 <= Z.of_nat (List.length buffer) ->
    exists t,
      call (Node.processVlessHeader decode buffer expected)
        = (t, Returned (Node.Failure "Authentication failed: Invalid UUID"))) /\
   (24 <= Z.of_nat (List.length buffer) ->
    exists t,
      call (Worker.processVlessHeader decode buffer expected)
        = (t, Returned (Worker.Failure "Invalid UUID")))).
Proof.
  intros Hne. split; [| split].
  - destruct (Node_result_is_returned decode buffer expected) as (t & r & E).
    destruct r as [msg | h]; [exists t, msg; exact E |].
    apply Node_success_token in E. destruct E as [E _]. contradiction.
  - destruct (Worker_result_is_returned decode buffer expected) as (t & r & E).
    destruct r as [msg | h]; [exists t, msg; exact E |].
    apply Worker_success_token in E. destruct E as [E Hlen].
    rewrite (proj2 (dashed_hex_16 _ (slice_1_17_length buffer ltac:(lia)))) in E.
    contradiction.
  - intros Hv. split; intros Hlen.
    + apply Node_auth_failure; assumption.
    + apply Worker_auth_failure; try assumption.
      rewrite (proj2 (dashed_hex_16 _ (slice_1_17_length buffer ltac:(lia)))).
      exact Hne.
Qed.

(** An instance: the message [msg_ipv4] checked against [CONFIG.UUID]. *)
Lemma token_mismatch_is_rejected_witness :
  exists t,
    call (Node.processVlessHeader ascii_decode msg_ipv4 Config.UUID)
      = (t, Returned (Node.Failure "Authentication failed: Invalid UUID")).
Proof.
  refine (proj1 (proj2 (proj2
    (token_mismatch_is_rejected ascii_decode msg_ipv4 Config.UUID _)) _) _).
  - vm_compute. discriminate.
  - reflexivity.
  - vm_compute. discriminate.
Defined.

(** C3, evaluated on the Worker decoder.  On [msg_missing_domain_length] the
    address type (domain) is the last byte of the buffer, so there is no
    domain length; the Worker decoder returns a success whose [rawDataIndex]
    is [NaN], which is not [22 + optionsLength + 1 + domainLength] for any
    number.  (The Node.js decoder satisfies the claim, see
    [Node_payload_offset].) *)
Theorem Worker_payload_offset_NaN (decode : Uint8Array -> string) :
  exists t h,
    call (Worker.processVlessHeader decode msg_missing_domain_length
            Config.UUID_alt)
      = (t, Returned (Worker.Success h)) /\
    byte_at msg_missing_domain_length 17 = Some 2 /\
    byte_at msg_missing_domain_length (21 + 2) = Some 2 /\
    byte_at msg_missing_domain_length (22 + 2) = None /\
    Worker.rawDataIndex h = NaN /\
    forall domainLength : Z,
      Worker.rawDataIndex h <> Num (22 + 2 + (1 + domainLength)).
Proof.
  eexists. eexists. split; [vm_compute; reflexivity |].
  cbn [Worker.rawDataIndex].
  repeat (split; [reflexivity |]). intros d. discriminate.
Qed.

(** C4, as stated, fails for the Worker decoder: the 23-byte message
    [msg_empty_domain] is rejected by its initial length check, while the
    Node.js decoder accepts the same message. *)
Lemma Worker_rejects_23_bytes :
  List.length msg_empty_domain = 23%nat /\
  call (Worker.processVlessHeader ascii_decode msg_empty_domain Config.UUID_alt)
    = ([], Returned (Worker.Failure "Buffer too short")) /\
  exists t h,
    call (Node.processVlessHeader ascii_decode msg_empty_domain Config.UUID_alt)
      = (t, Returned (Node.Success h)) /\ Node.rawDataIndex h = Num 23.
Proof.
  split; [reflexivity |]. split; [vm_compute; reflexivity |].
  eexists. eexists. split; vm_compute; reflexivity.
Qed.

(** C4 (amended).  Each decoder fails at its initial length check, before
    any byte is read, exactly when the buffer is shorter than its threshold:
    23 bytes for the Node.js decoder, 24 bytes for the Worker decoder. *)
Theorem initial_length_check
    (decode : Uint8Array -> string) (buffer : Uint8Array) (expected : string) :
  (call (Node.processVlessHeader decode buffer expected)
     = ([], Returned (Node.Failure "Invalid VLESS header: buffer too short"))
   <-> Z.of_nat (List.length buffer) < 23) /\
  (call (Worker.processVlessHeader decode buffer expected)
     = ([], Returned (Worker.Failure "Buffer too short"))
   <-> Z.of_nat (List.length buffer) < 24).
Proof.
  split; split.
  - unfold Node.processVlessHeader, Node.fail, JS.length, JS.lt. cbn [JS.ToNumber].
    destruct (Z.ltb_spec (Z.of_nat (List.length buffer)) 23) as [H | H];
      [intros _; exact H |].
    cbn [when]. rewrite bind_ret_l. intros E.
    apply (f_equal fst) in E. rewrite call_fst, bind_read_fst in E.
    discriminate E.
  - intros H. unfold Node.processVlessHeader, Node.fail, JS.length, JS.lt.
    cbn [JS.ToNumber]. apply Z.ltb_lt in H. rewrite H. reflexivity.
  - unfold Worker.processVlessHeader, Worker.fail, JS.length, JS.lt.
    cbn [JS.ToNumber].
    destruct (Z.ltb_spec (Z.of_nat (List.length buffer)) 24) as [H | H];
      [intros _; exact H |].
    cbn [when]. rewrite bind_ret_l. intros E.
    apply (f_equal fst) in E. rewrite call_fst, bind_read_fst in E.
    discriminate E.
  - intros H. unfold Worker.processVlessHeader, Worker.fail, JS.length, JS.lt.
    cbn [JS.ToNumber]. apply Z.ltb_lt in H. rewrite H. reflexivity.
Qed.

Lemma slice_to_end_length (buf : Uint8Array) (i : Z) :
  0 <= i <= Z.of_nat (List.length buf) ->
  Z.of_nat (List.length (JS.slice buf (Num i) Undefined))
    = Z.of_nat (List.length buf) - i.
Proof.
  intros Hi. unfold JS.slice, JS.relative.
  destruct (Z.ltb_spec i 0); [lia |].
  rewrite length_firstn, length_skipn. lia.
Qed.

(** On success the Node.js decoder's payload offset lies inside the buffer,
    so [buffer.slice(rawDataIndex)] holds exactly the bytes after the header
    and is empty exactly when the offset equals the buffer length. *)
Theorem Node_payload_within_buffer
    (decode : Uint8Array -> string) (buffer : Uint8Array) (expected : string)
    (t : list access) (h : Node.Header) :
  call (Node.processVlessHeader decode buffer expected)
    = (t, Returned (Node.Success h)) ->
  exists i,
    Node.rawDataIndex h = Num i /\
    0 <= i <= Z.of_nat (List.length buffer) /\
    Z.of_nat (List.length (JS.slice buffer (Num i) Undefined))
      = Z.of_nat (List.length buffer) - i /\
    (JS.slice buffer (Num i) Undefined = [] <-> i = Z.of_nat (List.length buffer)).
Proof.
  intros E. apply Node_payload_offset in E.
  destruct E as (o & a & w & _ & _ & _ & _ & Hr & Hle).
  exists (22 + o + w). split; [exact Hr |]. split; [exact Hle |].
  pose proof (slice_to_end_length buffer (22 + o + w) Hle) as Hs.
  split; [exact Hs |]. split.
  - intros Hnil. rewrite Hnil in Hs. cbn [List.length] in Hs. lia.
  - intros Heq. apply length_zero_iff_nil. lia.
Qed.

(** On success the Worker decoder's payload offset has the same form when
    the address field width is defined; it is [NaN] when the domain length
    byte lies outside the buffer.  Nothing bounds it by the buffer length. *)
Theorem Worker_payload_offset
    (decode : Uint8Array -> string) (buffer : Uint8Array) (expected : string)
    (t : list access) (h : Worker.Header) :
  call (Worker.processVlessHeader decode buffer expected)
    = (t, Returned (Worker.Success h)) ->
  exists optLen atype,
    byte_at buffer 17 = Some optLen /\
    byte_at buffer (21 + optLen) = Some atype /\
    Worker.rawDataIndex h =
      match addressFieldWidth buffer optLen atype with
      | Some w => Num (22 + optLen + w)
      | None => NaN
      end.
Proof.
  intros E.
  destruct (sat_call _ _ _ (Worker_processVlessHeader_sat decode buffer expected))
    as (t' & r & E' & _ & Hpost).
  rewrite E in E'. injection E' as <- <-.
  destruct Hpost as (_ & _ & _ & o & a & Ho & _ & Ha & Hr).
  exists o, a. repeat split; assumption.
Qed.

(** C9, evaluated on the Worker decoder.  On the 24-byte message
    [msg_truncated_domain] the domain length byte announces 200 bytes of
    which one is present; the Worker decoder returns a success with
    [rawDataIndex = 223], beyond the buffer length 24.  The payload slice is
    empty although the offset differs from the buffer length.  (The Node.js
    decoder satisfies the claim, see [Node_payload_within_buffer].) *)
Theorem Worker_payload_offset_beyond_buffer (decode : Uint8Array -> string) :
  exists t h,
    call (Worker.processVlessHeader decode msg_truncated_domain Config.UUID_alt)
      = (t, Returned (Worker.Success h)) /\
    Worker.rawDataIndex h = Num 223 /\
    JS.length msg_truncated_domain = Num 24 /\
    JS.lt (JS.length msg_truncated_domain) (Worker.rawDataIndex h) = true /\
    JS.slice msg_truncated_domain (Worker.rawDataIndex h) Undefined = [].
Proof.
  eexists. eexists. split; [vm_compute; reflexivity |].
  cbn [Worker.rawDataIndex]. repeat split; reflexivity.
Qed.

(** C10.  On sixteen bytes [bytesToUUID] returns (without throwing) a string
    of 36 characters: lowercase hexadecimal digits in groups of 8-4-4-4-12
    separated by dashes.  Hence a decoder can succeed only when the expected
    token has that shape; for any other expected token every buffer is
    rejected.  The value [CONFIG.UUID] of [config.js] is such a token. *)
Theorem token_must_be_canonical
    (decode : Uint8Array -> string) (bytes buffer : Uint8Array)
    (expected : string) :
  (List.length bytes = 16%nat ->
   @Node.bytesToUUID Node.ParseResult bytes = ret (Node.dashed_hex bytes) /\
   canonical_uuid (Node.dashed_hex bytes) = true /\
   canonical_uuid (Worker.bytesToUUID bytes) = true) /\
  (canonical_uuid expected = false ->
   (exists t msg,
      call (Node.processVlessHeader decode buffer expected)
        = (t, Returned (Node.Failure msg))) /\
   (exists t msg,
      call (Worker.processVlessHeader decode buffer expected)
        = (t, Returned (Worker.Failure msg)))) /\
  canonical_uuid Config.UUID = false /\
  (exists t msg,
     call (Node.processVlessHeader decode buffer Config.UUID)
       = (t, Returned (Node.Failure msg))) /\
  (exists t msg,
     call (Worker.processVlessHeader decode buffer Config.UUID)
       = (t, Returned (Worker.Failure msg))).
Proof.
  assert (Hgen : forall expected', canonical_uuid expected' = false ->
    (exists t msg,
       call (Node.processVlessHeader decode buffer expected')
         = (t, Returned (Node.Failure msg))) /\
    (exists t msg,
       call (Worker.processVlessHeader decode buffer expected')
         = (t, Returned (Worker.Failure msg)))).
  { intros e He. split.
    - destruct (Node_result_is_returned decode buffer e) as (t & r & E).
      destruct r as [msg | h]; [exists t, msg; exact E |].
      apply Node_success_token in E. destruct E as [E Hlen].
      destruct (dashed_hex_16 _ (slice_1_17_length buffer ltac:(lia))) as [Hc _].
      rewrite E in Hc. congruence.
    - destruct (Worker_result_is_returned decode buffer e) as (t & r & E).
      destruct r as [msg | h]; [exists t, msg; exact E |].
      apply Worker_success_token in E. destruct E as [E Hlen].
      destruct (dashed_hex_16 _ (slice_1_17_length buffer ltac:(lia)))
        as [Hc Heq].
      rewrite Heq in E. rewrite E in Hc. congruence. }
  split; [| split; [apply Hgen | split; [reflexivity | apply Hgen; reflexivity]]].
  intros Hlen. destruct (dashed_hex_16 bytes Hlen) as [Hc Heq].
  split; [apply Node_bytesToUUID_16; lia |].
  split; [exact Hc | rewrite Heq; exact Hc].
Qed.

(** An instance: the sample token, and [msg_ipv4] checked against
    [CONFIG.UUID]. *)
Lemma token_must_be_canonical_witness :
  canonical_uuid (Node.dashed_hex (bytes_of token)) = true /\
  exists t msg,
    call (Node.processVlessHeader ascii_decode msg_ipv4 Config.UUID)
      = (t, Returned (Node.Failure msg)).
Proof.
  pose proof (token_must_be_canonical ascii_decode (bytes_of token) msg_ipv4
                Config.UUID) as (Hshape & Hrej & _).
  split.
  - apply Hshape. reflexivity.
  - apply Hrej. reflexivity.
Defined.

(* ================================================================== *)
(** ** Closing connections                                             *)
(* ================================================================== *)

Ltac io_unfold :=
  unfold try_catch, try_finally, io_bind, io_when, io_ret, raise, get,
         modify, console, platform in *.

Lemma Node_safeClose_ok (c : NodeSession.connection) (w : World NodeSession.Vars) :
  fst (NodeSession.safeClose c w) = Ok tt.
Proof.
  unfold NodeSession.safeClose, NodeSession.close, NodeSession.destroy.
  io_unfold.
  destruct c; cbn; try reflexivity;
    repeat match goal with
    | |- context [if ?b then _ else _] => destruct b; cbn
    | |- context [match faults ?w ?n with _ => _ end] =>
        destruct (faults w n); cbn
    end; reflexivity.
Qed.

Lemma Worker_safeCloseWebSocket_ok
      (ws : WorkerSession.websocket) (w : World WorkerSession.Vars) :
  fst (WorkerSession.safeCloseWebSocket ws w) = Ok tt.
Proof.
  unfold WorkerSession.safeCloseWebSocket, WorkerSession.readyState.
  io_unfold.
  destruct ws; cbn; try reflexivity;
    repeat match goal with
    | |- context [if ?b then _ else _] => destruct b; cbn
    | |- context [match faults ?w ?n with _ => _ end] =>
        destruct (faults w n); cbn
    end; reflexivity.
Qed.

Lemma Node_safeClose_closed (c : NodeSession.connection)
      (w : World NodeSession.Vars) :
  Node_closed c (st w) -> trace (snd (NodeSession.safeClose c w)) = trace w.
Proof.
  unfold NodeSession.safeClose, NodeSession.close, NodeSession.destroy.
  io_unfold. destruct c; cbn; try reflexivity.
  - intros [H1 H0]. unfold OPEN, CONNECTING in *.
    destruct (Z.eqb_spec (NodeSession.ws_readyState (st w)) 1); [contradiction |].
    destruct (Z.eqb_spec (NodeSession.ws_readyState (st w)) 0); [contradiction |].
    reflexivity.
  - intros ->. reflexivity.
Qed.

Lemma Node_safeClose_closes (c : NodeSession.connection)
      (w : World NodeSession.Vars) :
  faults w (calls w) = None ->
  Node_closed c (st (snd (NodeSession.safeClose c w))).
Proof.
  unfold NodeSession.safeClose, NodeSession.close, NodeSession.destroy.
  io_unfold. intros F. destruct c; cbn; try exact I.
  - unfold NodeSession.ws_close_effect, OPEN, CONNECTING, CLOSED, CLOSING.
    destruct (Z.eqb_spec (NodeSession.ws_readyState (st w)) 1) as [E1 | E1];
      [cbn; rewrite F; cbn; rewrite E1; cbn; lia |].
    destruct (Z.eqb_spec (NodeSession.ws_readyState (st w)) 0) as [E0 | E0];
      [cbn; rewrite F; cbn; rewrite E0; cbn; lia |].
    cbn. split; assumption.
  - destruct (NodeSession.destroyed (st w)) eqn:D; cbn; [exact D |].
    rewrite F. reflexivity.
Qed.

Lemma Worker_safeCloseWebSocket_closed (ws : WorkerSession.websocket)
      (w : World WorkerSession.Vars) :
  Worker_closed ws (st w) ->
  trace (snd (WorkerSession.safeCloseWebSocket ws w))
  = match ws with
    | WorkerSession.NullSocket =>
        trace w ++ [Console LOG
          "Error closing WebSocket: Cannot read properties of null (reading 'readyState')"]
    | WorkerSession.Server => trace w
    end.
Proof.
  unfold WorkerSession.safeCloseWebSocket, WorkerSession.readyState.
  io_unfold. destruct ws; cbn; try reflexivity.
  intros [H1 H0].
  unfold WorkerSession.READY_STATE_OPEN, WorkerSession.READY_STATE_CONNECTING,
         OPEN, CONNECTING in *.
  destruct (Z.eqb_spec (WorkerSession.ws_readyState (st w)) 1); [contradiction |].
  destruct (Z.eqb_spec (WorkerSession.ws_readyState (st w)) 0); [contradiction |].
  reflexivity.
Qed.

Lemma Worker_safeCloseWebSocket_closes (ws : WorkerSession.websocket)
      (w : World WorkerSession.Vars) :
  faults w (calls w) = None ->
  Worker_closed ws (st (snd (WorkerSession.safeCloseWebSocket ws w))).
Proof.
  unfold WorkerSession.safeCloseWebSocket, WorkerSession.readyState.
  io_unfold. intros F. destruct ws; cbn; try exact I.
  unfold WorkerSession.ws_close_effect,
         WorkerSession.READY_STATE_OPEN, WorkerSession.READY_STATE_CONNECTING,
         OPEN, CONNECTING, CLOSED, CLOSING.
  destruct (Z.eqb_spec (WorkerSession.ws_readyState (st w)) 1) as [E1 | E1];
    [cbn; rewrite F; cbn; rewrite E1; cbn; lia |].
  destruct (Z.eqb_spec (WorkerSession.ws_readyState (st w)) 0) as [E0 | E0];
    [cbn; rewrite F; cbn; rewrite E0; cbn; lia |].
  cbn. split; assumption.
Qed.

(** C7.  [safeClose] and [safeCloseWebSocket] never raise, whatever the
    connection (a WebSocket in any ready state, a socket destroyed or not,
    [null]) and whichever platform calls fail; a second call does not raise
    either, and when the first call's [close]/[destroy] went through, the
    second call finds the connection closed and makes no platform call. *)
Theorem safe_close_is_exception_free_and_idempotent
    (c : NodeSession.connection) (w : World NodeSession.Vars)
    (ws : WorkerSession.websocket) (v : World WorkerSession.Vars) :
  let w1 := snd (NodeSession.safeClose c w) in
  let v1 := snd (WorkerSession.safeCloseWebSocket ws v) in
  fst (NodeSession.safeClose c w) = Ok tt /\
  fst (NodeSession.safeClose c w1) = Ok tt /\
  fst (WorkerSession.safeCloseWebSocket ws v) = Ok tt /\
  fst (WorkerSession.safeCloseWebSocket ws v1) = Ok tt /\
  (faults w (calls w) = None ->
   Node_closed c (st w1) /\
   trace (snd (NodeSession.safeClose c w1)) = trace w1) /\
  (faults v (calls v) = None ->
   Worker_closed ws (st v1) /\
   filter is_close (trace (snd (WorkerSession.safeCloseWebSocket ws v1)))
   = filter is_close (trace v1)).
Proof.
  cbv zeta.
  split; [apply Node_safeClose_ok |].
  split; [apply Node_safeClose_ok |].
  split; [apply Worker_safeCloseWebSocket_ok |].
  split; [apply Worker_safeCloseWebSocket_ok |].
  split; intros F.
  - pose proof (Node_safeClose_closes c w F) as H.
    split; [exact H | apply Node_safeClose_closed; exact H].
  - pose proof (Worker_safeCloseWebSocket_closes ws v F) as H.
    split; [exact H |].
    rewrite (Worker_safeCloseWebSocket_closed _ _ H).
    destruct ws; [| reflexivity].
    rewrite filter_app. cbn. apply app_nil_r.
Qed.

(* ================================================================== *)
(** ** Quiet actions of the Node.js session                            *)
(* ================================================================== *)

Lemma quiet_ret {A} (a : A) : quiet (io_ret a).
Proof. intros w. reflexivity. Qed.

Lemma quiet_raise {A} (e : string) : quiet (@raise _ A e).
Proof. intros w. reflexivity. Qed.

Lemma quiet_get : quiet get.
Proof. intros w. reflexivity. Qed.

Lemma quiet_bind {A B} (m : IO _ A) (k : A -> IO _ B) :
  quiet m -> (forall a, quiet (k a)) -> quiet (io_bind m k).
Proof.
  intros Hm Hk w. unfold io_bind. specialize (Hm w).
  destruct (m w) as [[a | e] w1]; cbn in *; [| exact Hm].
  rewrite Hk. exact Hm.
Qed.

Lemma quiet_try_catch (m : IO _ unit) (h : string -> IO _ unit) :
  quiet m -> (forall e, quiet (h e)) -> quiet (try_catch m h).
Proof.
  intros Hm Hh w. unfold try_catch. specialize (Hm w).
  destruct (m w) as [[a | e] w1]; cbn in *; [exact Hm |].
  rewrite Hh. exact Hm.
Qed.

Lemma quiet_when (c : bool) (m : IO _ unit) : quiet m -> quiet (io_when c m).
Proof. intros Hm. destruct c; [exact Hm | apply quiet_ret]. Qed.

Lemma quiet_if {A} (c : bool) (m1 m2 : IO _ A) :
  quiet m1 -> quiet m2 -> quiet (if c then m1 else m2).
Proof. destruct c; auto. Qed.

Lemma quiet_console (l : console_level) (msg : string) : quiet (console l msg).
Proof.
  intros w. unfold console, key. cbn. rewrite filter_app. cbn.
  rewrite app_nil_r. reflexivity.
Qed.

Lemma quiet_modify (f : _ -> _) : frame f -> quiet (modify f).
Proof.
  intros Hf w. unfold modify, key. cbn.
  destruct (Hf (st w)) as (-> & -> & ->). reflexivity.
Qed.

Lemma quiet_platform (a : action) (f : _ -> _) :
  outbound a = false -> frame f -> quiet (platform a f).
Proof.
  intros Ha Hf w. unfold platform, key.
  destruct (faults w (calls w)); cbn; rewrite filter_app; cbn; rewrite Ha;
    rewrite app_nil_r; [reflexivity |].
  destruct (Hf (st w)) as (-> & -> & ->). reflexivity.
Qed.

Lemma frame_id : frame id.
Proof. intros s. auto. Qed.

Lemma frame_ws_close_effect : frame NodeSession.ws_close_effect.
Proof.
  intros s. unfold NodeSession.ws_close_effect.
  destruct (_ =? _); auto.
Qed.

Lemma frame_set_ws_readyState v : frame (NodeSession.set_ws_readyState v).
Proof. intros s. auto. Qed.
Lemma frame_set_destroyed v : frame (NodeSession.set_destroyed v).
Proof. intros s. auto. Qed.
Lemma frame_set_connected v : frame (NodeSession.set_connected v).
Proof. intros s. auto. Qed.
Lemma frame_set_crashed v : frame (NodeSession.set_crashed v).
Proof. intros s. auto. Qed.
Lemma frame_set_piping v : frame (NodeSession.set_piping v).
Proof. intros s. auto. Qed.
Lemma frame_set_onError v : frame (NodeSession.set_onError v).
Proof. intros s. auto. Qed.
Lemma frame_set_onTimeout v : frame (NodeSession.set_onTimeout v).
Proof. intros s. auto. Qed.
Lemma frame_set_addressRemote v : frame (NodeSession.set_addressRemote v).
Proof. intros s. auto. Qed.
Lemma frame_set_portRemote v : frame (NodeSession.set_portRemote v).
Proof. intros s. auto. Qed.

Create HintDb quiet.
#[local] Hint Resolve quiet_ret quiet_raise quiet_get quiet_console
  quiet_modify frame_id frame_ws_close_effect frame_set_ws_readyState
  frame_set_destroyed frame_set_connected frame_set_crashed frame_set_piping
  frame_set_onError frame_set_onTimeout frame_set_addressRemote
  frame_set_portRemote : quiet.

(** Decompose a composite action into its primitive steps. *)
Ltac quiet_with extra :=
  repeat first
    [ extra
    | simple apply quiet_bind; [| intros ?]
    | simple apply quiet_try_catch; [| intros ?]
    | simple apply quiet_when
    | simple apply quiet_if
    | simple apply quiet_platform; [reflexivity |]
    | solve [auto with quiet] ].

Ltac quiet_tac := quiet_with fail.

Lemma quiet_safeClose (c : NodeSession.connection) :
  quiet (NodeSession.safeClose c).
Proof.
  unfold NodeSession.safeClose, NodeSession.close, NodeSession.destroy.
  destruct c; quiet_tac.
Qed.

Ltac quiet_session := quiet_with ltac:(simple apply quiet_safeClose).

Lemma quiet_onData chunk : quiet (NodeSession.onData chunk).
Proof. unfold NodeSession.onData. quiet_session. Qed.

Lemma quiet_onEnd : quiet NodeSession.onEnd.
Proof. unfold NodeSession.onEnd. quiet_session. Qed.

Lemma quiet_onPipeError e : quiet (NodeSession.onPipeError e).
Proof. unfold NodeSession.onPipeError. quiet_session. Qed.

Lemma quiet_onSocketError e : quiet (NodeSession.onSocketError e).
Proof. unfold NodeSession.onSocketError. quiet_session. Qed.

Lemma quiet_onSocketTimeout : quiet NodeSession.onSocketTimeout.
Proof.
  unfold NodeSession.onSocketTimeout. quiet_session.
Qed.

Lemma quiet_onClose config code reason :
  quiet (NodeSession.onClose config code reason).
Proof. unfold NodeSession.onClose. quiet_session. Qed.

Lemma quiet_onError_ws e : quiet (NodeSession.onError_ws e).
Proof. unfold NodeSession.onError_ws. quiet_session. Qed.

Lemma quiet_onUnexpectedResponse c : quiet (NodeSession.onUnexpectedResponse c).
Proof. unfold NodeSession.onUnexpectedResponse. quiet_session. Qed.

Lemma quiet_sync_listener m : quiet m -> quiet (NodeSession.sync_listener m).
Proof. intros H. unfold NodeSession.sync_listener. quiet_session; exact H. Qed.

Lemma quiet_async_listener m : quiet m -> quiet (NodeSession.async_listener m).
Proof. intros H. unfold NodeSession.async_listener. quiet_session; exact H. Qed.

(** The [catch] block of the message handler. *)
Lemma quiet_onMessage_catch e :
  quiet (console ERROR (NodeSession.sp "[WebSocket] Message handling error:" e) ;;
         s <- get ;;
         NodeSession.safeClose (NodeSession.remote s) ;;
         platform (WsClose (Some 1011) "Internal server error")
                  NodeSession.ws_close_effect)%io.
Proof. quiet_session. Qed.

(* ================================================================== *)
(** ** Every event of a Node.js session is an abstract step            *)
(* ================================================================== *)

Lemma key_try_catch (m : IO _ unit) (h : string -> IO _ unit) w :
  (forall e, quiet (h e)) ->
  key (snd (try_catch m h w)) = key (snd (m w)).
Proof.
  intros Hh. unfold try_catch. destruct (m w) as [[a | e] w1]; cbn;
    [reflexivity | apply Hh].
Qed.

Lemma key_sync_listener (m : IO _ unit) w :
  key (snd (NodeSession.sync_listener m w)) = key (snd (m w)).
Proof.
  unfold NodeSession.sync_listener. apply key_try_catch.
  intros e. quiet_session.
Qed.

Lemma key_async_listener (m : IO _ unit) w :
  key (snd (NodeSession.async_listener m w)) = key (snd (m w)).
Proof.
  unfold NodeSession.async_listener. apply key_try_catch.
  intros e. quiet_session.
Qed.

Lemma filter_outbound_snoc (t : list action) (a : action) :
  filter outbound (t ++ [a]) =
  filter outbound t ++ (if outbound a then [a] else []).
Proof. rewrite filter_app. cbn. destruct (outbound a); reflexivity. Qed.

Section Steps.

Variable decode : Uint8Array -> string.
Variable config : NodeSession.Config.

Lemma astep_eq ev k k1 k2 : astep decode config ev k k1 -> k1 = k2 -> astep decode config ev k k2.
Proof. intros H <-. exact H. Qed.

Lemma astep_quiet ev (m : IO _ unit) w :
  (forall data, ev = NodeSession.WsMessage data ->
                NodeSession.isFirstMessage (st w) = false) ->
  quiet m -> astep decode config ev (key w) (key (snd (m w))).
Proof. intros Hev H. rewrite H. constructor. exact Hev. Qed.

Ltac key_simpl :=
  unfold key, id; cbn;
  repeat rewrite filter_outbound_snoc; cbn;
  repeat rewrite app_nil_r; repeat rewrite <- app_assoc; cbn.

Lemma firstMessage_astep data w :
  NodeSession.isFirstMessage (st w) = true ->
  astep decode config (NodeSession.WsMessage data) (key w)
        (key (snd (NodeSession.firstMessage decode config data w))).
Proof.
  intros Hfirst. unfold NodeSession.firstMessage.
  unfold io_bind at 1. cbn [modify fst snd].
  set (w1 := {| st := NodeSession.set_isFirstMessage false (st w);
                trace := trace w; calls := calls w; faults := faults w |}).
  fold (decode_result decode config data).
  destruct (decode_result decode config data) as [[msg | h] | e] eqn:D.
  - (* the header is rejected *)
    eapply astep_eq; [apply (a_rejected decode config data (key w) Hfirst) |].
    + intros h. rewrite D. discriminate.
    + symmetry.
      assert (Q : quiet (console ERROR ("[VLESS] Header parsing failed: " ++ msg) ;;
                         platform (WsClose (Some 1008) msg)
                                  NodeSession.ws_close_effect)%io)
        by quiet_session.
      rewrite Q. reflexivity.
  - (* the header is accepted *)
    unfold io_bind, modify, get, io_when, console, platform. cbn.
    destruct (NodeSession.LOG_CONNECTIONS config); cbn;
      (destruct (faults w (calls w)) eqn:F1; cbn;
       [ eapply astep_eq;
           [apply (a_connect_failed decode config data (key w) h Hfirst D) |];
         key_simpl; reflexivity
       | destruct (faults w (S (calls w))) eqn:F2; cbn;
         (eapply astep_eq;
            [apply (a_connecting decode config data (key w) h Hfirst D) |];
          key_simpl; reflexivity) ]).
  - (* the decoder threw *)
    eapply astep_eq; [apply (a_rejected decode config data (key w) Hfirst) |].
    + intros h. rewrite D. discriminate.
    + reflexivity.
Qed.

Lemma laterMessage_astep data w :
  NodeSession.isFirstMessage (st w) = false ->
  astep decode config (NodeSession.WsMessage data) (key w)
        (key (snd (NodeSession.laterMessage data w))).
Proof.
  intros Hfirst. unfold NodeSession.laterMessage.
  unfold io_bind at 1. cbn [get fst snd].
  destruct (NodeSession.remoteSocket (st w)
            && NodeSession.isHeaderProcessed (st w)
            && negb (NodeSession.destroyed (st w))) eqn:C;
    [| apply astep_quiet; [intros; exact Hfirst | quiet_session]].
  apply andb_true_iff in C. destruct C as [C _].
  apply andb_true_iff in C. destruct C as [_ Hready].
  eapply astep_eq; [apply (a_forward decode config data (key w)) |].
  - exact Hfirst.
  - exact Hready.
  - unfold platform. destruct (faults w (calls w)); key_simpl; unfold id;
      rewrite Hfirst, Hready; reflexivity.
Qed.

Lemma connectCallback_astep buffer payloadStartIndex w :
  NodeSession.onConnect (st w) = Some (buffer, payloadStartIndex) ->
  astep decode config NodeSession.SockConnect (key w)
    (key (snd ((modify (NodeSession.set_connected true) ;;
                modify (NodeSession.set_onConnect None) ;;
                NodeSession.sync_listener
                  (NodeSession.connectCallback config buffer payloadStartIndex))%io
               w))).
Proof.
  intros Hpending.
  unfold io_bind at 1 2. cbn [modify fst snd].
  rewrite key_sync_listener.
  eapply astep_eq;
    [apply (a_connected decode config (key w) buffer payloadStartIndex Hpending) |].
  unfold NodeSession.connectCallback, NodeSession.pipeRemoteToWebSocket,
         initial_payload.
  unfold io_bind, modify, get, io_when, console, platform. cbn.
  destruct (NodeSession.LOG_CONNECTIONS config); cbn;
    destruct (JS.lt payloadStartIndex (JS.length buffer)); cbn;
    try destruct (faults w _); key_simpl; reflexivity.
Qed.

Ltac quiet_handlers :=
  quiet_with ltac:(first
    [ simple apply quiet_safeClose | simple apply quiet_sync_listener
    | simple apply quiet_onClose | simple apply quiet_onError_ws
    | simple apply quiet_onUnexpectedResponse | simple apply quiet_onData
    | simple apply quiet_onEnd | simple apply quiet_onSocketError
    | simple apply quiet_onPipeError | simple apply quiet_onSocketTimeout ]).

Theorem dispatch_astep (ev : NodeSession.event) (w : World NodeSession.Vars) :
  NodeSession.crashed (st w) = false ->
  astep decode config ev (key w) (key (snd (NodeSession.dispatch decode config ev w))).
Proof.
  intros Halive.
  unfold NodeSession.dispatch. unfold io_bind at 1. cbn [get fst snd].
  rewrite Halive.
  destruct ev as [data | code reason | e | c | | chunk | | e |].
  - (* message *)
    rewrite key_async_listener. unfold NodeSession.onMessage.
    rewrite key_try_catch by (intros e; apply quiet_onMessage_catch).
    unfold io_bind at 1. cbn [get fst snd].
    destruct (NodeSession.isFirstMessage (st w)) eqn:Hfirst.
    + apply firstMessage_astep. exact Hfirst.
    + apply laterMessage_astep. exact Hfirst.
  - apply astep_quiet; [discriminate | quiet_handlers].
  - apply astep_quiet; [discriminate | quiet_handlers].
  - apply astep_quiet; [discriminate | quiet_handlers].
  - (* connect *)
    destruct (NodeSession.onConnect (st w)) as [[buffer idx] |] eqn:Hpending;
      [| constructor; discriminate].
    destruct (NodeSession.remoteSocket (st w) && negb (NodeSession.destroyed (st w)));
      [| constructor; discriminate].
    apply connectCallback_astep. exact Hpending.
  - apply astep_quiet; [discriminate | quiet_handlers].
  - apply astep_quiet; [discriminate | quiet_handlers].
  - apply astep_quiet; [discriminate | quiet_handlers].
  - apply astep_quiet; [discriminate | quiet_handlers].
Qed.

Lemma dispatch_crashed (ev : NodeSession.event) (w : World NodeSession.Vars) :
  NodeSession.crashed (st w) = true ->
  snd (NodeSession.dispatch decode config ev w) = w.
Proof.
  intros H. unfold NodeSession.dispatch. unfold io_bind at 1.
  cbn [get fst snd]. rewrite H. reflexivity.
Qed.

(** An invariant indexed by the events delivered so far holds along every
    run if a dead process and every abstract step maintain it. *)
Lemma deliver_invariant
      (I : list NodeSession.event -> World NodeSession.Vars -> Prop) :
  (forall ev seen w, I seen w -> NodeSession.crashed (st w) = true ->
                     I (seen ++ [ev]) w) ->
  (forall ev seen w w', I seen w -> NodeSession.crashed (st w) = false ->
                        astep decode config ev (key w) (key w') ->
                        w' = snd (NodeSession.dispatch decode config ev w) ->
                        I (seen ++ [ev]) w') ->
  forall evs seen w,
    I seen w -> I (seen ++ evs) (NodeSession.deliver decode config evs w).
Proof.
  intros Hdead Hstep evs. induction evs as [| ev evs IH]; intros seen w HI.
  - rewrite app_nil_r. exact HI.
  - cbn [NodeSession.deliver].
    replace (seen ++ ev :: evs) with ((seen ++ [ev]) ++ evs)
      by (rewrite <- app_assoc; reflexivity).
    apply IH.
    destruct (NodeSession.crashed (st w)) eqn:C.
    + rewrite dispatch_crashed by exact C. apply Hdead; assumption.
    + eapply Hstep; [exact HI | exact C | apply dispatch_astep; exact C
                    | reflexivity].
Qed.

End Steps.

(* ================================================================== *)
(** ** Runs of the Node.js session                                     *)
(* ================================================================== *)

Lemma messages_app (a b : list NodeSession.event) :
  messages (a ++ b) = messages a ++ messages b.
Proof.
  induction a as [| ev a IH]; [reflexivity |].
  destruct ev; cbn; rewrite IH; reflexivity.
Qed.

Lemma messages_snoc (seen : list NodeSession.event) (ev : NodeSession.event) :
  messages (seen ++ [ev]) =
  messages seen ++ match ev with NodeSession.WsMessage d => [d] | _ => [] end.
Proof. rewrite messages_app. destruct ev; reflexivity. Qed.

Lemma connect_of_outbound (t : list action) :
  filter is_connect (filter outbound t) = filter is_connect t.
Proof.
  induction t as [| a t IH]; [reflexivity |].
  destruct a; cbn; rewrite IH; reflexivity.
Qed.

Lemma writes_of_outbound (t : list action) :
  socket_writes (filter outbound t) = socket_writes t.
Proof.
  induction t as [| a t IH]; [reflexivity |].
  destruct a; cbn; rewrite IH; reflexivity.
Qed.

Lemma socket_writes_app (a b : list action) :
  socket_writes (a ++ b) = socket_writes a ++ socket_writes b.
Proof.
  induction a as [| x a IH]; [reflexivity |].
  destruct x; cbn; rewrite IH; reflexivity.
Qed.

Lemma filter_connect_app_nil (a b : list action) :
  filter is_connect a = [] -> filter is_connect b = [] ->
  filter is_connect (a ++ b) = [].
Proof. intros Ha Hb. rewrite filter_app, Ha, Hb. reflexivity. Qed.

Section Runs.

Variable decode : Uint8Array -> string.
Variable config : NodeSession.Config.

Lemma first_rejected_snoc seen ev :
  first_rejected decode config (seen ++ [ev]) ->
  first_rejected decode config seen.
Proof.
  unfold first_rejected. rewrite messages_snoc.
  destruct (messages seen); [intros; exact I | cbn; auto].
Qed.

Lemma Inv_rejected_run oracle evs :
  Inv_rejected decode config evs (NodeSession.run decode config oracle evs).
Proof.
  unfold NodeSession.run.
  change evs with ([] ++ evs) at 1.
  apply deliver_invariant.
  - (* a dead process *)
    intros ev seen w HI C Hrej.
    destruct (HI (first_rejected_snoc _ _ Hrej)) as (Hp & Hc & _).
    repeat split; auto.
  - (* a step *)
    intros ev seen w w' HI C Hstep _ Hrej.
    destruct (HI (first_rejected_snoc _ _ Hrej)) as (Hp & Hc & Hf).
    assert (Hf' : messages seen <> [] -> k_first (key w) = false).
    { intros M. destruct (Hf M) as [Hd | Hd]; congruence. }
    clear Hf HI.
    unfold first_rejected in Hrej. rewrite messages_snoc in *.
    remember (key w) as k eqn:Ek. remember (key w') as k' eqn:Ek'.
    clear Ek Ek'.
    destruct Hstep as [ev k Hq | data k Hfirst Hfail | data k h Hfirst Hok
                       | data k h Hfirst Hok | data k Hfirst Hready
                       | k buffer idx Hpend];
      cbn [k_first k_ready k_pending k_io] in *.
    + (* quiet *)
      split; [exact Hp |]. split; [exact Hc |]. intros M. right.
      destruct ev; try (apply Hf'; rewrite app_nil_r in M; exact M).
      eapply Hq. reflexivity.
    + split; [exact Hp |]. split; [exact Hc |]. intros _. right. reflexivity.
    + (* a connect was attempted: the first message was accepted *)
      exfalso. destruct (messages seen) as [| d0 l] eqn:M.
      * cbn in Hrej. eapply Hrej; eassumption.
      * rewrite Hf' in Hfirst by discriminate. discriminate.
    + exfalso. destruct (messages seen) as [| d0 l] eqn:M.
      * cbn in Hrej. eapply Hrej; eassumption.
      * rewrite Hf' in Hfirst by discriminate. discriminate.
    + (* forward *)
      split; [exact Hp |]. split; [| intros _; right; reflexivity].
      rewrite filter_app, Hc. reflexivity.
    + congruence.
  - (* start *)
    intros _. unfold NodeSession.start, NodeSession.handleWebSocketUpgrade.
    destruct (NodeSession.LOG_CONNECTIONS config); cbn;
      repeat split; auto; intros H; contradiction.
Qed.

Lemma subseq_nil_l {A} (l : list A) : subseq [] l.
Proof. induction l; constructor; assumption. Qed.

Lemma subseq_grow {A} (rest later extra : list A) :
  subseq rest later -> subseq rest (later ++ extra).
Proof.
  intros H. induction H as [| x l1 l2 H IH | x l1 l2 H IH]; cbn [app].
  - apply subseq_nil_l.
  - apply subseq_skip. exact IH.
  - apply subseq_take. exact IH.
Qed.

Lemma subseq_snoc {A} (rest later : list A) (x : A) :
  subseq rest later -> subseq (rest ++ [x]) (later ++ [x]).
Proof.
  intros H. induction H as [| y l1 l2 H IH | y l1 l2 H IH]; cbn [app].
  - apply subseq_take. apply subseq_nil.
  - apply subseq_skip. exact IH.
  - apply subseq_take. exact IH.
Qed.

Lemma Inv_order_grow seen ev w :
  messages seen <> [] ->
  Inv_order decode config seen w -> Inv_order decode config (seen ++ [ev]) w.
Proof.
  unfold Inv_order. rewrite messages_snoc.
  destruct (messages seen) as [| d later]; [contradiction |]. intros _ HI.
  cbn [app]. intros h Hd. destruct (HI h Hd) as (Hf & Hp & Hr).
  split; [exact Hf |]. split; [exact Hp |].
  destruct (k_ready (key w)); [| exact Hr].
  destruct Hr as (Hn & rest & Hw & Hall).
  split; [exact Hn |]. exists rest. split; [exact Hw |].
  apply subseq_grow. exact Hall.
Qed.

Lemma Inv_order_run oracle evs :
  Inv_order decode config evs (NodeSession.run decode config oracle evs).
Proof.
  unfold NodeSession.run.
  change evs with ([] ++ evs) at 1.
  apply deliver_invariant.
  - (* a dead process *)
    intros ev seen w HI C.
    destruct (messages seen) as [| d0 later0] eqn:M;
      [| apply Inv_order_grow; [rewrite M; discriminate | exact HI]].
    unfold Inv_order in *. rewrite messages_snoc, M in *.
    destruct HI as (Hp & Hr & Hw).
    destruct ev; cbn [app]; try (repeat split; assumption).
    intros h _. split; [left; exact C |]. split; [left; exact Hp |].
    rewrite Hr. exact Hw.
  - (* a step *)
    intros ev seen w w' HI C Hstep _.
    unfold Inv_order in *. rewrite messages_snoc.
    remember (key w) as k eqn:Ek. remember (key w') as k' eqn:Ek'.
    clear Ek Ek'.
    destruct (messages seen) as [| d later] eqn:M.
    + (* no message yet *)
      destruct HI as (Hp & Hr & Hw).
      destruct Hstep as [ev k Hq | data k Hfirst Hfail | data k h0 Hfirst Hok
                         | data k h0 Hfirst Hok | data k Hfirst Hready
                         | k buffer idx Hpend];
        cbn [k_first k_ready k_pending k_io app] in *.
      * destruct ev; cbn [app]; try (repeat split; assumption).
        intros h _. split; [right; eapply Hq; reflexivity |].
        split; [left; exact Hp |]. rewrite Hr. exact Hw.
      * intros h Hd. exfalso. eapply Hfail. exact Hd.
      * intros h Hd. split; [right; reflexivity |]. split; [left; exact Hp |].
        rewrite Hr, socket_writes_app, Hw. reflexivity.
      * intros h Hd. rewrite Hok in Hd. injection Hd as <-.
        split; [right; reflexivity |]. split; [right; reflexivity |].
        rewrite Hr, socket_writes_app, Hw. reflexivity.
      * congruence.
      * congruence.
    + (* after the first message *)
      destruct Hstep as [ev k Hq | data k Hfirst Hfail | data k h0 Hfirst Hok
                         | data k h0 Hfirst Hok | data k Hfirst Hready
                         | k buffer idx Hpend];
        cbn [k_first k_ready k_pending k_io app] in *;
        intros h Hd; destruct (HI h Hd) as (Hf & Hp & Hr);
        (destruct Hf as [Hf | Hf]; [congruence |]); try congruence.
      * split; [right; exact Hf |]. split; [exact Hp |].
        destruct (k_ready k); [| exact Hr].
        destruct Hr as (Hn & rest & Hw & Hall).
        split; [exact Hn |]. exists rest. split; [exact Hw |].
        apply subseq_grow. exact Hall.
      * rewrite Hready in Hr. destruct Hr as (Hn & rest & Hw & Hall).
        split; [right; reflexivity |]. split; [left; exact Hn |].
        split; [exact Hn |]. exists (rest ++ [data]).
        split.
        -- rewrite socket_writes_app, Hw, <- app_assoc. reflexivity.
        -- apply subseq_snoc. exact Hall.
      * destruct Hp as [Hp | Hp]; [congruence |].
        rewrite Hp in Hpend. injection Hpend as <- <-.
        destruct (k_ready k) eqn:Hready;
          [destruct Hr as (Hn & _); congruence |].
        split; [right; exact Hf |]. split; [left; reflexivity |].
        split; [reflexivity |]. exists []. rewrite app_nil_r.
        split; [| apply subseq_nil_l].
        rewrite socket_writes_app, Hr. reflexivity.
  - (* start *)
    unfold Inv_order, NodeSession.start, NodeSession.handleWebSocketUpgrade.
    destruct (NodeSession.LOG_CONNECTIONS config); cbn; auto.
Qed.

End Runs.

(* ================================================================== *)
(** ** Handling of a rejected or early message                         *)
(* ================================================================== *)

Lemma Node_rejection_closes
    (decode : Uint8Array -> string) (config : NodeSession.Config)
    (data : Uint8Array) (msg : string) (w : World NodeSession.Vars) :
  decode_result decode config data = Returned (Node.Failure msg) ->
  NodeSession.crashed (st w) = false ->
  NodeSession.isFirstMessage (st w) = true ->
  exists tail,
    trace (snd (NodeSession.dispatch decode config (NodeSession.WsMessage data) w))
    = trace w ++ Console ERROR ("[VLESS] Header parsing failed: " ++ msg)
              :: WsClose (Some 1008) msg :: tail /\
    filter is_connect tail = [].
Proof.
  intros D C Hfirst. unfold decode_result in D.
  unfold NodeSession.dispatch, NodeSession.async_listener, NodeSession.onMessage,
         NodeSession.firstMessage.
  unfold io_bind at 1. cbn [get fst snd]. rewrite C.
  unfold try_catch at 1 2. unfold io_bind at 1. cbn [get fst snd].
  rewrite Hfirst. unfold io_bind at 1. cbn [modify fst snd]. rewrite D.
  unfold NodeSession.safeClose, NodeSession.remote, NodeSession.close,
         NodeSession.destroy.
  io_unfold. cbn.
  destruct (faults w (calls w)); cbn;
    [| exists []; split; [rewrite <- app_assoc; reflexivity | reflexivity]].
  destruct (NodeSession.remoteSocket (st w)); cbn;
    [destruct (NodeSession.destroyed (st w)); cbn;
     [| destruct (faults w (S (calls w))); cbn] |];
    repeat match goal with
    | |- context [match faults ?w ?n with _ => _ end] =>
        destruct (faults w n); cbn
    end;
    eexists; (split; [repeat rewrite <- app_assoc; cbn; reflexivity
                     | reflexivity]).
Qed.

Lemma Node_early_message_dropped
    (decode : Uint8Array -> string) (config : NodeSession.Config)
    (data : Uint8Array) (w : World NodeSession.Vars) :
  NodeSession.crashed (st w) = false ->
  NodeSession.isFirstMessage (st w) = false ->
  NodeSession.isHeaderProcessed (st w) = false ->
  snd (NodeSession.dispatch decode config (NodeSession.WsMessage data) w)
  = {| st := st w;
       trace := trace w ++ [Console WARN
                  (NodeSession.tag (st w)
                   ++ " Received data before connection ready")];
       calls := calls w; faults := faults w |}.
Proof.
  intros C Hfirst Hready.
  unfold NodeSession.dispatch, NodeSession.async_listener, NodeSession.onMessage,
         NodeSession.laterMessage.
  unfold io_bind at 1. cbn [get fst snd]. rewrite C.
  unfold try_catch at 1 2. unfold io_bind at 1. cbn [get fst snd].
  rewrite Hfirst. unfold io_bind at 1. cbn [get fst snd]. rewrite Hready.
  rewrite andb_false_r. reflexivity.
Qed.

Lemma connect_of_relays (t : list action) :
  filter relays t = [] -> filter is_connect t = [].
Proof.
  induction t as [| a t IH]; [reflexivity |].
  destruct a; cbn; intros H; try discriminate H; exact (IH H).
Qed.

(** Unfolding of the Worker handlers down to the primitives. *)
Ltac worker_unfold :=
  unfold WorkerSession.dispatch, WorkerSession.listener,
         WorkerSession.onMessage, WorkerSession.onMessageError,
         WorkerSession.onWriteSettled, WorkerSession.onClose,
         WorkerSession.onError, WorkerSession.connect,
         WorkerSession.pipeRemoteToWebSocket, WorkerSession.pipe_resume,
         WorkerSession.pipe_leave, WorkerSession.getWriter,
         WorkerSession.write_and_await, WorkerSession.closeRemote,
         WorkerSession.safeCloseWebSocket, WorkerSession.readyState,
         WorkerSession.log, WorkerSession.ws_close_effect in *.

(** Without an outbound socket no handler run creates one or calls one:
    the only path to one goes through [connect]. *)
Lemma Worker_idle_dispatch
    (decode : Uint8Array -> string) (UUID : string)
    (ev : WorkerSession.event) (w : World WorkerSession.Vars) :
  Worker_idle w ->
  Worker_idle (snd (WorkerSession.dispatch decode UUID ev w)).
Proof.
  unfold Worker_idle. intros (Hr & Ha & Hp & Hc).
  remember (snd (WorkerSession.dispatch decode UUID ev w)) as w' eqn:E.
  destruct ev as [data | | e | failure | r]; worker_unfold; io_unfold;
    cbn in E; rewrite ?Hr, ?Ha, ?Hp in E; cbn in E.
  - destruct (snd (call (Worker.processVlessHeader decode data UUID)))
      as [[message | result] | e]; cbn in E;
      repeat first
        [ progress (rewrite Hr in E; cbn in E)
        | match type of E with
          | context [match faults ?w0 ?n with _ => _ end] =>
              destruct (faults w0 n); cbn in E
          | context [if ?a =? ?b then _ else _] =>
              destruct (a =? b); cbn in E
          | context [if ?a || ?b then _ else _] =>
              destruct (a || b); cbn in E
          end ];
      subst w'; cbn;
      rewrite ?filter_app, ?Hc; cbn; repeat split; assumption.
  - subst w'. cbn. rewrite ?filter_app, ?Hc. repeat split; assumption.
  - subst w'. cbn. rewrite ?filter_app, ?Hc. repeat split; assumption.
  - subst w'. repeat split; assumption.
  - subst w'. repeat split; assumption.
Qed.

Lemma Worker_idle_run
    (decode : Uint8Array -> string) (UUID : string)
    (oracle : nat -> option string) (evs : list WorkerSession.event) :
  Worker_idle (WorkerSession.run decode UUID oracle evs).
Proof.
  unfold WorkerSession.run.
  assert (H0 : Worker_idle (WorkerSession.start oracle)).
  { unfold Worker_idle, WorkerSession.start, WorkerSession.handleVlessWebSocket,
           platform.
    cbn. destruct (oracle 0%nat); cbn; repeat split; reflexivity. }
  revert H0. generalize (WorkerSession.start oracle).
  induction evs as [| ev evs IH]; intros w H; [exact H |].
  cbn [WorkerSession.deliver]. apply IH.
  apply Worker_idle_dispatch. exact H.
Qed.

(** The handler run for a message the decoder rejects, in a session
    without an outbound socket. *)
Lemma Worker_rejection_closes
    (decode : Uint8Array -> string) (UUID : string)
    (data : Uint8Array) (msg : string) (w : World WorkerSession.Vars) :
  snd (call (Worker.processVlessHeader decode data UUID))
    = Returned (Worker.Failure msg) ->
  WorkerSession.remoteSocket (st w) = false ->
  let w' := snd (WorkerSession.dispatch decode UUID (WorkerSession.WsMessage data) w) in
  exists tail,
    trace w'
    = trace w
      ++ [Console LOG ("[" ++ WorkerSession.addressRemote (st w) ++ ":"
                       ++ JS.ToString (WorkerSession.portRemote (st w))
                       ++ "] Header parse error: " ++ msg);
          WsClose (Some 1002) "Protocol error"]
      ++ tail /\
    (faults w (calls w) = None ->
     tail = [] /\ Worker_closed WorkerSession.Server (st w')).
Proof.
  intros D Hr w'. subst w'.
  remember (snd (WorkerSession.dispatch decode UUID (WorkerSession.WsMessage data) w))
    as w' eqn:E.
  worker_unfold. io_unfold. cbn in E. rewrite Hr in E. cbn in E.
  rewrite D in E. cbn in E.
  destruct (faults w (calls w)) as [e |] eqn:F1; cbn in E.
  - repeat first
      [ progress (rewrite Hr in E; cbn in E)
      | match type of E with
        | context [match faults ?w0 ?n with _ => _ end] =>
            destruct (faults w0 n); cbn in E
        | context [if ?a =? ?b then _ else _] =>
            destruct (a =? b); cbn in E
        | context [if ?a || ?b then _ else _] =>
            destruct (a || b); cbn in E
        end ];
      subst w'; cbn [trace st];
      (eexists; split;
       [repeat rewrite <- app_assoc; cbn [app]; reflexivity
       | intros H; congruence]).
  - subst w'. cbn [trace st]. exists [].
    split; [repeat rewrite <- app_assoc; reflexivity |].
    intros _. split; [reflexivity |].
    destruct (Z.eqb_spec (WorkerSession.ws_readyState (st w)) CLOSED) as [C | C];
      cbn; [rewrite C |]; split; discriminate.
Qed.

(* ================================================================== *)
(** ** Claims about the relay session                                  *)
(* ================================================================== *)


(** X19.  The Node.js session after a rejected handshake.  When the decoder
    rejects the first message, the handler run logs the error, calls
    [ws.close(1008, message)] and makes no connect call; and no connect call
    is made in the rest of the session, whatever arrives and whichever
    platform calls raise: [isFirstMessage] was cleared before decoding, so
    every later message is taken as data for a socket that does not
    exist. *)
Theorem Node_rejected_handshake_never_connects
    (decode : Uint8Array -> string) (config : NodeSession.Config)
    (oracle : nat -> option string) :
  (forall data msg w,
     decode_result decode config data = Returned (Node.Failure msg) ->
     NodeSession.crashed (st w) = false ->
     NodeSession.isFirstMessage (st w) = true ->
     exists tail,
       trace (snd (NodeSession.dispatch decode config
                     (NodeSession.WsMessage data) w))
       = trace w ++ Console ERROR ("[VLESS] Header parsing failed: " ++ msg)
                 :: WsClose (Some 1008) msg :: tail /\
       filter is_connect tail = []) /\
  (forall evs,
     first_rejected decode config evs ->
     filter is_connect (trace (NodeSession.run decode config oracle evs)) = []).
Proof.
  split.
  - intros data msg w D C F. apply Node_rejection_closes; assumption.
  - intros evs Hrej.
    destruct (Inv_rejected_run decode config oracle evs Hrej) as (_ & Hc & _).
    unfold key in Hc. cbn [k_io] in Hc. rewrite connect_of_outbound in Hc.
    exact Hc.
Qed.

(** An instance: a message with version byte 1, then a well-formed one. *)
Lemma Node_rejected_handshake_never_connects_witness :
  filter is_connect
    (trace (NodeSession.run ascii_decode sample_config no_faults
              [NodeSession.WsMessage msg_version1;
               NodeSession.WsMessage msg_ipv4;
               NodeSession.SockConnect])) = [].
Proof.
  apply (proj2 (Node_rejected_handshake_never_connects ascii_decode
                  sample_config no_faults)).
  intros h. vm_compute. discriminate.
Defined.

(** C6.  Let [d] be the first message of a Node.js session and let the
    decoder accept it.  Then the data written to the outbound socket, in
    order, is either nothing or the initial payload of [d] (when it is not
    empty) followed by later messages in their order of arrival, some of
    them possibly left out.  A later message that arrives while the
    outbound connection is not ready is not written and not held: the
    handler only logs a warning. *)
Theorem initial_payload_is_written_first
    (decode : Uint8Array -> string) (config : NodeSession.Config)
    (oracle : nat -> option string) (evs : list NodeSession.event)
    (d : Uint8Array) (later : list Uint8Array) (h : Node.Header) :
  messages evs = d :: later ->
  decode_result decode config d = Returned (Node.Success h) ->
  let writes :=
    socket_writes (trace (NodeSession.run decode config oracle evs)) in
  (writes = [] \/
   exists rest,
     writes = socket_writes (initial_payload d (Node.rawDataIndex h)) ++ rest /\
     subseq rest later) /\
  (forall x w,
     NodeSession.crashed (st w) = false ->
     NodeSession.isFirstMessage (st w) = false ->
     NodeSession.isHeaderProcessed (st w) = false ->
     snd (NodeSession.dispatch decode config (NodeSession.WsMessage x) w)
     = {| st := st w;
          trace := trace w ++ [Console WARN
                     (NodeSession.tag (st w)
                      ++ " Received data before connection ready")];
          calls := calls w; faults := faults w |}).
Proof.
  intros M D writes. split; [| intros x w; apply Node_early_message_dropped].
  pose proof (Inv_order_run decode config oracle evs) as HI.
  unfold Inv_order in HI. rewrite M in HI.
  destruct (HI h D) as (_ & _ & Hr).
  unfold key in Hr. cbn [k_io k_ready k_pending] in Hr.
  rewrite writes_of_outbound in Hr. fold writes in Hr.
  destruct (NodeSession.isHeaderProcessed _).
  - destruct Hr as (_ & rest & Hw & Hs). right. exists rest. split; assumption.
  - left. exact Hr.
Qed.

(** An instance: a message arrives before the connection is ready and is
    dropped; the payload [AA BB] is written first, then the next message. *)
Lemma initial_payload_is_written_first_witness :
  socket_writes
    (trace (NodeSession.run ascii_decode sample_config no_faults
              [NodeSession.WsMessage msg_ipv4;
               NodeSession.WsMessage (bytes_of [1; 2]);
               NodeSession.SockConnect;
               NodeSession.WsMessage (bytes_of [3])]))
  = [bytes_of [0xAA; 0xBB]; bytes_of [3]] /\
  (socket_writes
     (trace (NodeSession.run ascii_decode sample_config no_faults
               [NodeSession.WsMessage msg_ipv4;
                NodeSession.WsMessage (bytes_of [1; 2]);
                NodeSession.SockConnect;
                NodeSession.WsMessage (bytes_of [3])])) = [] \/
   exists rest,
     socket_writes
       (trace (NodeSession.run ascii_decode sample_config no_faults
                 [NodeSession.WsMessage msg_ipv4;
                  NodeSession.WsMessage (bytes_of [1; 2]);
                  NodeSession.SockConnect;
                  NodeSession.WsMessage (bytes_of [3])]))
     = [bytes_of [0xAA; 0xBB]] ++ rest /\
     subseq rest [bytes_of [1; 2]; bytes_of [3]]).
Proof.
  split; [vm_compute; reflexivity |].
  refine (proj1 (initial_payload_is_written_first ascii_decode sample_config
            no_faults _ msg_ipv4 [bytes_of [1; 2]; bytes_of [3]]
            {| Node.addressRemote := "192.168.0.1";
               Node.portRemote := Num 443;
               Node.rawDataIndex := Num 26;
               Node.vlessVersion := Num 0;
               Node.command := Num 1;
               Node.addressType := Num 1;
               Node.message := "VLESS header parsed successfully" |} _ _)).
  - reflexivity.
  - vm_compute. reflexivity.
Defined.

(** An instance: closing the open WebSocket of a fresh session twice makes
    one [close] call. *)
Lemma safe_close_is_exception_free_and_idempotent_witness :
  let w := {| st := NodeSession.initial; trace := []; calls := 0;
              faults := no_faults |} in
  fst (NodeSession.safeClose NodeSession.TheWebSocket w) = Ok tt /\
  trace (snd (NodeSession.safeClose NodeSession.TheWebSocket
                (snd (NodeSession.safeClose NodeSession.TheWebSocket w))))
  = [WsClose None ""].
Proof.
  intros w.
  pose proof (safe_close_is_exception_free_and_idempotent
                NodeSession.TheWebSocket w WorkerSession.Server
                {| st := WorkerSession.initial; trace := []; calls := 0;
                   faults := no_faults |}) as (H1 & _ & _ & _ & H5 & _).
  split; [exact H1 |].
  destruct (H5 eq_refl) as [_ Ht]. rewrite Ht. reflexivity.
Defined.

(* ================================================================== *)
(** ** The socket timeout                                              *)
(* ================================================================== *)

Lemma set_timeout_of_outbound (t : list action) :
  filter is_set_timeout (filter outbound t) = filter is_set_timeout t.
Proof.
  induction t as [| a t IH]; [reflexivity |].
  destruct a; cbn; rewrite IH; reflexivity.
Qed.

(** X12.  In every run of the Node.js session [setTimeout] is called at
    most once.  A handler run calls it only when it is the run for the first
    message and the decoder accepts that message: its calls on the outbound
    side are then [net.connect] to the decoded target followed by
    [setTimeout(CONFIG.TIMEOUT || 300000)].  Every other handler run, for
    whatever event and in whatever state, leaves the calls to [setTimeout]
    as they were: nothing arms the timeout again or clears it. *)
Theorem timeout_armed_at_most_once
    (decode : Uint8Array -> string) (config : NodeSession.Config)
    (oracle : nat -> option string) (evs : list NodeSession.event) :
  (List.length (filter is_set_timeout
                  (trace (NodeSession.run decode config oracle evs))) <= 1)%nat /\
  forall (ev : NodeSession.event) (w : World NodeSession.Vars),
    let w' := snd (NodeSession.dispatch decode config ev w) in
    filter is_set_timeout (trace w') = filter is_set_timeout (trace w) \/
    exists data h,
      ev = NodeSession.WsMessage data /\
      NodeSession.isFirstMessage (st w) = true /\
      decode_result decode config data = Returned (Node.Success h) /\
      filter outbound (trace w')
      = filter outbound (trace w)
        ++ [NetConnect (Node.addressRemote h) (Node.portRemote h);
            SocketSetTimeout (NodeSession.timeout_ms config)].
Proof.
  split.
  - pose (I := fun (_ : list NodeSession.event) (w : World NodeSession.Vars) =>
      (k_first (key w) = true -> filter is_set_timeout (k_io (key w)) = []) /\
      (List.length (filter is_set_timeout (k_io (key w))) <= 1)%nat).
    assert (H : I ([] ++ evs) (NodeSession.run decode config oracle evs)).
    { unfold NodeSession.run. apply deliver_invariant.
      - intros ev seen w HI _. exact HI.
      - intros ev seen w w' [H0 H1] _ Hstep _. unfold I.
        remember (key w) as k eqn:Ek. remember (key w') as k' eqn:Ek'.
        clear Ek Ek'.
        destruct Hstep as [ev k Hq | data k Hfirst Hfail | data k h0 Hfirst Hok
                           | data k h0 Hfirst Hok | data k Hfirst Hready
                           | k buffer idx Hpend];
          cbn [k_first k_ready k_pending k_io] in *.
        + split; assumption.
        + split; [discriminate | exact H1].
        + split; [discriminate |]. rewrite filter_app, (H0 Hfirst). cbn. lia.
        + split; [discriminate |]. rewrite filter_app, (H0 Hfirst). cbn. lia.
        + split; [discriminate |]. rewrite filter_app. cbn.
          rewrite app_nil_r. exact H1.
        + assert (E : filter is_set_timeout (initial_payload buffer idx) = []).
          { unfold initial_payload. destruct (JS.lt _ _); reflexivity. }
          rewrite filter_app, E, app_nil_r. split; assumption.
      - unfold I, NodeSession.start, NodeSession.handleWebSocketUpgrade.
        destruct (NodeSession.LOG_CONNECTIONS config); cbn; split; auto. }
    destruct H as [_ H]. unfold key in H. cbn [k_io] in H.
    rewrite set_timeout_of_outbound in H. exact H.
  - intros ev w w'.
    destruct (NodeSession.crashed (st w)) eqn:C.
    { left. unfold w'. rewrite dispatch_crashed by exact C. reflexivity. }
    pose proof (dispatch_astep decode config ev w C) as Hstep.
    fold w' in Hstep.
    rewrite <- (set_timeout_of_outbound (trace w')).
    rewrite <- (set_timeout_of_outbound (trace w)).
    change (filter outbound (trace w')) with (k_io (key w')).
    change (filter outbound (trace w)) with (k_io (key w)).
    assert (Hf : k_first (key w) = NodeSession.isFirstMessage (st w))
      by reflexivity.
    remember (key w) as k eqn:Ek. remember (key w') as k' eqn:Ek'.
    clear Ek Ek'.
    destruct Hstep as [ev k Hq | data k Hfirst Hfail | data k h0 Hfirst Hok
                       | data k h0 Hfirst Hok | data k Hfirst Hready
                       | k buffer idx Hpend];
      cbn [k_first k_ready k_pending k_io] in *.
    + left. reflexivity.
    + left. reflexivity.
    + left. rewrite filter_app. cbn. apply app_nil_r.
    + right. exists data, h0. rewrite <- Hf.
      repeat split; [exact Hfirst | exact Hok].
    + left. rewrite filter_app. cbn. apply app_nil_r.
    + left. rewrite filter_app.
      assert (E : filter is_set_timeout (initial_payload buffer idx) = []).
      { unfold initial_payload. destruct (JS.lt _ _); reflexivity. }
      rewrite E. apply app_nil_r.
Qed.

(** The timeout is armed while the connection is still being established. *)
Example timeout_armed_with_connect :
  let w := NodeSession.run ascii_decode sample_config no_faults
             [NodeSession.WsMessage msg_ipv4] in
  filter outbound (trace w)
  = [NetConnect "192.168.0.1" (Num 443); SocketSetTimeout (Num 300000)] /\
  NodeSession.connected (st w) = false /\
  NodeSession.isHeaderProcessed (st w) = false.
Proof. vm_compute. repeat split; reflexivity. Qed.

(** When the socket's timeout event is delivered, the session destroys the
    socket and closes the WebSocket, also right after data has flowed. *)
Example timeout_closes_both_connections :
  let evs := [NodeSession.WsMessage msg_ipv4; NodeSession.SockConnect;
              NodeSession.SockData (bytes_of [0xCC]);
              NodeSession.WsMessage (bytes_of [1])] in
  let before := NodeSession.run ascii_decode sample_config no_faults evs in
  let after := NodeSession.run ascii_decode sample_config no_faults
                 (evs ++ [NodeSession.SockTimeout]) in
  trace after
  = trace before ++ [Console LOG "[192.168.0.1:443] Connection timeout";
                     SocketDestroy; WsClose None ""] /\
  NodeSession.destroyed (st after) = true /\
  NodeSession.ws_readyState (st after) = CLOSING.
Proof. vm_compute. repeat split; reflexivity. Qed.

(** The relaying scenario of the design: an inbound message goes to the
    socket and a chunk read from the socket goes to the WebSocket. *)
Example relaying_forwards_both_directions :
  let w := NodeSession.run ascii_decode sample_config no_faults
             [NodeSession.WsMessage msg_empty_domain; NodeSession.SockConnect;
              NodeSession.WsMessage (bytes_of [0xAA; 0xBB]);
              NodeSession.SockData (bytes_of [0xCC])] in
  socket_writes (trace w) = [bytes_of [0xAA; 0xBB]] /\
  filter (fun a => match a with WsSend _ => true | _ => false end) (trace w)
  = [WsSend (bytes_of [0xCC])].
Proof. vm_compute. split; reflexivity. Qed.

(* ================================================================== *)
(** ** The decoders on sample messages                                 *)
(* ================================================================== *)

Example decode_ipv4 :
  call (Node.processVlessHeader ascii_decode msg_ipv4 Config.UUID_alt)
  = ([ReadIndex (Num 0); ReadSlice (Num 1) (Num 17); ReadIndex (Num 17);
      ReadIndex (Num 18); ReadIndex (Num 19); ReadIndex (Num 20);
      ReadIndex (Num 21); ReadIndex (Num 22); ReadIndex (Num 23);
      ReadIndex (Num 24); ReadIndex (Num 25)],
     Returned (Node.Success
       {| Node.addressRemote := "192.168.0.1";
          Node.portRemote := Num 443;
          Node.rawDataIndex := Num 26;
          Node.vlessVersion := Num 0;
          Node.command := Num 1;
          Node.addressType := Num 1;
          Node.message := "VLESS header parsed successfully" |})).
Proof. vm_compute. reflexivity. Qed.

Example decode_domain :
  let buffer := bytes_of ([0] ++ token ++
                  [0; 1; 0; 80; 2; 11;
                   101; 120; 97; 109; 112; 108; 101; 46; 99; 111; 109]) in
  exists t h,
    call (Node.processVlessHeader ascii_decode buffer Config.UUID_alt)
      = (t, Returned (Node.Success h)) /\
    Node.addressRemote h = "example.com" /\
    Node.portRemote h = Num 80 /\
    Node.rawDataIndex h = Num 34.
Proof.
  eexists. eexists. split; [vm_compute; reflexivity |].
  repeat split; reflexivity.
Qed.

Example decode_ipv6 :
  let buffer := bytes_of ([0] ++ token ++
                  [0; 1; 1; 187; 3;
                   0; 1; 0; 0; 0; 0; 0; 0; 0; 0; 0; 0; 0; 0; 0; 1]) in
  exists t h,
    call (Node.processVlessHeader ascii_decode buffer Config.UUID_alt)
      = (t, Returned (Node.Success h)) /\
    Node.addressRemote h = "1:0:0:0:0:0:0:1" /\
    Node.rawDataIndex h = Num 38.
Proof.
  eexists. eexists. split; [vm_compute; reflexivity |].
  repeat split; reflexivity.
Qed.

Example decode_truncated_ipv6 :
  snd (call (Node.processVlessHeader ascii_decode msg_truncated_ipv6
               Config.UUID_alt))
  = Returned (Node.Failure "Invalid VLESS header: incomplete IPv6 address").
Proof. vm_compute. reflexivity. Qed.

Example canonical_token :
  Node.dashed_hex (bytes_of token) = Config.UUID_alt /\
  Worker.bytesToUUID (bytes_of token) = Config.UUID_alt /\
  canonical_uuid Config.UUID_alt = true /\
  String.length Config.UUID = 60%nat.
Proof. vm_compute. repeat split; reflexivity. Qed.

(* ================================================================== *)
(** ** The decoders against the table of fields                        *)
(* ================================================================== *)

Lemma wrap32_small (z : Z) : - 2 ^ 31 <= z < 2 ^ 31 -> JS.wrap32 z = z.
Proof.
  intros H. unfold JS.wrap32.
  rewrite Z.mod_small by lia. lia.
Qed.

Lemma lor_high_low (hi lo : Z) :
  0 <= hi -> 0 <= lo < 256 -> Z.lor (hi * 256) lo = 256 * hi + lo.
Proof.
  intros Hhi Hlo.
  assert (L : Z.land (hi * 256) lo = 0).
  { apply Z.bits_inj'. intros n Hn. rewrite Z.land_spec, Z.bits_0.
    destruct (Z.ltb_spec n 8) as [Lt | Ge].
    - change 256 with (2 ^ 8). rewrite Z.mul_pow2_bits_low by lia. reflexivity.
    - destruct (Z.eq_dec lo 0) as [-> | Nz].
      + rewrite Z.bits_0. apply andb_false_r.
      + rewrite (Z.bits_above_log2 lo n); [apply andb_false_r | lia |].
        assert (Z.log2 lo < 8) by (apply Z.log2_lt_pow2; lia). lia. }
  pose proof (Z.add_lor_land (hi * 256) lo) as E. rewrite L in E. lia.
Qed.

(** [(hi << 8) | lo] on two bytes is the big-endian 16-bit number. *)
Lemma bor_shl_bytes (hi lo : Z) :
  0 <= hi <= 255 -> 0 <= lo <= 255 ->
  JS.bor (JS.shl (Num hi) 8) (Num lo) = Num (256 * hi + lo).
Proof.
  intros Hhi Hlo. unfold JS.bor, JS.shl, JS.ToInt32.
  rewrite (wrap32_small hi) by lia. rewrite (wrap32_small lo) by lia.
  change (8 mod 32) with 8. rewrite Z.shiftl_mul_pow2 by lia.
  change (2 ^ 8) with 256.
  rewrite !(wrap32_small (hi * 256)) by lia.
  rewrite lor_high_low by lia. reflexivity.
Qed.

Lemma byte_at_None (buf : Uint8Array) (i : Z) :
  Z.of_nat (List.length buf) <= i -> byte_at buf i = None.
Proof.
  intros H. unfold byte_at. destruct (Z.ltb_spec i 0); [reflexivity |].
  assert (E : nth_error buf (Z.to_nat i) = None) by (apply nth_error_None; lia).
  rewrite E. reflexivity.
Qed.

Lemma index_byte_at (buf : Uint8Array) (i z : Z) :
  byte_at buf i = Some z -> JS.index buf (Num i) = Num z.
Proof.
  unfold byte_at, JS.index. destruct (i <? 0); [discriminate |].
  destruct (nth_error buf (Z.to_nat i)) as [b |]; [| discriminate].
  unfold option_map, JS.of_byte. congruence.
Qed.

Lemma field_eq (buf : Uint8Array) (off n : Z) :
  0 <= off -> 0 <= n -> off + n <= Z.of_nat (List.length buf) ->
  field buf off n = firstn (Z.to_nat n) (skipn (Z.to_nat off) buf).
Proof.
  intros Hoff Hn Hle. unfold field, JS.slice, JS.relative.
  destruct (Z.ltb_spec off 0); [lia |].
  destruct (Z.ltb_spec (off + n) 0); [lia |].
  rewrite !Z.min_l by lia. f_equal. lia.
Qed.

Lemma field_length (buf : Uint8Array) (off n : Z) :
  0 <= off -> 0 <= n -> off + n <= Z.of_nat (List.length buf) ->
  List.length (field buf off n) = Z.to_nat n.
Proof.
  intros Hoff Hn Hle. rewrite field_eq by assumption.
  rewrite length_firstn, length_skipn. lia.
Qed.

(** The byte at [off + k] is the [k]-th byte of a field that starts at
    [off]. *)
Lemma byte_at_field (buf : Uint8Array) (off n : Z) (k : nat) (j : Z) :
  0 <= off -> off + n <= Z.of_nat (List.length buf) -> Z.of_nat k < n ->
  j = off + Z.of_nat k ->
  byte_at buf j = option_map value_of (nth_error (field buf off n) k).
Proof.
  intros Hoff Hle Hk ->. rewrite field_eq by lia.
  rewrite nth_error_firstn.
  destruct (Nat.ltb_spec k (Z.to_nat n)) as [_ | Hge]; [| lia].
  rewrite nth_error_skipn. unfold byte_at.
  destruct (Z.ltb_spec (off + Z.of_nat k) 0); [lia |].
  replace (Z.to_nat (off + Z.of_nat k)) with (Z.to_nat off + k)%nat by lia.
  reflexivity.
Qed.

Lemma index_field (buf : Uint8Array) (off n : Z) (k : nat) (j : Z) :
  0 <= off -> off + n <= Z.of_nat (List.length buf) -> Z.of_nat k < n ->
  j = off + Z.of_nat k ->
  JS.index buf (Num j)
  = match nth_error (field buf off n) k with
    | Some b => Num (value_of b)
    | None => Undefined
    end.
Proof.
  intros Hoff Hle Hk Hj.
  pose proof (byte_at_field buf off n k j Hoff Hle Hk Hj) as E.
  destruct (nth_error (field buf off n) k) as [b |] eqn:Hb.
  - apply index_byte_at. exact E.
  - apply nth_error_None in Hb. rewrite field_length in Hb by lia. lia.
Qed.

Lemma value_of_range (b : byte) : 0 <= value_of b <= 255.
Proof. unfold value_of. pose proof (Byte.to_N_bounded b). lia. Qed.

Lemma sat_mapM_map {R A B} (ok : access -> Prop) (f : A -> Eff R B)
      (g : A -> B) (l : list A) (P : R -> Prop) :
  (forall x, In x l -> sat ok (f x) (fun y => y = g x) P) ->
  sat ok (mapM f l) (fun ys => ys = map g l) P.
Proof.
  induction l as [| x l IH]; intros H; cbn [mapM map].
  - apply sat_ret. reflexivity.
  - eapply sat_bind; [apply H; left; reflexivity |].
    intros y ->.
    eapply sat_bind; [apply IH; intros; apply H; right; assumption |].
    intros ys ->. apply sat_ret. reflexivity.
Qed.

Lemma length_4 {A} (l : list A) :
  List.length l = 4%nat -> exists a b c d, l = [a; b; c; d].
Proof.
  intros H. do 4 (destruct l as [| ? l]; [discriminate H |]).
  destruct l; [| discriminate H]. repeat eexists.
Qed.

(** Rewrite the next buffer read as the [k]-th byte of the field. *)
Ltac nth_of_field buf off n k :=
  rewrite (index_field buf off n k) by lia.

(** The string built from four single reads is the dotted quad of the
    four-byte field. *)
Lemma ipv4_text (buf : Uint8Array) (off : Z) :
  0 <= off -> off + 4 <= Z.of_nat (List.length buf) ->
  (JS.ToString (JS.index buf (Num off)) ++ "."
   ++ JS.ToString (JS.index buf (Num (off + 1))) ++ "."
   ++ JS.ToString (JS.index buf (Num (off + 2))) ++ "."
   ++ JS.ToString (JS.index buf (Num (off + 3))))%string
  = dotted_decimal (field buf off 4).
Proof.
  intros Hoff Hle.
  destruct (length_4 (field buf off 4)) as (b0 & b1 & b2 & b3 & E);
    [rewrite field_length by lia; reflexivity |].
  nth_of_field buf off 4 0%nat. nth_of_field buf off 4 1%nat.
  nth_of_field buf off 4 2%nat. nth_of_field buf off 4 3%nat.
  rewrite E. reflexivity.
Qed.

(** The string built by the loop over byte pairs is the colon-separated
    rendering of the sixteen-byte field. *)
Lemma ipv6_text (buf : Uint8Array) (off : Z) :
  0 <= off -> off + 16 <= Z.of_nat (List.length buf) ->
  String.concat ":"
    (map (fun i => JS.toString 16
                     (JS.bor (JS.shl (JS.index buf (Num (off + i))) 8)
                             (JS.index buf (Num (off + i + 1)))))
         Node.ipv6_steps)
  = colon_hex (field buf off 16).
Proof.
  intros Hoff Hle.
  destruct (length_16 (field buf off 16))
    as (b0 & b1 & b2 & b3 & b4 & b5 & b6 & b7 & b8 & b9 & b10 & b11 & b12
        & b13 & b14 & b15 & E);
    [rewrite field_length by lia; reflexivity |].
  unfold Node.ipv6_steps. cbn [map].
  nth_of_field buf off 16 0%nat. nth_of_field buf off 16 1%nat.
  nth_of_field buf off 16 2%nat. nth_of_field buf off 16 3%nat.
  nth_of_field buf off 16 4%nat. nth_of_field buf off 16 5%nat.
  nth_of_field buf off 16 6%nat. nth_of_field buf off 16 7%nat.
  nth_of_field buf off 16 8%nat. nth_of_field buf off 16 9%nat.
  nth_of_field buf off 16 10%nat. nth_of_field buf off 16 11%nat.
  nth_of_field buf off 16 12%nat. nth_of_field buf off 16 13%nat.
  nth_of_field buf off 16 14%nat. nth_of_field buf off 16 15%nat.
  rewrite E. cbn [nth_error].
  rewrite !bor_shl_bytes by apply value_of_range.
  reflexivity.
Qed.

Section NodeRefinement.

Variable decode : Uint8Array -> string.

Lemma Node_parseIPv4_text (buffer : Uint8Array) (off : Z) (P : _ -> Prop) :
  0 <= off ->
  (Z.of_nat (List.length buffer) < off + 4 -> forall msg, P (Node.Failure msg)) ->
  sat any_access (Node.parseIPv4 buffer (Num off))
    (fun '(a, o) => a = dotted_decimal (field buffer off 4) /\
                    o = Num (off + 4) /\
                    off + 4 <= Z.of_nat (List.length buffer))
    P.
Proof.
  intros Hoff HP. unfold Node.parseIPv4, Node.fail.
  apply sat_guard; [intros G; apply lt_true in G; apply HP; exact G
                   | intros G; apply lt_false in G].
  cbn [JS.add JS.ToNumber].
  rd_any. rd_any. rd_any. rd_any. apply sat_ret.
  split; [apply ipv4_text; lia | split; [reflexivity | lia]].
Qed.

Lemma Node_parseDomain_text (buffer : Uint8Array) (off : Z) (P : _ -> Prop) :
  0 <= off ->
  (Z.of_nat (List.length buffer) < off + 1 -> forall msg, P (Node.Failure msg)) ->
  (forall d, byte_at buffer off = Some d ->
             Z.of_nat (List.length buffer) < off + 1 + d ->
             forall msg, P (Node.Failure msg)) ->
  sat any_access (Node.parseDomain decode buffer (Num off))
    (fun '(a, o) => exists d, byte_at buffer off = Some d /\
                     a = decode (field buffer (off + 1) d) /\
                     o = Num (off + (1 + d)) /\
                     off + (1 + d) <= Z.of_nat (List.length buffer))
    P.
Proof.
  intros Hoff HP1 HP2. unfold Node.parseDomain, Node.fail.
  apply sat_guard; [intros G; apply lt_true in G; apply HP1; exact G
                   | intros G; apply lt_false in G].
  cbn [JS.add JS.ToNumber].
  rd d.
  apply sat_guard; [intros G'; apply lt_true in G'; apply (HP2 d Hd); exact G'
                   | intros G'; apply lt_false in G'].
  sl. apply sat_ret. exists d. split; [exact Hd |].
  split; [reflexivity |]. split; [f_equal; lia | lia].
Qed.

Lemma Node_parseIPv6_text (buffer : Uint8Array) (off : Z) (P : _ -> Prop) :
  0 <= off ->
  (Z.of_nat (List.length buffer) < off + 16 -> forall msg, P (Node.Failure msg)) ->
  sat any_access (Node.parseIPv6 buffer (Num off))
    (fun '(a, o) => a = colon_hex (field buffer off 16) /\
                    o = Num (off + 16) /\
                    off + 16 <= Z.of_nat (List.length buffer))
    P.
Proof.
  intros Hoff HP. unfold Node.parseIPv6, Node.fail.
  apply sat_guard; [intros G; apply lt_true in G; apply HP; exact G
                   | intros G; apply lt_false in G].
  cbn [JS.add JS.ToNumber].
  eapply sat_bind.
  - apply sat_mapM_map with
      (g := fun i => JS.toString 16
                       (JS.bor (JS.shl (JS.index buffer (Num (off + i))) 8)
                               (JS.index buffer (Num (off + i + 1))))).
    intros i _. cbn [JS.add JS.ToNumber].
    rd_any. rd_any. apply sat_ret. reflexivity.
  - intros parts ->. apply sat_ret.
    split; [apply ipv6_text; lia | split; [reflexivity | lia]].
Qed.

(** The table once the fixed fields have been read and checked. *)
Lemma wire_header_address (buffer : Uint8Array) (expected : string)
      (o hi lo atype : Z) :
  23 <= Z.of_nat (List.length buffer) ->
  byte_at buffer 0 = Some 0 ->
  Node.dashed_hex (field buffer 1 16) = expected ->
  byte_at buffer 17 = Some o ->
  byte_at buffer (18 + o) = Some 1 ->
  byte_at buffer (19 + o) = Some hi ->
  byte_at buffer (20 + o) = Some lo ->
  byte_at buffer (21 + o) = Some atype ->
  wire_header decode buffer expected
  = match addressFieldWidth buffer o atype with
    | Some width =>
        if 22 + o + width <=? Z.of_nat (List.length buffer)
        then Some {|
          Node.addressRemote := address_text decode buffer o atype;
          Node.portRemote := Num (256 * hi + lo);
          Node.rawDataIndex := Num (22 + o + width);
          Node.vlessVersion := Num 0;
          Node.command := Num 1;
          Node.addressType := Num atype;
          Node.message := "VLESS header parsed successfully" |}
        else None
    | None => None
    end.
Proof.
  intros Hlen Hv Hu Ho Hc Hhi Hlo Hat. unfold wire_header.
  rewrite Hv, Ho, Hc, Hhi, Hlo, Hat.
  destruct (addressFieldWidth buffer o atype) as [w |]; [| reflexivity].
  apply Z.leb_le in Hlen. rewrite Hlen.
  apply String.eqb_eq in Hu. rewrite Hu. reflexivity.
Qed.

(** The table denotes nothing when a fixed field is missing or wrong. *)
Lemma wire_header_none (buffer : Uint8Array) (expected : string) :
  Z.of_nat (List.length buffer) < 23 \/
  (exists v, byte_at buffer 0 = Some v /\ v <> 0) \/
  Node.dashed_hex (field buffer 1 16) <> expected \/
  (exists o, byte_at buffer 17 = Some o /\
     (Z.of_nat (List.length buffer) < 22 + o \/
      exists c, byte_at buffer (18 + o) = Some c /\ c <> 1)) ->
  wire_header decode buffer expected = None.
Proof.
  intros H. unfold wire_header.
  destruct (byte_at buffer 0) as [v |] eqn:Hv; [| reflexivity].
  destruct (byte_at buffer 17) as [o |] eqn:Ho; [| reflexivity].
  destruct (byte_at buffer (18 + o)) as [c |] eqn:Hc; [| reflexivity].
  destruct (byte_at buffer (19 + o)) as [hi |] eqn:Hhi; [| reflexivity].
  destruct (byte_at buffer (20 + o)) as [lo |] eqn:Hlo; [| reflexivity].
  destruct (byte_at buffer (21 + o)) as [atype |] eqn:Hat; [| reflexivity].
  destruct (addressFieldWidth buffer o atype) as [w |]; [| reflexivity].
  destruct H as [H | [(v' & E & H) | [H | (o' & E & H)]]].
  - apply Z.leb_gt in H. rewrite H. reflexivity.
  - injection E as <-. apply Z.eqb_neq in H. rewrite H.
    rewrite andb_false_r. reflexivity.
  - apply String.eqb_neq in H. rewrite H. rewrite andb_false_r. reflexivity.
  - injection E as <-. destruct H as [H | (c' & E & H)].
    + apply byte_at_range in Hat. lia.
    + rewrite Hc in E. injection E as <-. apply Z.eqb_neq in H. rewrite H.
      rewrite andb_false_r. reflexivity.
Qed.

Lemma sat_post {R A} (ok : access -> Prop) (m : Eff R A)
      (Q Q' : A -> Prop) (P : R -> Prop) :
  sat ok m Q P -> (forall a, Q a -> Q' a) -> sat ok m Q' P.
Proof. intros H HQ. eapply sat_weaken; [exact H | exact HQ | auto]. Qed.

Lemma strict_neq_true (z k : Z) :
  JS.strict_neq (Num z) (Num k) = true -> z <> k.
Proof.
  unfold JS.strict_neq. cbn. intros H. apply negb_true_iff, Z.eqb_neq in H.
  exact H.
Qed.

(** The decoder computes the table: every failure is a buffer that denotes
    no header, every success is the header the buffer denotes. *)
Lemma Node_refines_wire (buffer : Uint8Array) (expected : string) :
  sat any_access (Node.processVlessHeader decode buffer expected)
      (wire_post decode buffer expected) (wire_post decode buffer expected).
Proof.
  unfold Node.processVlessHeader, Node.fail.
  apply sat_guard; [intros G; apply lt_true in G; apply wire_header_none; auto
                   | intros G; apply lt_false in G].
  rd version.
  apply sat_guard;
    [intros V; apply strict_neq_true in V; apply wire_header_none;
     right; left; exists version; auto
    | intros V; apply strict_neq_false in V; injection V as ->].
  sl. rewrite Node_bytesToUUID_16 by (rewrite slice_length; lia).
  rewrite bind_ret_l.
  change (JS.slice buffer (Num (0 + 1)) (Num (0 + 1 + 16)))
    with (field buffer 1 16).
  apply sat_guard;
    [intros U; apply negb_true_iff, String.eqb_neq in U;
     apply wire_header_none; auto
    | intros U; apply negb_false_iff, String.eqb_eq in U].
  rd o. change (0 + 1 + 16) with 17 in Ho.
  assert (Short : forall n, n <= 22 ->
            Z.of_nat (List.length buffer) < n + o ->
            forall msg, wire_post decode buffer expected (Node.Failure msg)).
  { intros n Hn Hlt msg. apply wire_header_none. right. right. right.
    exists o. split; [exact Ho | left; lia]. }
  apply sat_guard; [intros G1; apply lt_true in G1; apply (Short 18); lia
                   | intros G1; apply lt_false in G1].
  apply sat_guard; [intros G2; apply lt_true in G2; apply (Short 19); lia
                   | intros G2; apply lt_false in G2].
  rd cmd. replace (0 + 1 + 16 + 1 + o) with (18 + o) in Hcmd by lia.
  apply sat_guard;
    [intros C; apply negb_true_iff in C; unfold Node.validateCommand in C;
     apply wire_header_none;
     right; right; right; exists o; split; [exact Ho | right];
     exists cmd; split; [exact Hcmd |];
     intros ->; discriminate C
    | intros C; apply negb_false_iff in C; unfold Node.validateCommand in C;
      apply strict_eq_true in C; injection C as ->].
  apply sat_guard; [intros G3; apply lt_true in G3; apply (Short 21); lia
                   | intros G3; apply lt_false in G3].
  rd hi. replace (0 + 1 + 16 + 1 + o + 1) with (19 + o) in Hhi by lia.
  rd lo. replace (0 + 1 + 16 + 1 + o + 1 + 1) with (20 + o) in Hlo by lia.
  apply sat_guard; [intros G4; apply lt_true in G4; apply (Short 22); lia
                   | intros G4; apply lt_false in G4].
  rd atype. replace (0 + 1 + 16 + 1 + o + 1 + 2) with (21 + o) in Hatype by lia.
  replace (0 + 1 + 16 + 1 + o + 1 + 2 + 1) with (22 + o) by lia.
  pose proof (wire_header_address buffer expected o hi lo atype
                G Hversion U Ho Hcmd Hhi Hlo Hatype) as W.
  unfold wire_post. rewrite W. clear W.
  eapply sat_bind with
    (Q' := fun '(a, off) =>
             exists w, addressFieldWidth buffer o atype = Some w /\
                       a = address_text decode buffer o atype /\
                       off = Num (22 + o + w) /\
                       22 + o + w <= Z.of_nat (List.length buffer)).
  - unfold addressFieldWidth, address_text.
    destruct (JS.strict_eq (Num atype) (Num 1)) eqn:E1.
    { apply strict_eq_true in E1. injection E1 as ->.
      change (1 =? 1) with true. cbv iota.
      eapply sat_post; [apply Node_parseIPv4_text; [lia |] |].
      - intros Hlt msg. apply Z.leb_gt in Hlt. rewrite Hlt. reflexivity.
      - intros [a off] (-> & -> & Hle). exists 4. auto. }
    apply strict_eq_false in E1. apply Z.eqb_neq in E1. rewrite E1.
    destruct (JS.strict_eq (Num atype) (Num 2)) eqn:E2.
    { apply strict_eq_true in E2. injection E2 as ->.
      change (2 =? 2) with true. cbv iota.
      eapply sat_post; [apply Node_parseDomain_text; [lia | |] |].
      - intros Hlt msg. rewrite byte_at_None by lia. reflexivity.
      - intros d Hd Hlt msg. rewrite Hd. unfold option_map.
        replace (22 + o + (1 + d) <=? Z.of_nat (List.length buffer))
          with false by (symmetry; apply Z.leb_gt; lia).
        reflexivity.
      - intros [a off] (d & Hd & -> & -> & Hle). rewrite Hd.
        exists (1 + d). split; [reflexivity |].
        split; [f_equal; f_equal; lia |]. split; [f_equal; lia | lia]. }
    apply strict_eq_false in E2. apply Z.eqb_neq in E2. rewrite E2.
    destruct (JS.strict_eq (Num atype) (Num 3)) eqn:E3.
    { apply strict_eq_true in E3. injection E3 as ->.
      change (3 =? 3) with true. cbv iota.
      eapply sat_post; [apply Node_parseIPv6_text; [lia |] |].
      - intros Hlt msg. apply Z.leb_gt in Hlt. rewrite Hlt. reflexivity.
      - intros [a off] (-> & -> & Hle). exists 16. auto. }
    apply strict_eq_false in E3. apply Z.eqb_neq in E3. rewrite E3.
    apply sat_return. reflexivity.
  - intros [a off] (w & Hw & -> & -> & Hle). apply sat_return.
    rewrite Hw. apply Z.leb_le in Hle. rewrite Hle.
    rewrite bor_shl_bytes by lia. reflexivity.
Qed.

End NodeRefinement.

Lemma snd_call_sat {R} (ok : access -> Prop) (m : Eff R R) (P : R -> Prop) :
  sat ok m P P -> exists r, snd (call m) = Returned r /\ P r.
Proof.
  intros H. apply sat_call in H. destruct H as (t & r & E & _ & HP).
  exists r. rewrite E. split; [reflexivity | exact HP].
Qed.

(** X1.  The Node.js decoder implements the documented header layout: it
    returns a success with header [h] exactly when the buffer denotes [h]
    according to the table of fields (version 0, expected token, command 1,
    big-endian port, address rendered from its field, payload offset
    [22 + optionsLength + addressFieldWidth] inside the buffer), and it
    returns a failure exactly when the buffer denotes no header. *)
Theorem Node_decoder_computes_wire_header
    (decode : Uint8Array -> string) (buffer : Uint8Array) (expected : string) :
  (forall h,
     snd (call (Node.processVlessHeader decode buffer expected))
       = Returned (Node.Success h)
     <-> wire_header decode buffer expected = Some h) /\
  ((exists msg,
      snd (call (Node.processVlessHeader decode buffer expected))
        = Returned (Node.Failure msg))
   <-> wire_header decode buffer expected = None).
Proof.
  destruct (snd_call_sat _ _ _ (Node_refines_wire decode buffer expected))
    as (r & E & HP).
  rewrite E. split.
  - intros h. split.
    + intros [= ->]. exact HP.
    + intros W. destruct r as [msg | h']; cbn in HP.
      * congruence.
      * rewrite HP in W. injection W as ->. reflexivity.
  - split.
    + intros (msg & [= ->]). exact HP.
    + intros W. destruct r as [msg | h']; cbn in HP.
      * exists msg. reflexivity.
      * congruence.
Qed.

(** What a denoted header says about the buffer. *)
Lemma wire_header_inv (decode : Uint8Array -> string) (buffer : Uint8Array)
      (expected : string) (h : Node.Header) :
  wire_header decode buffer expected = Some h ->
  exists o hi lo atype w,
    23 <= Z.of_nat (List.length buffer) /\
    byte_at buffer 0 = Some 0 /\
    Node.dashed_hex (field buffer 1 16) = expected /\
    byte_at buffer 17 = Some o /\
    byte_at buffer (18 + o) = Some 1 /\
    byte_at buffer (19 + o) = Some hi /\
    byte_at buffer (20 + o) = Some lo /\
    byte_at buffer (21 + o) = Some atype /\
    addressFieldWidth buffer o atype = Some w /\
    22 + o + w <= Z.of_nat (List.length buffer) /\
    h = {| Node.addressRemote := address_text decode buffer o atype;
           Node.portRemote := Num (256 * hi + lo);
           Node.rawDataIndex := Num (22 + o + w);
           Node.vlessVersion := Num 0;
           Node.command := Num 1;
           Node.addressType := Num atype;
           Node.message := "VLESS header parsed successfully" |}.
Proof.
  unfold wire_header.
  destruct (byte_at buffer 0) as [v |] eqn:Hv; [| discriminate].
  destruct (byte_at buffer 17) as [o |] eqn:Ho; [| discriminate].
  destruct (byte_at buffer (18 + o)) as [c |] eqn:Hc; [| discriminate].
  destruct (byte_at buffer (19 + o)) as [hi |] eqn:Hhi; [| discriminate].
  destruct (byte_at buffer (20 + o)) as [lo |] eqn:Hlo; [| discriminate].
  destruct (byte_at buffer (21 + o)) as [atype |] eqn:Hat; [| discriminate].
  destruct (addressFieldWidth buffer o atype) as [w |] eqn:Hw; [| discriminate].
  destruct (_ && _) eqn:C; [| discriminate].
  intros [= <-].
  repeat (apply andb_true_iff in C; destruct C as [C ?]).
  exists o, hi, lo, atype, w.
  repeat match goal with
  | H : (_ <=? _) = true |- _ => apply Z.leb_le in H
  | H : (_ =? _) = true |- _ => apply Z.eqb_eq in H
  | H : String.eqb _ _ = true |- _ => apply String.eqb_eq in H
  end.
  subst v c. repeat split; assumption.
Qed.

Lemma ipv6_text_at (buf : Uint8Array) (off : Z) (ia ib : Z -> Z) :
  0 <= off -> off + 16 <= Z.of_nat (List.length buf) ->
  (forall i, ia i = off + i) -> (forall i, ib i = off + i + 1) ->
  String.concat ":"
    (map (fun i => JS.toString 16
                     (JS.bor (JS.shl (JS.index buf (Num (ia i))) 8)
                             (JS.index buf (Num (ib i)))))
         Worker.ipv6_steps)
  = colon_hex (field buf off 16).
Proof.
  intros Hoff Hle Ha Hb. rewrite <- ipv6_text by assumption.
  f_equal. apply map_ext. intros i. rewrite Ha, Hb. reflexivity.
Qed.

(** On a buffer of at least 24 bytes that denotes a header, the compact
    decoder returns the same host, port, payload offset and command. *)
Lemma Worker_on_wire (decode : Uint8Array -> string) (buffer : Uint8Array)
      (expected : string) (h : Node.Header) :
  24 <= Z.of_nat (List.length buffer) ->
  wire_header decode buffer expected = Some h ->
  sat any_access (Worker.processVlessHeader decode buffer expected)
      (fun r => r = Worker.Success (Worker_view h))
      (fun r => r = Worker.Success (Worker_view h)).
Proof.
  intros Hlen W. apply wire_header_inv in W.
  destruct W as (o & hi & lo & atype & w & _ & Hv & Hu & Ho & Hc & Hhi & Hlo
                 & Hat & Hw & Hle & ->).
  pose proof (byte_at_range _ _ _ Ho) as [Ro _].
  pose proof (addressFieldWidth_range _ _ _ _ Hw) as Rw.
  unfold Worker.processVlessHeader, Worker.fail.
  apply sat_guard; [intros G; apply lt_true in G; lia | intros _].
  rd version. rewrite Hv in Hversion. injection Hversion as <-.
  apply sat_guard; [discriminate | intros _].
  sl. change (JS.slice buffer (Num 1) (Num 17)) with (field buffer 1 16).
  destruct (dashed_hex_16 (field buffer 1 16)) as [_ ->];
    [rewrite field_length by lia; reflexivity |].
  rewrite Hu, String.eqb_refl.
  apply sat_guard; [discriminate | intros _].
  rd o'. rewrite Ho in Ho'. injection Ho' as <-.
  rd cmd. rewrite Hc in Hcmd. injection Hcmd as <-.
  apply sat_guard; [discriminate | intros _].
  rd hi'. replace (18 + o + 1) with (19 + o) in Hhi' by lia.
  rewrite Hhi in Hhi'. injection Hhi' as <-.
  rd lo'. replace (18 + o + 1 + 1) with (20 + o) in Hlo' by lia.
  rewrite Hlo in Hlo'. injection Hlo' as <-.
  rd atype'. replace (18 + o + 1 + 2) with (21 + o) in Hatype' by lia.
  rewrite Hat in Hatype'. injection Hatype' as <-.
  rewrite bor_shl_bytes by lia.
  eapply sat_bind with
    (Q' := fun p => p = (Num w, address_text decode buffer o atype)).
  - unfold Worker.parseAddress, Worker.fail.
    unfold addressFieldWidth in Hw. unfold address_text.
    destruct (JS.strict_eq (Num atype) (Num 1)) eqn:E1.
    { apply strict_eq_true in E1. injection E1 as ->.
      change (1 =? 1) with true in *. cbv iota in *. injection Hw as <-.
      sl. cbn [JS.add JS.ToNumber]. apply sat_ret.
      replace (18 + o + 1 + 2 + 1) with (22 + o) by lia.
      reflexivity. }
    apply strict_eq_false in E1. apply Z.eqb_neq in E1. rewrite E1 in *.
    destruct (JS.strict_eq (Num atype) (Num 2)) eqn:E2.
    { apply strict_eq_true in E2. injection E2 as ->.
      change (2 =? 2) with true in *. cbv iota in *.
      destruct (byte_at buffer (22 + o)) as [d |] eqn:Hd; [| discriminate Hw].
      unfold option_map in Hw. injection Hw as <-.
      pose proof (byte_at_range _ _ _ Hd) as [Rd _].
      rd d'. replace (18 + o + 1 + 2 + 1) with (22 + o) in Hd' by lia.
      rewrite Hd in Hd'. injection Hd' as <-.
      sl. cbn [JS.add JS.ToNumber]. apply sat_ret.
      replace (18 + o + 1 + 2 + 2) with (23 + o) by lia.
      replace (d + 1) with (1 + d) by lia.
      reflexivity. }
    apply strict_eq_false in E2. apply Z.eqb_neq in E2. rewrite E2 in *.
    destruct (JS.strict_eq (Num atype) (Num 3)) eqn:E3.
    { apply strict_eq_true in E3. injection E3 as ->.
      change (3 =? 3) with true in *. cbv iota in *. injection Hw as <-.
      eapply sat_bind.
      - apply sat_mapM_map with
          (g := fun i => JS.toString 16
                   (JS.bor (JS.shl (JS.index buffer (Num (18 + o + 1 + 2 + 1 + i))) 8)
                           (JS.index buffer (Num (18 + o + 1 + 2 + 2 + i))))).
        intros i _. cbn [JS.add JS.ToNumber].
        rd_any. rd_any. apply sat_ret. reflexivity.
      - intros parts ->. apply sat_ret.
        rewrite (ipv6_text_at buffer (22 + o)) by (intros; lia).
        reflexivity. }
    apply strict_eq_false in E3. apply Z.eqb_neq in E3. rewrite E3 in Hw.
    discriminate Hw.
  - intros p ->. apply sat_return. unfold Worker_view.
    cbn [JS.add JS.ToNumber Node.addressRemote Node.portRemote
         Node.rawDataIndex Node.command].
    replace (18 + o + 1 + 2 + 1 + w) with (22 + o + w) by lia.
    reflexivity.
Qed.

(* ================================================================== *)
(** ** What an accepted buffer tells                                   *)
(* ================================================================== *)

Lemma Node_success_wire (decode : Uint8Array -> string) (buffer : Uint8Array)
      (expected : string) (h : Node.Header) :
  snd (call (Node.processVlessHeader decode buffer expected))
    = Returned (Node.Success h) ->
  wire_header decode buffer expected = Some h.
Proof.
  destruct (snd_call_sat _ _ _ (Node_refines_wire decode buffer expected))
    as (r & E & HP).
  rewrite E. intros [= ->]. exact HP.
Qed.

Lemma Node_wire_success (decode : Uint8Array -> string) (buffer : Uint8Array)
      (expected : string) (h : Node.Header) :
  wire_header decode buffer expected = Some h ->
  snd (call (Node.processVlessHeader decode buffer expected))
    = Returned (Node.Success h).
Proof.
  destruct (snd_call_sat _ _ _ (Node_refines_wire decode buffer expected))
    as (r & E & HP).
  rewrite E. intros W. destruct r as [msg | h']; cbn in HP; congruence.
Qed.

Lemma byte_at_Some (buf : Uint8Array) (i : Z) :
  0 <= i < Z.of_nat (List.length buf) -> exists z, byte_at buf i = Some z.
Proof.
  intros Hi. unfold byte_at. destruct (Z.ltb_spec i 0); [lia |].
  destruct (nth_error buf (Z.to_nat i)) as [b |] eqn:Hb.
  - eexists. reflexivity.
  - apply nth_error_None in Hb. lia.
Qed.

(** A success of the compact decoder with a payload offset inside the
    buffer is a header the buffer denotes. *)
Lemma Worker_in_range_wire (decode : Uint8Array -> string)
      (buffer : Uint8Array) (expected : string) (h' : Worker.Header) (n : Z) :
  snd (call (Worker.processVlessHeader decode buffer expected))
    = Returned (Worker.Success h') ->
  Worker.rawDataIndex h' = Num n ->
  n <= Z.of_nat (List.length buffer) ->
  exists h, wire_header decode buffer expected = Some h.
Proof.
  intros E Hn Hle.
  destruct (snd_call_sat _ _ _
              (Worker_processVlessHeader_sat decode buffer expected))
    as (r & Er & HP).
  rewrite E in Er. injection Er as <-.
  destruct HP as (Hlen & Hv & Hu & o & atype & Ho & Hc & Hat & Hraw).
  rewrite Hn in Hraw.
  destruct (addressFieldWidth buffer o atype) as [w |] eqn:Hw;
    [| discriminate Hraw].
  assert (En : n = 22 + o + w) by congruence.
  pose proof (byte_at_range _ _ _ Ho) as [Ro _].
  pose proof (byte_at_range _ _ _ Hat) as [_ Rat].
  destruct (byte_at_Some buffer (19 + o)) as [hi Hhi]; [lia |].
  destruct (byte_at_Some buffer (20 + o)) as [lo Hlo]; [lia |].
  assert (L : List.length (field buffer 1 16) = 16%nat)
    by (rewrite field_length by lia; reflexivity).
  destruct (dashed_hex_16 _ L) as [_ Eu].
  change (JS.slice buffer (Num 1) (Num 17)) with (field buffer 1 16) in Hu.
  rewrite Eu in Hu.
  eexists.
  rewrite (wire_header_address decode buffer expected o hi lo atype)
    by (try assumption; lia).
  rewrite Hw.
  replace (22 + o + w <=? Z.of_nat (List.length buffer)) with true
    by (symmetry; apply Z.leb_le; lia).
  reflexivity.
Qed.

(** X2.  On buffers of at least 24 bytes the two decoders differ only where
    the compact one computes a payload offset that is not inside the
    buffer: it accepts a buffer with an offset inside the buffer exactly
    when the Node.js decoder accepts it, and then it returns the same host,
    port, payload offset and command. *)
Theorem Worker_decoder_agrees_with_Node
    (decode : Uint8Array -> string) (buffer : Uint8Array) (expected : string)
    (h' : Worker.Header) :
  24 <= Z.of_nat (List.length buffer) ->
  (snd (call (Worker.processVlessHeader decode buffer expected))
     = Returned (Worker.Success h') /\
   exists n, Worker.rawDataIndex h' = Num n /\
             n <= Z.of_nat (List.length buffer))
  <->
  (exists h,
     snd (call (Node.processVlessHeader decode buffer expected))
       = Returned (Node.Success h) /\
     h' = Worker_view h).
Proof.
  intros Hlen. split.
  - intros (E & n & Hn & Hle).
    destruct (Worker_in_range_wire decode buffer expected h' n E Hn Hle)
      as (h & W).
    exists h. split; [apply Node_wire_success; exact W |].
    destruct (snd_call_sat _ _ _ (Worker_on_wire decode buffer expected h Hlen W))
      as (r & Er & ->).
    congruence.
  - intros (h & E & ->). apply Node_success_wire in E.
    split.
    + destruct (snd_call_sat _ _ _
                  (Worker_on_wire decode buffer expected h Hlen E))
        as (r & Er & ->).
      exact Er.
    + apply wire_header_inv in E.
      destruct E as (o & hi & lo & atype & w & _ & _ & _ & _ & _ & _ & _ & _
                     & _ & Hle & ->).
      exists (22 + o + w). split; [reflexivity | exact Hle].
Qed.

(** An instance: the IPv4 sample message. *)
Lemma Worker_decoder_agrees_with_Node_witness :
  snd (call (Worker.processVlessHeader ascii_decode msg_ipv4 Config.UUID_alt))
  = Returned (Worker.Success
      {| Worker.addressRemote := "192.168.0.1";
         Worker.portRemote := Num 443;
         Worker.rawDataIndex := Num 26;
         Worker.command := Num 1 |}).
Proof.
  refine (proj1 (proj2 (Worker_decoder_agrees_with_Node ascii_decode msg_ipv4
                          Config.UUID_alt _ _) _)).
  - vm_compute. discriminate.
  - exists {| Node.addressRemote := "192.168.0.1";
              Node.portRemote := Num 443;
              Node.rawDataIndex := Num 26;
              Node.vlessVersion := Num 0;
              Node.command := Num 1;
              Node.addressType := Num 1;
              Node.message := "VLESS header parsed successfully" |}.
    split; [vm_compute; reflexivity | reflexivity].
Defined.

Lemma unhex2_hex2 (b : byte) : unhex2 (Node.hex2 b) = Some b.
Proof. destruct b; reflexivity. Qed.

Lemma hex2_inj (a b : byte) : Node.hex2 a = Node.hex2 b -> a = b.
Proof.
  intros H. apply (f_equal unhex2) in H. rewrite !unhex2_hex2 in H.
  congruence.
Qed.

(** Distinct 16-byte tokens have distinct canonical forms. *)
Lemma dashed_hex_inj (a b : Uint8Array) :
  List.length a = 16%nat -> List.length b = 16%nat ->
  Node.dashed_hex a = Node.dashed_hex b -> a = b.
Proof.
  intros Ha Hb. apply length_16 in Ha. apply length_16 in Hb.
  destruct Ha as (a0 & a1 & a2 & a3 & a4 & a5 & a6 & a7 & a8 & a9 & a10 & a11
                  & a12 & a13 & a14 & a15 & ->).
  destruct Hb as (b0 & b1 & b2 & b3 & b4 & b5 & b6 & b7 & b8 & b9 & b10 & b11
                  & b12 & b13 & b14 & b15 & ->).
  unfold Node.dashed_hex. cbn [map].
  repeat match goal with
  | |- context [Node.hex2 ?x] =>
      let c := fresh "c" in let d := fresh "d" in let E := fresh "E" in
      destruct (hex2_form x) as (c & d & E & _ & _);
      rewrite E; apply (f_equal unhex2) in E; rewrite unhex2_hex2 in E
  end.
  cbn. intros H. injection H as <-. 
  repeat match goal with H : _ = _ :> ascii |- _ => subst end.
  congruence.
Qed.

(** X3.  Authentication compares all sixteen token bytes: when the expected
    token is the canonical form of the 16 bytes [tok], either decoder
    accepts a buffer only if its bytes 1 to 16 are exactly [tok]. *)
Theorem accepted_buffer_carries_the_token
    (decode : Uint8Array -> string) (buffer tok : Uint8Array) :
  List.length tok = 16%nat ->
  (forall h,
     snd (call (Node.processVlessHeader decode buffer (Node.dashed_hex tok)))
       = Returned (Node.Success h) ->
     JS.slice buffer (Num 1) (Num 17) = tok) /\
  (forall h,
     snd (call (Worker.processVlessHeader decode buffer
                  (Worker.bytesToUUID tok)))
       = Returned (Worker.Success h) ->
     JS.slice buffer (Num 1) (Num 17) = tok).
Proof.
  intros Htok. split; intros h E.
  - apply Node_success_wire, wire_header_inv in E.
    destruct E as (o & hi & lo & atype & w & Hlen & _ & Hu & _).
    apply dashed_hex_inj; [apply slice_1_17_length; lia | exact Htok |].
    exact Hu.
  - destruct (call (Worker.processVlessHeader decode buffer
                      (Worker.bytesToUUID tok))) as [t r] eqn:C.
    cbn [snd] in E. subst r.
    apply Worker_success_token in C. destruct C as [Hu Hlen].
    assert (L : List.length (JS.slice buffer (Num 1) (Num 17)) = 16%nat)
      by (apply slice_1_17_length; lia).
    destruct (dashed_hex_16 _ L) as [_ E1].
    destruct (dashed_hex_16 _ Htok) as [_ E2].
    rewrite E1, E2 in Hu.
    apply dashed_hex_inj; assumption.
Qed.

(** An instance: the IPv4 sample message and the sample token. *)
Lemma accepted_buffer_carries_the_token_witness :
  JS.slice msg_ipv4 (Num 1) (Num 17) = bytes_of token.
Proof.
  pose proof (accepted_buffer_carries_the_token ascii_decode msg_ipv4
                (bytes_of token) eq_refl) as [HNode _].
  eapply HNode. vm_compute. reflexivity.
Defined.

Lemma byte_at_prefix (buf tail : Uint8Array) (n i : Z) :
  0 <= n <= Z.of_nat (List.length buf) -> i < n ->
  byte_at (firstn (Z.to_nat n) buf ++ tail) i = byte_at buf i.
Proof.
  intros Hn Hi. unfold byte_at. destruct (Z.ltb_spec i 0); [reflexivity |].
  f_equal. rewrite nth_error_app1 by (rewrite length_firstn; lia).
  rewrite nth_error_firstn.
  destruct (Nat.ltb_spec (Z.to_nat i) (Z.to_nat n)); [reflexivity | lia].
Qed.

Lemma field_prefix (buf tail : Uint8Array) (n i k : Z) :
  0 <= n <= Z.of_nat (List.length buf) -> 0 <= i -> 0 <= k -> i + k <= n ->
  field (firstn (Z.to_nat n) buf ++ tail) i k = field buf i k.
Proof.
  intros Hn Hi Hk Hle.
  rewrite !field_eq; try lia;
    [| rewrite length_app, length_firstn; lia].
  rewrite <- (firstn_skipn (Z.to_nat n) buf) at 2.
  rewrite !skipn_app, !firstn_app.
  rewrite !length_skipn, !length_firstn.
  replace (Z.to_nat k - (Nat.min (Z.to_nat n) (List.length buf) - Z.to_nat i))%nat
    with 0%nat by lia.
  rewrite !firstn_O. reflexivity.
Qed.

(** X4.  The decoder does not look at the payload: if a buffer is accepted
    with payload offset [n], then the first [n] bytes followed by any other
    payload are accepted with the same header. *)
Theorem header_is_independent_of_the_payload
    (decode : Uint8Array -> string) (buffer payload : Uint8Array)
    (expected : string) (h : Node.Header) (n : Z) :
  snd (call (Node.processVlessHeader decode buffer expected))
    = Returned (Node.Success h) ->
  Node.rawDataIndex h = Num n ->
  snd (call (Node.processVlessHeader decode
               (firstn (Z.to_nat n) buffer ++ payload) expected))
    = Returned (Node.Success h).
Proof.
  intros E Hn. apply Node_success_wire, wire_header_inv in E.
  destruct E as (o & hi & lo & atype & w & Hlen & Hv & Hu & Ho & Hc & Hhi
                 & Hlo & Hat & Hw & Hle & ->).
  assert (En : n = 22 + o + w) by (cbn [Node.rawDataIndex] in Hn; congruence).
  clear Hn.
  pose proof (byte_at_range _ _ _ Ho) as [Ro _].
  pose proof (addressFieldWidth_range _ _ _ _ Hw) as Rw.
  set (buffer' := firstn (Z.to_nat n) buffer ++ payload).
  assert (B : forall i, i < n -> byte_at buffer' i = byte_at buffer i)
    by (intros i Hi; apply byte_at_prefix; lia).
  assert (F : forall i k, 0 <= i -> 0 <= k -> i + k <= n ->
                          field buffer' i k = field buffer i k)
    by (intros i k Hi Hk Hik; apply field_prefix; lia).
  assert (Hlen' : 23 <= Z.of_nat (List.length buffer')).
  { unfold buffer'. rewrite length_app, length_firstn. lia. }
  assert (Hw' : addressFieldWidth buffer' o atype = Some w).
  { rewrite <- Hw. unfold addressFieldWidth in *.
    destruct (atype =? 1); [reflexivity |].
    destruct (atype =? 2); [| reflexivity].
    rewrite B; [reflexivity | subst n; lia]. }
  assert (Ha : address_text decode buffer' o atype
               = address_text decode buffer o atype).
  { unfold address_text. unfold addressFieldWidth in Hw.
    destruct (atype =? 1).
    { injection Hw as <-. rewrite F by lia. reflexivity. }
    destruct (atype =? 2).
    { destruct (byte_at buffer (22 + o)) as [d |] eqn:Hd; [| discriminate Hw].
      unfold option_map in Hw. assert (Ew : w = 1 + d) by congruence.
      pose proof (byte_at_range _ _ _ Hd) as [Rd _].
      rewrite B by lia. rewrite Hd.
      rewrite F by lia. reflexivity. }
    destruct (atype =? 3); [| discriminate Hw].
    injection Hw as <-. rewrite F by lia. reflexivity. }
  apply Node_wire_success.
  rewrite (wire_header_address decode buffer' expected o hi lo atype);
    try (rewrite B by lia; assumption); try assumption.
  - rewrite Hw', Ha.
    replace (22 + o + w <=? Z.of_nat (List.length buffer')) with true;
      [reflexivity |].
    symmetry. apply Z.leb_le. unfold buffer'.
    rewrite length_app, length_firstn. lia.
  - rewrite F by lia. exact Hu.
Qed.

(** An instance: the IPv4 sample message with another payload. *)
Lemma header_is_independent_of_the_payload_witness :
  snd (call (Node.processVlessHeader ascii_decode
               (firstn (Z.to_nat 26) msg_ipv4 ++ bytes_of [1; 2; 3])
               Config.UUID_alt))
  = snd (call (Node.processVlessHeader ascii_decode msg_ipv4 Config.UUID_alt)).
Proof.
  apply (header_is_independent_of_the_payload ascii_decode msg_ipv4
           (bytes_of [1; 2; 3]) Config.UUID_alt _ 26).
  - vm_compute. reflexivity.
  - reflexivity.
Defined.

(* ================================================================== *)
(** ** The outbound connection of a Node.js session                    *)
(* ================================================================== *)

Lemma connect_of_initial_payload (buffer : Uint8Array) (idx : JS.value) :
  filter is_connect (initial_payload buffer idx) = [].
Proof. unfold initial_payload. destruct (JS.lt _ _); reflexivity. Qed.

(** X6.  A Node.js session calls [net.connect] at most once, whatever
    events arrive and whichever platform calls raise; when it does, the
    first message of the session denotes a header and the call is made to
    the host and the port of that header. *)
Theorem Node_connects_once_to_the_decoded_target
    (decode : Uint8Array -> string) (config : NodeSession.Config)
    (oracle : nat -> option string) (evs : list NodeSession.event) :
  let connects :=
    filter is_connect (trace (NodeSession.run decode config oracle evs)) in
  connects = [] \/
  exists d later h,
    messages evs = d :: later /\
    wire_header decode d (NodeSession.UUID config) = Some h /\
    connects = [NetConnect (Node.addressRemote h) (Node.portRemote h)].
Proof.
  pose (I := fun (seen : list NodeSession.event) (w : World NodeSession.Vars) =>
    match messages seen with
    | [] => k_first (key w) = true /\ filter is_connect (k_io (key w)) = []
    | d :: _ =>
        (NodeSession.crashed (st w) = true \/ k_first (key w) = false) /\
        (filter is_connect (k_io (key w)) = [] \/
         exists h, decode_result decode config d = Returned (Node.Success h) /\
                   filter is_connect (k_io (key w))
                   = [NetConnect (Node.addressRemote h) (Node.portRemote h)])
    end).
  assert (H : I ([] ++ evs) (NodeSession.run decode config oracle evs)).
  { unfold NodeSession.run. apply deliver_invariant.
    - (* a dead process *)
      intros ev seen w HI C. unfold I in *. rewrite messages_snoc.
      destruct (messages seen) as [| d l].
      + destruct HI as [Hf Hc]. destruct ev; cbn [app]; auto.
      + exact HI.
    - (* a step *)
      intros ev seen w w' HI C Hstep _. unfold I in *. rewrite messages_snoc.
      remember (key w) as k eqn:Ek. remember (key w') as k' eqn:Ek'.
      clear Ek Ek'.
      destruct (messages seen) as [| d l]; cbn [app].
      + destruct HI as [Hf Hc].
        destruct Hstep as [ev k Hq | data k Hfirst Hfail | data k h Hfirst Hok
                           | data k h Hfirst Hok | data k Hfirst Hready
                           | k buffer idx Hpend];
          cbn [k_first k_ready k_pending k_io] in *.
        * destruct ev; try (split; assumption).
          rewrite (Hq _ eq_refl) in Hf. discriminate.
        * split; [right; reflexivity | left; exact Hc].
        * split; [right; reflexivity | right]. exists h.
          split; [exact Hok |]. rewrite filter_app, Hc. reflexivity.
        * split; [right; reflexivity | right]. exists h.
          split; [exact Hok |]. rewrite filter_app, Hc. reflexivity.
        * congruence.
        * split; [exact Hf |].
          rewrite filter_app, Hc, connect_of_initial_payload. reflexivity.
      + destruct HI as [Hf Hc].
        assert (Hf' : k_first k = false) by (destruct Hf; congruence).
        assert (Same : forall io : list action,
                  filter is_connect io = filter is_connect (k_io k) ->
                  filter is_connect io = [] \/
                  exists h, decode_result decode config d
                            = Returned (Node.Success h) /\
                            filter is_connect io
                            = [NetConnect (Node.addressRemote h)
                                          (Node.portRemote h)]).
        { intros io E. rewrite E. exact Hc. }
        destruct Hstep as [ev k Hq | data k Hfirst Hfail | data k h Hfirst Hok
                           | data k h Hfirst Hok | data k Hfirst Hready
                           | k buffer idx Hpend];
          cbn [k_first k_ready k_pending k_io] in *; try congruence.
        * destruct ev; cbn [app]; split; auto.
        * split; [right; reflexivity |]. apply Same.
          rewrite filter_app. cbn. apply app_nil_r.
        * split; [right; exact Hf' |]. apply Same.
          rewrite filter_app, connect_of_initial_payload. apply app_nil_r.
    - (* start *)
      unfold I, NodeSession.start, NodeSession.handleWebSocketUpgrade.
      destruct (NodeSession.LOG_CONNECTIONS config); cbn; split; reflexivity. }
  unfold I in H. cbn [app] in H. unfold key in H. cbn [k_io k_first] in H.
  rewrite connect_of_outbound in H. cbv zeta.
  destruct (messages evs) as [| d later].
  - left. apply H.
  - destruct H as [_ [Hc | (h & Hok & Hc)]]; [left; exact Hc | right].
    exists d, later, h. split; [reflexivity |].
    split; [apply Node_success_wire; exact Hok | exact Hc].
Qed.

(** X7.  A configured token that is not in canonical form locks everybody
    out: the decoder rejects every first message, so the session never
    calls [net.connect].  The [CONFIG.UUID] of [config.js] (60 characters)
    is such a token. *)
Theorem non_canonical_token_never_connects
    (decode : Uint8Array -> string) (config : NodeSession.Config)
    (oracle : nat -> option string) (evs : list NodeSession.event) :
  canonical_uuid (NodeSession.UUID config) = false ->
  filter is_connect (trace (NodeSession.run decode config oracle evs)) = [].
Proof.
  intros Hshape.
  assert (Hrej : first_rejected decode config evs).
  { unfold first_rejected. destruct (messages evs) as [| d l]; [exact I |].
    intros h E. unfold decode_result in E.
    apply Node_success_wire, wire_header_inv in E.
    destruct E as (o & hi & lo & atype & w & Hlen & _ & Hu & _).
    assert (L : List.length (field d 1 16) = 16%nat)
      by (rewrite field_length by lia; reflexivity).
    destruct (dashed_hex_16 _ L) as [Hc _].
    rewrite Hu in Hc. congruence. }
  destruct (Inv_rejected_run decode config oracle evs Hrej) as (_ & Hc & _).
  unfold key in Hc. cbn [k_io] in Hc. rewrite connect_of_outbound in Hc.
  exact Hc.
Qed.

(** An instance: the shipped configuration and a well-formed handshake. *)
Lemma non_canonical_token_never_connects_witness :
  filter is_connect
    (trace (NodeSession.run ascii_decode CONFIG no_faults
              [NodeSession.WsMessage msg_ipv4; NodeSession.SockConnect])) = [].
Proof.
  apply (non_canonical_token_never_connects ascii_decode CONFIG no_faults).
  reflexivity.
Defined.

(* ================================================================== *)
(** ** Actions that stay within a relation                             *)
(* ================================================================== *)

Section Respects.

Context {S : Type} (R : World S -> World S -> Prop).
Hypothesis R_refl : forall w, R w w.
Hypothesis R_trans : forall w1 w2 w3, R w1 w2 -> R w2 w3 -> R w1 w3.

Lemma respects_ret {A} (a : A) : respects R (io_ret a).
Proof. intros w. apply R_refl. Qed.

Lemma respects_raise {A} (e : string) : respects R (@raise S A e).
Proof. intros w. apply R_refl. Qed.

Lemma respects_get : respects R (@get S).
Proof. intros w. apply R_refl. Qed.

Lemma respects_bind {A B} (m : IO S A) (k : A -> IO S B) :
  respects R m -> (forall a, respects R (k a)) -> respects R (io_bind m k).
Proof.
  intros Hm Hk w. unfold io_bind. specialize (Hm w).
  destruct (m w) as [[a | e] w1]; cbn in *; [| exact Hm].
  eapply R_trans; [exact Hm | apply Hk].
Qed.

Lemma respects_try_catch (m : IO S unit) (h : string -> IO S unit) :
  respects R m -> (forall e, respects R (h e)) -> respects R (try_catch m h).
Proof.
  intros Hm Hh w. unfold try_catch. specialize (Hm w).
  destruct (m w) as [[a | e] w1]; cbn in *; [exact Hm |].
  eapply R_trans; [exact Hm | apply Hh].
Qed.

Lemma respects_when (c : bool) (m : IO S unit) :
  respects R m -> respects R (io_when c m).
Proof. intros Hm. destruct c; [exact Hm | apply respects_ret]. Qed.

Lemma respects_if {A} (c : bool) (m1 m2 : IO S A) :
  respects R m1 -> respects R m2 -> respects R (if c then m1 else m2).
Proof. destruct c; auto. Qed.

End Respects.

Lemma never_raises_ret {S A} (a : A) : never_raises (@io_ret S A a).
Proof. intros w. exists a. reflexivity. Qed.

Lemma never_raises_get {S} : never_raises (@get S).
Proof. intros w. eexists. reflexivity. Qed.

Lemma never_raises_console {S} l msg : never_raises (@console S l msg).
Proof. intros w. exists tt. reflexivity. Qed.

Lemma never_raises_modify {S} (f : S -> S) : never_raises (modify f).
Proof. intros w. exists tt. reflexivity. Qed.

Lemma never_raises_bind {S A B} (m : IO S A) (k : A -> IO S B) :
  never_raises m -> (forall a, never_raises (k a)) ->
  never_raises (io_bind m k).
Proof.
  intros Hm Hk w. unfold io_bind. destruct (Hm w) as [a Ha].
  destruct (m w) as [[a' | e] w1]; cbn in Ha; [| discriminate].
  apply Hk.
Qed.

Lemma never_raises_try_catch {S} (m : IO S unit) (h : string -> IO S unit) :
  (forall e, never_raises (h e)) -> never_raises (try_catch m h).
Proof.
  intros Hh w. unfold try_catch.
  destruct (m w) as [[a | e] w1]; [exists a; reflexivity | apply Hh].
Qed.

Lemma never_raises_when {S} (c : bool) (m : IO S unit) :
  never_raises m -> never_raises (io_when c m).
Proof. intros Hm. destruct c; [exact Hm | apply never_raises_ret]. Qed.

Lemma never_raises_if {S A} (c : bool) (m1 m2 : IO S A) :
  never_raises m1 -> never_raises m2 -> never_raises (if c then m1 else m2).
Proof. destruct c; auto. Qed.

(** Decompose a composite action into its primitive steps. *)
Ltac respects_with refl trans extra :=
  repeat first
    [ extra
    | simple apply respects_bind; [trans | | intros ?]
    | simple apply respects_try_catch; [trans | | intros ?]
    | simple apply respects_when; [refl |]
    | simple apply respects_if
    | simple apply respects_ret; refl
    | simple apply respects_raise; refl
    | simple apply respects_get; refl ].

Ltac never_raises_with extra :=
  repeat first
    [ extra
    | simple apply never_raises_bind; [| intros ?]
    | simple apply never_raises_try_catch; intros ?
    | simple apply never_raises_when
    | simple apply never_raises_if
    | simple apply never_raises_ret
    | simple apply never_raises_get
    | simple apply never_raises_console
    | simple apply never_raises_modify ].

(* ================================================================== *)
(** ** From the socket to the WebSocket                                *)
(* ================================================================== *)

Lemma sends_app (a b : list action) : sends (a ++ b) = sends a ++ sends b.
Proof.
  induction a as [| x a IH]; [reflexivity |].
  destruct x; cbn; rewrite IH; reflexivity.
Qed.

Lemma same_sends_refl {S} (w : World S) : same_sends w w.
Proof. reflexivity. Qed.

Lemma same_sends_trans {S} (w1 w2 w3 : World S) :
  same_sends w1 w2 -> same_sends w2 w3 -> same_sends w1 w3.
Proof. unfold same_sends. congruence. Qed.

Lemma sends_console {S} l msg : respects same_sends (@console S l msg).
Proof.
  intros w. unfold same_sends, console. cbn. rewrite sends_app. cbn.
  apply app_nil_r.
Qed.

Lemma sends_modify {S} (f : S -> S) : respects same_sends (modify f).
Proof. intros w. reflexivity. Qed.

Lemma sends_platform {S} (a : action) (f : S -> S) :
  sends [a] = [] -> respects same_sends (platform a f).
Proof.
  intros Ha w. unfold same_sends, platform.
  destruct (faults w (calls w)); cbn; rewrite sends_app, Ha; apply app_nil_r.
Qed.

Ltac sends_with extra :=
  respects_with ltac:(apply same_sends_refl) ltac:(apply same_sends_trans)
    ltac:(first [ extra
                | simple apply sends_console
                | simple apply sends_modify
                | simple apply sends_platform; reflexivity ]).

Lemma sends_safeClose c : respects same_sends (NodeSession.safeClose c).
Proof.
  unfold NodeSession.safeClose, NodeSession.close, NodeSession.destroy.
  destruct c; sends_with fail.
Qed.

Ltac sends_tac := sends_with ltac:(simple apply sends_safeClose).

Lemma sends_try_catch {S} (m : IO S unit) (h : string -> IO S unit) w :
  (forall e, respects same_sends (h e)) ->
  sends (trace (snd (try_catch m h w))) = sends (trace (snd (m w))).
Proof.
  intros Hh. unfold try_catch. destruct (m w) as [[a | e] w1]; cbn;
    [reflexivity | apply Hh].
Qed.

Section Downstream.

Variable decode : Uint8Array -> string.
Variable config : NodeSession.Config.

Lemma sends_onMessage data :
  respects same_sends (NodeSession.onMessage decode config data).
Proof.
  unfold NodeSession.onMessage, NodeSession.firstMessage,
         NodeSession.laterMessage.
  sends_tac.
  destruct (snd (call _)) as [[msg | h] | e]; sends_tac.
Qed.

Lemma sends_connectCallback buffer idx :
  respects same_sends (NodeSession.connectCallback config buffer idx).
Proof.
  unfold NodeSession.connectCallback, NodeSession.pipeRemoteToWebSocket.
  sends_tac.
Qed.

Lemma sends_listener_catch e :
  respects same_sends
    (console ERROR (NodeSession.sp "[Process] Uncaught Exception:" e) ;;
     modify (NodeSession.set_crashed true))%io.
Proof. sends_tac. Qed.

(** The data listener sends the chunk or nothing. *)
Lemma sends_onData chunk w :
  exists l, sends (trace (snd (NodeSession.onData chunk w)))
            = sends (trace w) ++ l /\ (l = [] \/ l = [chunk]).
Proof.
  unfold NodeSession.onData.
  rewrite sends_try_catch by (intros e; sends_tac).
  unfold io_bind at 1. cbn [get fst snd]. unfold io_when.
  destruct (NodeSession.ws_readyState (st w) =? OPEN).
  - exists [chunk]. split; [| right; reflexivity].
    unfold platform. destruct (faults w (calls w)); cbn; apply sends_app.
  - exists []. split; [cbn; symmetry; apply app_nil_r | left; reflexivity].
Qed.

Lemma sends_dispatch ev :
  (forall chunk, ev <> NodeSession.SockData chunk) ->
  respects same_sends (NodeSession.dispatch decode config ev).
Proof.
  intros Hev.
  unfold NodeSession.dispatch, NodeSession.async_listener,
         NodeSession.sync_listener, NodeSession.onClose,
         NodeSession.onError_ws, NodeSession.onUnexpectedResponse,
         NodeSession.onEnd, NodeSession.onSocketError,
         NodeSession.onPipeError, NodeSession.onSocketTimeout.
  destruct ev as [data | code reason | e | c | | chunk | | e |];
    try (exfalso; eapply Hev; reflexivity);
    sends_with ltac:(first
      [ simple apply sends_safeClose
      | simple apply sends_onMessage
      | simple apply sends_connectCallback
      | match goal with
        | |- respects _ (match ?x with Some _ => _ | None => _ end) =>
            destruct x as [[? ?] |]
        end ]).
Qed.

Lemma dispatch_sends ev w :
  exists l,
    sends (trace (snd (NodeSession.dispatch decode config ev w)))
    = sends (trace w) ++ l /\ subseq l (chunks [ev]).
Proof.
  destruct (match ev with NodeSession.SockData _ => true | _ => false end)
    eqn:Hev.
  - destruct ev as [| | | | | chunk | | |]; try discriminate Hev.
    unfold NodeSession.dispatch. unfold io_bind at 1. cbn [get fst snd].
    assert (Nil : exists l, sends (trace w) = sends (trace w) ++ l /\
                            subseq l (chunks [NodeSession.SockData chunk])).
    { exists []. split; [symmetry; apply app_nil_r |].
      apply subseq_skip, subseq_nil. }
    destruct (NodeSession.crashed (st w)); [exact Nil |].
    unfold io_when. destruct (_ && _); [| exact Nil].
    unfold NodeSession.sync_listener.
    rewrite sends_try_catch by (intros e; apply sends_listener_catch).
    destruct (sends_onData chunk w) as (l & E & [-> | ->]).
    + exists []. split; [exact E | apply subseq_skip, subseq_nil].
    + exists [chunk]. split; [exact E | apply subseq_take, subseq_nil].
  - exists []. split.
    + rewrite app_nil_r. apply sends_dispatch. intros chunk ->. discriminate.
    + destruct ev; try discriminate Hev; apply subseq_nil.
Qed.

Lemma subseq_app {A} (a b c d : list A) :
  subseq a b -> subseq c d -> subseq (a ++ c) (b ++ d).
Proof.
  intros H. induction H as [| x l1 l2 H IH | x l1 l2 H IH]; intros Hc; cbn.
  - exact Hc.
  - apply subseq_skip, IH, Hc.
  - apply subseq_take, IH, Hc.
Qed.

Lemma chunks_cons ev evs : chunks (ev :: evs) = chunks [ev] ++ chunks evs.
Proof. destruct ev; reflexivity. Qed.

Lemma deliver_sends evs w :
  exists l,
    sends (trace (NodeSession.deliver decode config evs w))
    = sends (trace w) ++ l /\ subseq l (chunks evs).
Proof.
  revert w. induction evs as [| ev evs IH]; intros w; cbn [NodeSession.deliver].
  - exists []. split; [symmetry; apply app_nil_r | apply subseq_nil].
  - destruct (dispatch_sends ev w) as (l1 & E1 & S1).
    destruct (IH (snd (NodeSession.dispatch decode config ev w)))
      as (l2 & E2 & S2).
    exists (l1 ++ l2). split.
    + rewrite E2, E1, app_assoc. reflexivity.
    + rewrite chunks_cons. apply subseq_app; assumption.
Qed.

(** X8.  What a Node.js session sends to the client is what the outbound
    socket delivered: the data of the [ws.send] calls of a run is, in order,
    the chunks of the socket's data events, some possibly left out (those
    that arrive while the WebSocket is not open or before the connect
    callback has installed the listener); nothing is duplicated, reordered
    or made up. *)
Theorem Node_sends_are_the_received_chunks
    (oracle : nat -> option string) (evs : list NodeSession.event) :
  subseq (sends (trace (NodeSession.run decode config oracle evs)))
         (chunks evs).
Proof.
  unfold NodeSession.run.
  destruct (deliver_sends evs (NodeSession.start config oracle))
    as (l & E & Hl).
  rewrite E.
  replace (sends (trace (NodeSession.start config oracle)))
    with (@nil Uint8Array); [exact Hl |].
  unfold NodeSession.start, NodeSession.handleWebSocketUpgrade.
  destruct (NodeSession.LOG_CONNECTIONS config); reflexivity.
Qed.

End Downstream.

(* ================================================================== *)
(** ** Exceptions that escape the listeners                            *)
(* ================================================================== *)

Lemma same_crashed_refl (w : World NodeSession.Vars) : same_crashed w w.
Proof. reflexivity. Qed.

Lemma same_crashed_trans (w1 w2 w3 : World NodeSession.Vars) :
  same_crashed w1 w2 -> same_crashed w2 w3 -> same_crashed w1 w3.
Proof. unfold same_crashed. congruence. Qed.

Lemma crashed_console l msg : respects same_crashed (console l msg).
Proof. intros w. reflexivity. Qed.

Lemma crashed_modify (f : NodeSession.Vars -> NodeSession.Vars) :
  (forall s, NodeSession.crashed (f s) = NodeSession.crashed s) ->
  respects same_crashed (modify f).
Proof. intros Hf w. apply Hf. Qed.

Lemma crashed_platform (a : action) (f : NodeSession.Vars -> NodeSession.Vars) :
  (forall s, NodeSession.crashed (f s) = NodeSession.crashed s) ->
  respects same_crashed (platform a f).
Proof.
  intros Hf w. unfold same_crashed, platform.
  destruct (faults w (calls w)); cbn; [reflexivity | apply Hf].
Qed.

(** The state updates of the handlers leave the [crashed] flag alone. *)
Ltac keeps_crashed :=
  intros ?; unfold NodeSession.ws_close_effect, id;
  try match goal with |- context [if ?c then _ else _] => destruct c end;
  reflexivity.

Ltac crashed_with extra :=
  respects_with ltac:(apply same_crashed_refl) ltac:(apply same_crashed_trans)
    ltac:(first [ extra
                | simple apply crashed_console
                | simple apply crashed_modify; keeps_crashed
                | simple apply crashed_platform; keeps_crashed ]).

Lemma crashed_safeClose c : respects same_crashed (NodeSession.safeClose c).
Proof.
  unfold NodeSession.safeClose, NodeSession.close, NodeSession.destroy.
  destruct c; crashed_with fail.
Qed.

Lemma never_raises_safeClose c : never_raises (NodeSession.safeClose c).
Proof. intros w. exists tt. apply Node_safeClose_ok. Qed.

Ltac crashed_tac := crashed_with ltac:(simple apply crashed_safeClose).
Ltac never_raises_tac :=
  never_raises_with ltac:(simple apply never_raises_safeClose).

(** A synchronous listener whose body never raises cannot end the
    process. *)
Lemma crashed_sync_listener (m : IO NodeSession.Vars unit) :
  never_raises m -> respects same_crashed m ->
  respects same_crashed (NodeSession.sync_listener m).
Proof.
  intros Hn Hm w. unfold NodeSession.sync_listener, try_catch.
  specialize (Hm w). destruct (Hn w) as [a Ha].
  destruct (m w) as [[a' | e] w1]; cbn in *; [exact Hm | discriminate].
Qed.

Section Survival.

Variable decode : Uint8Array -> string.
Variable config : NodeSession.Config.

Lemma crashed_onMessage data :
  respects same_crashed (NodeSession.onMessage decode config data).
Proof.
  unfold NodeSession.onMessage, NodeSession.firstMessage,
         NodeSession.laterMessage.
  crashed_tac.
  destruct (snd (call _)) as [[msg | h] | e]; crashed_tac.
Qed.

(** X9.  Only two listeners of the Node.js session can let an exception
    escape to the process (where [server.js] exits on it): the socket's
    connect callback and the socket's error listener.  Delivering any other
    event leaves the process alive, whichever platform calls raise: the
    message handler is asynchronous and the other listeners only log and
    call [safeClose]. *)
Theorem Node_process_survives_the_event
    (ev : NodeSession.event) (w : World NodeSession.Vars) :
  ev <> NodeSession.SockConnect ->
  (forall e, ev <> NodeSession.SockError e) ->
  NodeSession.crashed (st (snd (NodeSession.dispatch decode config ev w)))
  = NodeSession.crashed (st w).
Proof.
  intros Hconnect Herror.
  assert (H : respects same_crashed (NodeSession.dispatch decode config ev));
    [| exact (H w)].
  unfold NodeSession.dispatch.
  destruct ev as [data | code reason | e | c | | chunk | | e |];
    try contradiction; try (exfalso; eapply Herror; reflexivity);
    crashed_with ltac:(first
      [ simple apply crashed_sync_listener
      | simple apply crashed_safeClose ]).
  - unfold NodeSession.async_listener.
    crashed_with ltac:(simple apply crashed_onMessage).
  - unfold NodeSession.onClose. never_raises_tac.
  - unfold NodeSession.onClose. crashed_tac.
  - unfold NodeSession.onError_ws. never_raises_tac.
  - unfold NodeSession.onError_ws. crashed_tac.
  - unfold NodeSession.onUnexpectedResponse. never_raises_tac.
  - unfold NodeSession.onUnexpectedResponse. crashed_tac.
  - unfold NodeSession.onData. never_raises_tac.
  - unfold NodeSession.onData. crashed_tac.
  - unfold NodeSession.onEnd. never_raises_tac.
  - unfold NodeSession.onEnd. crashed_tac.
  - unfold NodeSession.onSocketTimeout. never_raises_tac.
  - unfold NodeSession.onSocketTimeout. crashed_tac.
Qed.

End Survival.

(** An instance: an error event of the WebSocket while every platform call
    raises. *)
Lemma Node_process_survives_the_event_witness :
  let w := NodeSession.run ascii_decode sample_config
             (fun n => if (n <? 2)%nat then None else Some "EPIPE")
             [NodeSession.WsMessage msg_ipv4] in
  NodeSession.crashed
    (st (snd (NodeSession.dispatch ascii_decode sample_config
                (NodeSession.WsError "reset") w)))
  = NodeSession.crashed (st w).
Proof.
  cbv zeta.
  apply (Node_process_survives_the_event ascii_decode sample_config).
  - discriminate.
  - discriminate.
Defined.

(** The two exceptions are real: a raising [ws.close] in the socket's error
    listener and a raising [write] in the connect callback end the
    process. *)
Example Node_process_can_crash :
  let closing_fails n := if (n =? 2)%nat then Some "closed" else None in
  NodeSession.crashed
    (st (NodeSession.run ascii_decode sample_config closing_fails
           [NodeSession.WsMessage msg_ipv4;
            NodeSession.SockError "ECONNREFUSED"])) = true /\
  NodeSession.crashed
    (st (NodeSession.run ascii_decode sample_config closing_fails
           [NodeSession.WsMessage msg_ipv4; NodeSession.SockConnect])) = true.
Proof. vm_compute. split; reflexivity. Qed.

(* ================================================================== *)
(** ** Closing one end closes the other                                *)
(* ================================================================== *)

(** What [safeClose] leaves alone. *)
Lemma Node_safeClose_frame (c : NodeSession.connection)
      (w : World NodeSession.Vars) :
  let w' := snd (NodeSession.safeClose c w) in
  faults w' = faults w /\
  (calls w' = calls w \/ calls w' = S (calls w)) /\
  NodeSession.remoteSocket (st w') = NodeSession.remoteSocket (st w) /\
  (NodeSession.destroyed (st w) = true -> NodeSession.destroyed (st w') = true) /\
  (Node_closed NodeSession.TheWebSocket (st w) ->
   Node_closed NodeSession.TheWebSocket (st w')).
Proof.
  unfold NodeSession.safeClose, NodeSession.close, NodeSession.destroy,
         Node_closed.
  io_unfold.
  destruct c; cbn; [intuition auto | |].
  - unfold NodeSession.ws_close_effect, OPEN, CONNECTING, CLOSED, CLOSING.
    destruct (Z.eqb_spec (NodeSession.ws_readyState (st w)) 1) as [E1 | E1];
      [| destruct (Z.eqb_spec (NodeSession.ws_readyState (st w)) 0) as [E0 | E0]];
      cbn; try (intuition auto; fail);
      destruct (faults w (calls w)); cbn;
      try (rewrite E1); try (rewrite E0); cbn;
      intuition (auto; try congruence; try lia).
  - destruct (NodeSession.destroyed (st w)) eqn:D; cbn; [intuition auto |].
    destruct (faults w (calls w)); cbn; intuition (auto; congruence).
Qed.

(** Run the next [safeClose] of the goal, keeping what is known about the
    world it returns. *)
Ltac run_safeClose :=
  match goal with
  | |- context [NodeSession.safeClose ?c ?w0] =>
      lazymatch w0 with
      | context [NodeSession.safeClose] => fail
      | _ => idtac
      end;
      let Hok := fresh "Hok" in let Hfr := fresh "Hfr" in
      let Hcl := fresh "Hcl" in
      pose proof (Node_safeClose_ok c w0) as Hok;
      pose proof (Node_safeClose_frame c w0) as Hfr;
      pose proof (Node_safeClose_closes c w0) as Hcl;
      cbv zeta in Hfr;
      let r := fresh "r" in let w' := fresh "w" in
      destruct (NodeSession.safeClose c w0) as [r w'];
      cbn [fst snd st trace calls faults] in Hok, Hfr, Hcl; subst r;
      destruct Hfr as (? & ? & ? & ? & ?)
  end.

(** Conclude from what the [safeClose] calls of a handler established. *)
Ltac closed_by F0 F1 :=
  repeat match goal with
  | H : faults ?a (calls ?a) = None -> _, E : faults ?a = faults ?b,
    D : calls ?a = calls ?b \/ calls ?a = S (calls ?b) |- _ =>
      let F := fresh "F" in
      assert (F : faults a (calls a) = None)
        by (rewrite E; destruct D as [-> | ->]; assumption);
      specialize (H F)
  | H : faults ?a (calls ?a) = None -> _ |- _ => specialize (H F0)
  | H : faults ?a (S (calls ?a)) = None -> _ |- _ => specialize (H F1)
  end;
  unfold torn_down, Node_closed, NodeSession.remote,
         NodeSession.ws_close_effect, OPEN, CONNECTING, CLOSED, CLOSING in *;
  cbn [NodeSession.remoteSocket NodeSession.destroyed
       NodeSession.ws_readyState NodeSession.set_ws_readyState
       NodeSession.set_destroyed NodeSession.set_onTimeout] in *;
  repeat match goal with
  | H : NodeSession.remoteSocket _ = _ |- _ => rewrite H in *
  end;
  repeat match goal with
  | |- context [if ?b then _ else _] => destruct b eqn:?
  | H : context [if ?b then _ else _] |- _ => destruct b eqn:?
  end;
  repeat match goal with
  | H : (_ =? _) = true |- _ => apply Z.eqb_eq in H
  | H : (_ =? _) = false |- _ => apply Z.eqb_neq in H
  end;
  cbn [NodeSession.remoteSocket NodeSession.destroyed
       NodeSession.ws_readyState NodeSession.set_ws_readyState
       NodeSession.set_destroyed NodeSession.set_onTimeout] in *;
  intuition (auto; try congruence; try lia).

Section Teardown.

Variable decode : Uint8Array -> string.
Variable config : NodeSession.Config.

(** X10.  Closing one end of the relay closes the other.  When the
    WebSocket's close or error event, the socket's error event or its
    timeout is delivered, the handler leaves the outbound socket (if there
    is one) destroyed and the WebSocket closed or closing; when the socket's
    end event is delivered it closes the WebSocket.  This holds as long as
    the [close] and [destroy] calls of the handler do not raise. *)
Theorem Node_terminal_events_tear_down
    (ev : NodeSession.event) (w : World NodeSession.Vars) :
  NodeSession.crashed (st w) = false ->
  faults w (calls w) = None ->
  faults w (S (calls w)) = None ->
  listening ev (st w) = true ->
  let s' := st (snd (NodeSession.dispatch decode config ev w)) in
  match ev with
  | NodeSession.WsClosed _ _ | NodeSession.WsError _
  | NodeSession.SockError _ | NodeSession.SockTimeout => torn_down s'
  | NodeSession.SockEnd => Node_closed NodeSession.TheWebSocket s'
  | _ => True
  end.
Proof.
  intros C F0 F1 L. cbv zeta.
  unfold listening in L.
  destruct ev as [data | code reason | e | c | | chunk | | e |];
    try exact I;
    unfold NodeSession.dispatch, NodeSession.sync_listener, NodeSession.onClose,
      NodeSession.onError_ws, NodeSession.onSocketError, NodeSession.onPipeError,
      NodeSession.onSocketTimeout, NodeSession.onEnd;
    io_unfold; cbn [fst snd st trace calls faults]; rewrite C; rewrite ?L.
  - (* the WebSocket has closed *)
    destruct (NodeSession.LOG_CONNECTIONS config);
      cbn [fst snd st trace calls faults];
      run_safeClose; cbn [fst snd st]; closed_by F0 F1.
  - (* the WebSocket reports an error *)
    cbn [fst snd st trace calls faults].
    run_safeClose. cbn [fst snd st trace calls faults].
    run_safeClose. cbn [fst snd st]. closed_by F0 F1.
  - (* the socket has ended *)
    cbn [fst snd st trace calls faults].
    run_safeClose. cbn [fst snd st]. closed_by F0 F1.
  - (* the socket reports an error *)
    rewrite F0. cbn [fst snd st trace calls faults].
    run_safeClose. cbn [fst snd st trace calls faults].
    destruct (NodeSession.piping (st w));
      cbn [fst snd st trace calls faults];
      [run_safeClose; cbn [fst snd st] |];
      closed_by F0 F1.
  - (* the socket has timed out *)
    cbn [fst snd st trace calls faults].
    run_safeClose. cbn [fst snd st trace calls faults].
    run_safeClose. cbn [fst snd st]. closed_by F0 F1.
Qed.

End Teardown.

(** An instance: the client closes an established relay. *)
Lemma Node_terminal_events_tear_down_witness :
  let w := NodeSession.run ascii_decode sample_config no_faults
             [NodeSession.WsMessage msg_ipv4; NodeSession.SockConnect] in
  torn_down
    (st (snd (NodeSession.dispatch ascii_decode sample_config
                (NodeSession.WsClosed 1000 "bye") w))).
Proof.
  cbv zeta.
  apply (Node_terminal_events_tear_down ascii_decode sample_config
           (NodeSession.WsClosed 1000 "bye")).
  - reflexivity.
  - reflexivity.
  - reflexivity.
  - reflexivity.
Defined.

(* ================================================================== *)
(** ** The Worker session                                              *)
(* ================================================================== *)



Section WorkerDownstream.

Variable decode : Uint8Array -> string.
Variable UUID : string.








End WorkerDownstream.

(* ================================================================== *)
(** ** The Worker session and its unbound [connect]                    *)
(* ================================================================== *)

Lemma append_assoc (a b c : string) :
  ((a ++ b) ++ c)%string = (a ++ b ++ c)%string.
Proof. induction a as [| x a IH]; cbn; [| rewrite IH]; reflexivity. Qed.

Section WorkerUnbound.

Variable decode : Uint8Array -> string.
Variable UUID : string.

Lemma Worker_deliver_app (a b : list WorkerSession.event) w :
  WorkerSession.deliver decode UUID (a ++ b) w
  = WorkerSession.deliver decode UUID b (WorkerSession.deliver decode UUID a w).
Proof.
  revert w. induction a as [| ev a IH]; intros w; [reflexivity |].
  cbn [app WorkerSession.deliver]. apply IH.
Qed.

(** The handler run for a message the decoder accepts, in a session
    without an outbound socket. *)
Lemma Worker_accepted_handshake_raises
    (data : Uint8Array) (h : Worker.Header) (w : World WorkerSession.Vars) :
  snd (call (Worker.processVlessHeader decode data UUID))
    = Returned (Worker.Success h) ->
  WorkerSession.remoteSocket (st w) = false ->
  let target := (Worker.addressRemote h ++ ":"
                 ++ JS.ToString (Worker.portRemote h))%string in
  let w' := snd (WorkerSession.dispatch decode UUID
                   (WorkerSession.WsMessage data) w) in
  exists closing,
    trace w'
    = trace w
      ++ [Console LOG ("[" ++ target ++ "] Connecting to " ++ target ++ " ");
          Console LOG ("[" ++ target ++ "] Message error: connect is not defined")]
      ++ closing /\
    (closing = [] \/ closing = [WsClose None ""] \/
     exists e, closing = [WsClose None "";
                          Console LOG ("Error closing WebSocket: " ++ e)]) /\
    (faults w (calls w) = None ->
     Worker_closed WorkerSession.Server (st w')).
Proof.
  intros D Hr target w'. subst w'.
  remember (snd (WorkerSession.dispatch decode UUID
                   (WorkerSession.WsMessage data) w)) as w' eqn:E.
  worker_unfold. io_unfold. cbn in E. rewrite Hr in E. cbn in E.
  rewrite D in E. cbn in E.
  assert (T1 : ("[" ++ Worker.addressRemote h ++ ":"
                ++ JS.ToString (Worker.portRemote h) ++ "] "
                ++ ("Connecting to " ++ Worker.addressRemote h ++ ":"
                    ++ JS.ToString (Worker.portRemote h)) ++ " " ++ "")%string
               = ("[" ++ target ++ "] Connecting to " ++ target ++ " ")%string).
  { unfold target. cbn. f_equal.
    rewrite !append_assoc. reflexivity. }
  assert (T2 : ("[" ++ Worker.addressRemote h ++ ":"
                ++ JS.ToString (Worker.portRemote h) ++ "] "
                ++ "Message error:" ++ " " ++ "connect is not defined")%string
               = ("[" ++ target
                  ++ "] Message error: connect is not defined")%string).
  { unfold target. cbn. f_equal.
    rewrite !append_assoc. reflexivity. }
  cbn in T1, T2.
  destruct ((WorkerSession.ws_readyState (st w) =? WorkerSession.READY_STATE_OPEN)
            || (WorkerSession.ws_readyState (st w)
                =? WorkerSession.READY_STATE_CONNECTING)) eqn:B; cbn in E.
  - destruct (faults w (calls w)) as [e |] eqn:F; cbn in E;
      rewrite ?Hr in E; cbn in E.
    + destruct (WorkerSession.ws_readyState (st w) =? CLOSED) eqn:C in E;
        cbn in E; rewrite ?Hr in E; cbn in E; subst w'; cbn;
        rewrite T1, T2;
        (exists [WsClose None ""; Console LOG ("Error closing WebSocket: " ++ e)]);
        (split; [repeat rewrite <- app_assoc; reflexivity |]);
        (split; [right; right; exists e; reflexivity | discriminate]).
    + assert (C : (WorkerSession.ws_readyState (st w) =? CLOSED) = false).
      { apply Bool.orb_true_iff in B.
        destruct B as [B | B]; apply Z.eqb_eq in B; rewrite B; reflexivity. }
      rewrite C in E. cbn in E. rewrite ?Hr in E. cbn in E. subst w'. cbn.
      rewrite T1, T2. exists [WsClose None ""].
      split; [repeat rewrite <- app_assoc; reflexivity |].
      split; [right; left; reflexivity |].
      intros _. split; discriminate.
  - rewrite ?Hr in E. cbn in E. subst w'. cbn. rewrite T1, T2.
    exists []. split; [repeat rewrite <- app_assoc; reflexivity |].
    split; [left; reflexivity |].
    intros _. apply Bool.orb_false_iff in B. destruct B as [B1 B2].
    split; apply Z.eqb_neq; assumption.
Qed.

(** X18.  The Worker session as given never relays.  [connect] is not
    bound in [websocket-handler.js], so the call that is to open the
    outbound connection raises a [ReferenceError].  In every run, whatever
    arrives and whichever platform calls raise, [remoteSocket] stays [null]
    and the session makes no call on an outbound socket (no connect,
    [getReader], [getWriter], [write], [releaseLock] or [close]) and sends
    nothing to the client.  At any point of a run a message is handled as a
    first message.  One the decoder rejects is answered by the log line of
    the error and [close(1002, 'Protocol error')].  One the decoder accepts
    is answered by the log lines of the attempt and of the
    [ReferenceError], and by [close] on the WebSocket if it is open or
    connecting. *)
Theorem Worker_session_never_relays
    (oracle : nat -> option string) (evs : list WorkerSession.event) :
  let w := WorkerSession.run decode UUID oracle evs in
  (WorkerSession.remoteSocket (st w) = false /\
   filter relays (trace w) = []) /\
  (forall data msg,
     snd (call (Worker.processVlessHeader decode data UUID))
       = Returned (Worker.Failure msg) ->
     let w' := WorkerSession.run decode UUID oracle
                 (evs ++ [WorkerSession.WsMessage data]) in
     exists tail,
       trace w'
       = trace w
         ++ [Console LOG ("[" ++ WorkerSession.addressRemote (st w) ++ ":"
                          ++ JS.ToString (WorkerSession.portRemote (st w))
                          ++ "] Header parse error: " ++ msg);
             WsClose (Some 1002) "Protocol error"]
         ++ tail /\
       (faults w (calls w) = None ->
        tail = [] /\ Worker_closed WorkerSession.Server (st w'))) /\
  (forall data h,
     snd (call (Worker.processVlessHeader decode data UUID))
       = Returned (Worker.Success h) ->
     let target := (Worker.addressRemote h ++ ":"
                    ++ JS.ToString (Worker.portRemote h))%string in
     let w' := WorkerSession.run decode UUID oracle
                 (evs ++ [WorkerSession.WsMessage data]) in
     exists closing,
       trace w'
       = trace w
         ++ [Console LOG ("[" ++ target ++ "] Connecting to " ++ target ++ " ");
             Console LOG ("[" ++ target
                          ++ "] Message error: connect is not defined")]
         ++ closing /\
       (closing = [] \/ closing = [WsClose None ""] \/
        exists e, closing = [WsClose None "";
                             Console LOG ("Error closing WebSocket: " ++ e)]) /\
       (faults w (calls w) = None ->
        Worker_closed WorkerSession.Server (st w'))).
Proof.
  intros w.
  destruct (Worker_idle_run decode UUID oracle evs) as (Hr & _ & _ & Hc).
  fold w in Hr, Hc.
  assert (E : forall data,
             WorkerSession.run decode UUID oracle
               (evs ++ [WorkerSession.WsMessage data])
             = snd (WorkerSession.dispatch decode UUID
                      (WorkerSession.WsMessage data) w)).
  { intros data. unfold w, WorkerSession.run. rewrite Worker_deliver_app.
    reflexivity. }
  split; [split; assumption |]. split.
  - intros data msg D w'. unfold w'. rewrite E.
    apply Worker_rejection_closes; assumption.
  - intros data h D target w'. unfold w'. rewrite E.
    apply Worker_accepted_handshake_raises; assumption.
Qed.

End WorkerUnbound.

(** An instance: a well-formed handshake as the first message. *)
Lemma Worker_session_never_relays_witness :
  let w := WorkerSession.run ascii_decode Config.UUID_alt no_faults [] in
  let w' := WorkerSession.run ascii_decode Config.UUID_alt no_faults
              [WorkerSession.WsMessage msg_ipv4] in
  (exists tail,
     trace (WorkerSession.run ascii_decode Config.UUID_alt no_faults
              [WorkerSession.WsMessage msg_version1])
     = trace w
       ++ [Console LOG "[:0] Header parse error: Invalid version";
           WsClose (Some 1002) "Protocol error"]
       ++ tail /\
     (faults w (calls w) = None ->
      tail = [] /\
      Worker_closed WorkerSession.Server
        (st (WorkerSession.run ascii_decode Config.UUID_alt no_faults
               [WorkerSession.WsMessage msg_version1])))) /\
  exists closing,
    trace w'
    = trace w
      ++ [Console LOG "[192.168.0.1:443] Connecting to 192.168.0.1:443 ";
          Console LOG "[192.168.0.1:443] Message error: connect is not defined"]
      ++ closing /\
    (closing = [] \/ closing = [WsClose None ""] \/
     exists e, closing = [WsClose None "";
                          Console LOG ("Error closing WebSocket: " ++ e)]) /\
    (faults w (calls w) = None -> Worker_closed WorkerSession.Server (st w')).
Proof.
  pose proof (Worker_session_never_relays ascii_decode Config.UUID_alt
                no_faults []) as (_ & Hrej & Hacc).
  split.
  - exact (Hrej msg_version1 "Invalid version" eq_refl).
  - exact (Hacc msg_ipv4
             {| Worker.addressRemote := "192.168.0.1";
                Worker.portRemote := Num 443;
                Worker.rawDataIndex := Num 26;
                Worker.command := Num 1 |}
             eq_refl).
Defined.

(* ================================================================== *)
(** ** A destroyed socket                                              *)
(* ================================================================== *)

Lemma after_destroy_refl (w : World NodeSession.Vars) : after_destroy w w.
Proof. intros H. split; [exact H | reflexivity]. Qed.

Lemma after_destroy_trans (w1 w2 w3 : World NodeSession.Vars) :
  after_destroy w1 w2 -> after_destroy w2 w3 -> after_destroy w1 w3.
Proof.
  intros H12 H23 H. destruct (H12 H) as [D2 E2]. destruct (H23 D2) as [D3 E3].
  split; [exact D3 | congruence].
Qed.

Lemma destroy_console l msg : respects after_destroy (console l msg).
Proof.
  intros w H. cbn. split; [exact H |].
  rewrite socket_writes_app. apply app_nil_r.
Qed.

Lemma destroy_modify (f : NodeSession.Vars -> NodeSession.Vars) :
  (forall s, NodeSession.destroyed s = true -> NodeSession.destroyed (f s) = true) ->
  respects after_destroy (modify f).
Proof. intros Hf w H. cbn. split; [apply Hf; exact H | reflexivity]. Qed.

Lemma destroy_platform (a : action) (f : NodeSession.Vars -> NodeSession.Vars) :
  socket_writes [a] = [] ->
  (forall s, NodeSession.destroyed s = true -> NodeSession.destroyed (f s) = true) ->
  respects after_destroy (platform a f).
Proof.
  intros Ha Hf w H. unfold platform.
  destruct (faults w (calls w)); cbn; rewrite socket_writes_app, Ha, app_nil_r;
    (split; [| reflexivity]); [exact H | apply Hf; exact H].
Qed.

(** The state updates of the handlers do not revive a destroyed socket. *)
Ltac stays_destroyed :=
  intros ?; unfold NodeSession.ws_close_effect, id;
  try match goal with |- context [if ?c then _ else _] => destruct c end;
  cbn; auto.

Ltac destroy_with extra :=
  respects_with ltac:(apply after_destroy_refl) ltac:(apply after_destroy_trans)
    ltac:(first [ extra
                | simple apply destroy_console
                | simple apply destroy_modify; stays_destroyed
                | simple apply destroy_platform; [reflexivity | stays_destroyed] ]).

Lemma destroy_safeClose c : respects after_destroy (NodeSession.safeClose c).
Proof.
  unfold NodeSession.safeClose, NodeSession.close, NodeSession.destroy.
  destruct c; destroy_with fail.
Qed.

Ltac destroy_tac := destroy_with ltac:(simple apply destroy_safeClose).

Section Destroyed.

Variable decode : Uint8Array -> string.
Variable config : NodeSession.Config.

(** The one write of the message handler is guarded by
    [!remoteSocket.destroyed]. *)
Lemma destroy_laterMessage data :
  respects after_destroy (NodeSession.laterMessage data).
Proof.
  intros w H. unfold NodeSession.laterMessage. unfold io_bind.
  cbn [get fst snd]. rewrite H. cbn [negb]. rewrite andb_false_r.
  assert (Hw : respects after_destroy
                 (io_when (negb (NodeSession.isHeaderProcessed (st w)))
                    (console WARN (NodeSession.tag (st w)
                       ++ " Received data before connection ready"))))
    by destroy_tac.
  exact (Hw w H).
Qed.

Lemma destroy_onMessage data :
  respects after_destroy (NodeSession.onMessage decode config data).
Proof.
  unfold NodeSession.onMessage, NodeSession.firstMessage.
  destroy_with ltac:(first [ simple apply destroy_safeClose
                           | simple apply destroy_laterMessage ]).
  destruct (snd (call _)) as [[msg | h] | e]; destroy_tac.
Qed.

Lemma destroy_dispatch ev :
  respects after_destroy (NodeSession.dispatch decode config ev).
Proof.
  assert (Hm : forall data, respects after_destroy
            (NodeSession.async_listener
               (NodeSession.onMessage decode config data))).
  { intros data. unfold NodeSession.async_listener.
    destroy_with ltac:(simple apply destroy_onMessage). }
  assert (Hc : forall code reason, respects after_destroy
            (modify (NodeSession.set_ws_readyState CLOSED) ;;
             NodeSession.sync_listener
               (NodeSession.onClose config code reason))%io).
  { intros code reason.
    unfold NodeSession.sync_listener, NodeSession.onClose. destroy_tac. }
  assert (He : forall e, respects after_destroy
            (NodeSession.sync_listener (NodeSession.onError_ws e))).
  { intros e. unfold NodeSession.sync_listener, NodeSession.onError_ws.
    destroy_tac. }
  assert (Hu : forall c, respects after_destroy
            (NodeSession.sync_listener (NodeSession.onUnexpectedResponse c))).
  { intros c. unfold NodeSession.sync_listener,
      NodeSession.onUnexpectedResponse. destroy_tac. }
  intros w. unfold NodeSession.dispatch, io_bind at 1. cbn [get fst snd].
  intros H.
  destruct (NodeSession.crashed (st w)); [apply after_destroy_refl; exact H |].
  rewrite H. cbn [negb]. rewrite andb_false_r. cbn [andb io_when].
  destruct ev as [data | code reason | e | c | | chunk | | e |];
    try (apply after_destroy_refl; exact H).
  - apply (Hm data w H).
  - apply (Hc code reason w H).
  - apply (He e w H).
  - apply (Hu c w H).
  - destruct (NodeSession.onConnect (st w)) as [[buffer idx] |];
      apply after_destroy_refl; exact H.
Qed.

Lemma destroy_deliver evs :
  respects after_destroy (fun w => (Ok tt, NodeSession.deliver decode config evs w)).
Proof.
  induction evs as [| ev evs IH]; intros w; cbn [NodeSession.deliver snd].
  - apply after_destroy_refl.
  - eapply after_destroy_trans; [apply destroy_dispatch | apply IH].
Qed.

Lemma deliver_app (a b : list NodeSession.event) w :
  NodeSession.deliver decode config (a ++ b) w
  = NodeSession.deliver decode config b (NodeSession.deliver decode config a w).
Proof.
  revert w. induction a as [| ev a IH]; intros w; [reflexivity |].
  cbn [app NodeSession.deliver]. apply IH.
Qed.

(** X11.  Nothing is written to a destroyed socket.  If the outbound socket
    of a Node.js session is destroyed after the events [before], then no
    further event makes the session call [write]: the message handler
    checks [remoteSocket.destroyed], and the socket runs no listener any
    more. *)
Theorem Node_writes_nothing_after_destroy
    (oracle : nat -> option string) (before after : list NodeSession.event) :
  NodeSession.destroyed
    (st (NodeSession.run decode config oracle before)) = true ->
  socket_writes
    (trace (NodeSession.run decode config oracle (before ++ after)))
  = socket_writes (trace (NodeSession.run decode config oracle before)).
Proof.
  intros H. unfold NodeSession.run in *. rewrite deliver_app.
  apply (destroy_deliver after _ H).
Qed.

End Destroyed.

(** An instance: after the timeout has destroyed the socket, a late message
    is not written. *)
Lemma Node_writes_nothing_after_destroy_witness :
  let before := [NodeSession.WsMessage msg_ipv4; NodeSession.SockConnect;
                 NodeSession.SockTimeout] in
  socket_writes
    (trace (NodeSession.run ascii_decode sample_config no_faults
              (before ++ [NodeSession.WsMessage (bytes_of [1; 2; 3])])))
  = socket_writes
      (trace (NodeSession.run ascii_decode sample_config no_faults before)).
Proof.
  cbv zeta.
  apply (Node_writes_nothing_after_destroy ascii_decode sample_config no_faults).
  reflexivity.
Defined.

(* ================================================================== *)
(** ** An established relay                                            *)
(* ================================================================== *)

Section Established.

Variable decode : Uint8Array -> string.
Variable config : NodeSession.Config.

Lemma Node_handshake_establishes (hdr : Uint8Array) (h : Node.Header) :
  decode_result decode config hdr = Returned (Node.Success h) ->
  let w := NodeSession.run decode config no_faults
             [NodeSession.WsMessage hdr; NodeSession.SockConnect] in
  established w /\
  socket_writes (trace w)
  = socket_writes (initial_payload hdr (Node.rawDataIndex h)) /\
  sends (trace w) = [].
Proof.
  intros D. cbv zeta. unfold decode_result in D.
  remember (NodeSession.run decode config no_faults
              [NodeSession.WsMessage hdr; NodeSession.SockConnect]) as w eqn:E.
  unfold NodeSession.run, NodeSession.start, NodeSession.deliver,
         NodeSession.handleWebSocketUpgrade, NodeSession.dispatch,
         NodeSession.async_listener, NodeSession.onMessage,
         NodeSession.firstMessage, NodeSession.sync_listener,
         NodeSession.connectCallback, NodeSession.pipeRemoteToWebSocket,
         no_faults in E.
  unfold initial_payload, established.
  io_unfold.
  destruct (NodeSession.LOG_CONNECTIONS config) eqn:L; cbn in E;
    rewrite D in E; cbn in E; rewrite ?L in E; cbn in E;
    destruct (JS.lt (Node.rawDataIndex h) (JS.length hdr)); cbn in E;
    rewrite ?L in E; cbn in E; subst w; cbn.
  all: repeat split; reflexivity.
Qed.

Lemma Node_relay_step (ev : NodeSession.event) (w : World NodeSession.Vars) :
  established w -> is_traffic ev = true ->
  let w' := snd (NodeSession.dispatch decode config ev w) in
  established w' /\
  socket_writes (trace w') = socket_writes (trace w) ++ messages [ev] /\
  sends (trace w') = sends (trace w) ++ chunks [ev].
Proof.
  intros (Hs & Hf & Hr & Hc & Hp & Hd & Hx & Ho & Hn) Hev. cbv zeta.
  remember (snd (NodeSession.dispatch decode config ev w)) as w' eqn:E.
  unfold NodeSession.dispatch, NodeSession.async_listener,
         NodeSession.sync_listener, NodeSession.onMessage,
         NodeSession.laterMessage, NodeSession.onData in E.
  unfold established. io_unfold.
  destruct ev as [data | | | | | chunk | | |]; try discriminate Hev;
    cbn in E;
    repeat (progress (rewrite ?Hx, ?Hf, ?Hs, ?Hr, ?Hd, ?Hc, ?Hp, ?Ho, ?Hn in E;
                      cbn in E));
    subst w'; cbn;
    rewrite ?socket_writes_app, ?sends_app; cbn; rewrite ?app_nil_r;
    repeat split; assumption.
Qed.

Lemma Node_relay_run (evs : list NodeSession.event)
      (w : World NodeSession.Vars) :
  established w -> forallb is_traffic evs = true ->
  let w' := NodeSession.deliver decode config evs w in
  established w' /\
  socket_writes (trace w') = socket_writes (trace w) ++ messages evs /\
  sends (trace w') = sends (trace w) ++ chunks evs.
Proof.
  revert w. induction evs as [| ev evs IH]; intros w Hw Hevs; cbv zeta.
  - cbn. rewrite !app_nil_r. auto.
  - cbn [forallb] in Hevs. apply andb_true_iff in Hevs.
    destruct Hevs as [Hev Hevs].
    destruct (Node_relay_step ev w Hw Hev) as (Hw1 & W1 & S1).
    destruct (IH _ Hw1 Hevs) as (Hw2 & W2 & S2).
    cbn [NodeSession.deliver]. split; [exact Hw2 |].
    rewrite W2, W1, S2, S1, <- !app_assoc.
    rewrite (chunks_cons ev evs). split; [| reflexivity].
    f_equal. destruct ev; reflexivity.
Qed.

(** X16.  An established Node.js relay loses nothing.  After a handshake
    the decoder accepts and the connect callback, and as long as no platform
    call raises, the session writes to the outbound socket the initial
    payload and then every message of the client, and sends to the client
    every chunk of the socket, each in order of arrival. *)
Theorem Node_established_relay_is_lossless
    (hdr : Uint8Array) (h : Node.Header) (evs : list NodeSession.event) :
  decode_result decode config hdr = Returned (Node.Success h) ->
  forallb is_traffic evs = true ->
  let w := NodeSession.run decode config no_faults
             (NodeSession.WsMessage hdr :: NodeSession.SockConnect :: evs) in
  socket_writes (trace w)
  = socket_writes (initial_payload hdr (Node.rawDataIndex h)) ++ messages evs /\
  sends (trace w) = chunks evs.
Proof.
  intros D Hevs. cbv zeta.
  destruct (Node_handshake_establishes hdr h D) as (Hw & W & S).
  change (NodeSession.WsMessage hdr :: NodeSession.SockConnect :: evs)
    with ([NodeSession.WsMessage hdr; NodeSession.SockConnect] ++ evs).
  unfold NodeSession.run in *. rewrite deliver_app.
  destruct (Node_relay_run evs _ Hw Hevs) as (_ & W' & S').
  rewrite W', S', W, S. split; reflexivity.
Qed.

End Established.

(** An instance: two messages and a chunk after the IPv4 handshake. *)
Lemma Node_established_relay_is_lossless_witness :
  let w := NodeSession.run ascii_decode sample_config no_faults
             [NodeSession.WsMessage msg_ipv4; NodeSession.SockConnect;
              NodeSession.WsMessage (bytes_of [1]);
              NodeSession.SockData (bytes_of [2]);
              NodeSession.WsMessage (bytes_of [3])] in
  socket_writes (trace w)
  = [bytes_of [0xAA; 0xBB]; bytes_of [1]; bytes_of [3]] /\
  sends (trace w) = [bytes_of [2]].
Proof.
  cbv zeta.
  apply (Node_established_relay_is_lossless ascii_decode sample_config
           msg_ipv4
           {| Node.addressRemote := "192.168.0.1";
              Node.portRemote := Num 443;
              Node.rawDataIndex := Num 26;
              Node.vlessVersion := Num 0;
              Node.command := Num 1;
              Node.addressType := Num 1;
              Node.message := "VLESS header parsed successfully" |}
           [NodeSession.WsMessage (bytes_of [1]);
            NodeSession.SockData (bytes_of [2]);
            NodeSession.WsMessage (bytes_of [3])]).
  - vm_compute. reflexivity.
  - reflexivity.
Defined.
